(** * SRSA agent engine: parsers, tool executor, memory builder, run loop

    A shallow embedding of [src/agent/agents.py]: the action parsers
    ([parse_json_blob], [parse_code_blob], [parse_json_tool_call],
    [parse_text_tool_call]), [Agent.write_inner_memory_from_logs],
    [Agent.execute_tool_call], [ReactAgent.provide_final_answer],
    [ReactAgent.direct_run], [ReactAgent.stream_run],
    [ReactAgent.planning_step] and the [step] methods of the three
    ReAct variants, followed by the properties of the specification
    that concern them.

    Python strings are modelled by [string], read as sequences of code
    points below 256.  Exceptions are modelled by sum types: every
    function that can raise returns either its value or the exception. *)

From Stdlib Require Import String Ascii List ZArith Lia Bool DecimalString.
From stdpp Require Import gmap strings.
Import ListNotations.

Set Warnings "-register-all".

Local Open Scope Z_scope.
Local Open Scope nat_scope.

(** ** Python string operations *)

Module PyStr.

Definition nl : string := String "010"%char "".

(** The double-quote character, and a text between double quotes. *)
Definition dq : string := String "034"%char "".
Definition quoted (s : string) : string := dq +:+ s +:+ dq.

Fixpoint startswith (p s : string) : bool :=
  match p, s with
  | EmptyString, _ => true
  | String a p', String b s' => if Ascii.eqb a b then startswith p' s' else false
  | String _ _, EmptyString => false
  end.

Fixpoint take (n : nat) (s : string) : string :=
  match n, s with
  | S k, String c s' => String c (take k s')
  | _, _ => ""
  end.

Fixpoint drop (n : nat) (s : string) : string :=
  match n, s with
  | S k, String _ s' => drop k s'
  | _, _ => s
  end.

(** [s.find(sub)], [None] standing for the result [-1]. *)
Fixpoint find (sub s : string) : option nat :=
  if startswith sub s then Some 0
  else match s with
       | EmptyString => None
       | String _ s' => option_map S (find sub s')
       end.

(** [sub in s] *)
Definition contains (sub s : string) : bool :=
  match find sub s with Some _ => true | None => false end.

(** Start index of the last occurrence: the last element of
    [[a.start() for a in re.finditer(sub, s)]] for a one-character
    literal pattern, and [s.rfind(sub)] in general. *)
Fixpoint rfind (sub s : string) : option nat :=
  match s with
  | EmptyString => if startswith sub s then Some 0 else None
  | String _ s' =>
      match rfind sub s' with
      | Some i => Some (S i)
      | None => if startswith sub s then Some 0 else None
      end
  end.

(** [s.split(sep)] for a non-empty [sep], as the pair of the first field
    and the remaining fields.  [skip] counts the characters of a matched
    separator that are still to be dropped. *)
Fixpoint split_go (sep : string) (skip : nat) (s : string) : string * list string :=
  match s with
  | EmptyString => ("", [])
  | String c s' =>
      match skip with
      | S k => split_go sep k s'
      | O =>
          if startswith sep s
          then ("", let '(f, r) := split_go sep (String.length sep - 1) s' in f :: r)
          else let '(f, r) := split_go sep 0 s' in (String c f, r)
      end
  end.

Definition split (sep s : string) : list string :=
  let '(f, r) := split_go sep 0 s in f :: r.

(** [s.replace(old, new)] for a non-empty [old]. *)
Fixpoint replace_go (old new : string) (skip : nat) (s : string) : string :=
  match s with
  | EmptyString => ""
  | String c s' =>
      match skip with
      | S k => replace_go old new k s'
      | O =>
          if startswith old s
          then new +:+ replace_go old new (String.length old - 1) s'
          else String c (replace_go old new 0 s')
      end
  end.

Definition replace (old new s : string) : string := replace_go old new 0 s.

(** Code points for which [str.isspace] holds, below 256. *)
Definition isspace (c : ascii) : bool :=
  let n := nat_of_ascii c in
  ((9 <=? n) && (n <=? 13)) || ((28 <=? n) && (n <=? 32))
  || (n =? 133) || (n =? 160).

Fixpoint lstrip (s : string) : string :=
  match s with
  | String c s' => if isspace c then lstrip s' else s
  | EmptyString => ""
  end.

Fixpoint rstrip (s : string) : string :=
  match s with
  | EmptyString => ""
  | String c s' =>
      match rstrip s' with
      | EmptyString => if isspace c then "" else String c ""
      | r => String c r
      end
  end.

(** [s.strip()] *)
Definition strip (s : string) : string := rstrip (lstrip s).

(** [sep.join(l)] *)
Fixpoint join (sep : string) (l : list string) : string :=
  match l with
  | [] => ""
  | [x] => x
  | x :: r => x +:+ sep +:+ join sep r
  end.

(** Python slice [s[a:b]]: a negative bound counts from the end, and
    both bounds are clamped to the string. *)
Definition slice_bound (len i : Z) : nat :=
  Z.to_nat (Z.min len (if (i <? 0)%Z then Z.max 0 (len + i) else i)).

Definition slice (a b : Z) (s : string) : string :=
  let len := Z.of_nat (String.length s) in
  let a' := slice_bound len a in
  let b' := slice_bound len b in
  take (b' - a') (drop a' s).

End PyStr.


(** ** Python values *)

(** Classes of the objects a tool can hand back ([agent_types]). *)
Inductive obj_class := AgentText | AgentImage | AgentAudio | OtherClass.

(** The values that flow through the engine: what [json.loads] builds, and
    tool results.  [VObj c s] is an object of class [c] whose [str()] is
    [s]; an [AgentText] is a [str] subclass holding the text [s]. *)
Inductive value :=
| VNone
| VBool (b : bool)
| VInt (z : Z)
| VStr (s : string)
| VList (l : list value)
| VDict (d : list (string * value))
| VObj (c : obj_class) (s : string).

Module PyVal.

(** [isinstance(v, str)], with the text when it holds. *)
Definition as_str (v : value) : option string :=
  match v with
  | VStr s => Some s
  | VObj AgentText s => Some s
  | _ => None
  end.

(** Dictionaries keep insertion order: [d[k] = v] overwrites in place or
    appends. *)
Fixpoint dict_get {A} (k : string) (d : list (string * A)) : option A :=
  match d with
  | [] => None
  | (k', v) :: r => if String.eqb k k' then Some v else dict_get k r
  end.

Fixpoint dict_set {A} (k : string) (v : A) (d : list (string * A)) : list (string * A) :=
  match d with
  | [] => [(k, v)]
  | (k', v') :: r => if String.eqb k k' then (k, v) :: r else (k', v') :: dict_set k v r
  end.

Definition dict_mem {A} (k : string) (d : list (string * A)) : bool :=
  match dict_get k d with Some _ => true | None => false end.

Definition dict_keys {A} (d : list (string * A)) : list string := map fst d.

Definition hex_digit (n : nat) : string :=
  String.substring n 1 "0123456789abcdef".

(** One character inside [repr] of a string delimited by [q]. *)
Definition repr_char (q : ascii) (c : ascii) : string :=
  let n := nat_of_ascii c in
  if Ascii.eqb c q then String "\"%char (String c "")
  else if n =? 92 then "\\"
  else if n =? 10 then "\n"
  else if n =? 13 then "\r"
  else if n =? 9 then "\t"
  else if (n <? 32) || ((127 <=? n) && (n <=? 160)) || (n =? 173)
       then "\x" +:+ hex_digit (n / 16) +:+ hex_digit (n mod 16)
  else String c "".

Fixpoint repr_chars (q : ascii) (s : string) : string :=
  match s with
  | EmptyString => ""
  | String c s' => repr_char q c +:+ repr_chars q s'
  end.

(** [repr(s)] of a string: single quotes unless the text has a single
    quote and no double quote. *)
Definition repr_str (s : string) : string :=
  let q := if PyStr.contains "'" s && negb (PyStr.contains PyStr.dq s)
           then "034"%char else "'"%char in
  String q (repr_chars q s) +:+ String q "".

Definition repr_int (z : Z) : string :=
  DecimalString.NilZero.string_of_int (Z.to_int z).

(** [repr(v)] *)
Fixpoint repr (v : value) : string :=
  match v with
  | VNone => "None"
  | VBool true => "True"
  | VBool false => "False"
  | VInt z => repr_int z
  | VStr s => repr_str s
  | VList l => "[" +:+ PyStr.join ", " (map repr l) +:+ "]"
  | VDict d =>
      "{" +:+ PyStr.join ", "
               (map (fun kv => repr_str (fst kv) +:+ ": " +:+ repr (snd kv)) d)
      +:+ "}"
  | VObj AgentText s => repr_str s
  | VObj _ s => s
  end.

(** [str(v)] *)
Definition str (v : value) : string :=
  match v with
  | VStr s => s
  | VObj _ s => s
  | _ => repr v
  end.

(** [str(l)] of a list of strings, as in [list(d.keys())] inside an
    f-string. *)
Definition repr_str_list (l : list string) : string :=
  "[" +:+ PyStr.join ", " (map repr_str l) +:+ "]".

End PyVal.

(** ** [json.loads]

    The decoder belongs to Python's library, not to the repository.  The
    parsers below take it as a parameter; [Json.loads] is a reference
    decoder for [json.loads(s, strict=False)] on the fragment the examples
    use: objects, arrays, strings with one-character escapes, integers and
    the three literals.  Numbers with a fraction or an exponent, [NaN],
    [Infinity] and [\u] escapes are outside the fragment: the reference
    decoder stops on them. *)

(** [JDecodeError msg pos] is a [json.JSONDecodeError] with its [msg] and
    [pos] attributes. *)
Inductive json_result :=
| JOk (v : value)
| JDecodeError (msg : string) (pos : nat).

Module Json.

Definition is_ws (c : ascii) : bool :=
  let n := nat_of_ascii c in (n =? 32) || (n =? 9) || (n =? 10) || (n =? 13).

Definition is_digit (c : ascii) : bool :=
  let n := nat_of_ascii c in (48 <=? n) && (n <=? 57).

Fixpoint skip_ws (s : string) (pos : nat) : string * nat :=
  match s with
  | String c s' => if is_ws c then skip_ws s' (S pos) else (s, pos)
  | EmptyString => (s, pos)
  end.

(** The character an escape letter stands for. *)
Definition unescape (e : ascii) : option ascii :=
  let n := nat_of_ascii e in
  if (n =? 34) || (n =? 92) || (n =? 47) then Some e
  else if n =? 98 then Some "008"%char
  else if n =? 102 then Some "012"%char
  else if n =? 110 then Some "010"%char
  else if n =? 114 then Some "013"%char
  else if n =? 116 then Some "009"%char
  else None.

(** A step of a decoder: the decoded item with the rest of the input and
    its position, or the error. *)
Definition scan (A : Type) : Type := (A * string * nat) + (string * nat).

(** [scanstring] after the opening quote, which stands at [start]. *)
Fixpoint scanstring (s : string) (pos start : nat) : scan string :=
  match s with
  | EmptyString => inr ("Unterminated string starting at", start)
  | String c s' =>
      if Ascii.eqb c "034" then inl ("", s', S pos)
      else if Ascii.eqb c "\" then
        match s' with
        | EmptyString => inr ("Unterminated string starting at", start)
        | String e s'' =>
            match unescape e with
            | Some ch =>
                match scanstring s'' (S (S pos)) start with
                | inl (t, r, p) => inl (String ch t, r, p)
                | inr err => inr err
                end
            | None => inr ("Invalid \escape: " +:+ PyVal.repr_str (String e ""), S pos)
            end
        end
      else
        match scanstring s' (S pos) start with
        | inl (t, r, p) => inl (String c t, r, p)
        | inr err => inr err
        end
  end.

Fixpoint scan_digits (s : string) (pos : nat) (acc : Z) : Z * string * nat :=
  match s with
  | String c s' =>
      if is_digit c
      then scan_digits s' (S pos) (10 * acc + Z.of_nat (nat_of_ascii c - 48))%Z
      else (acc, s, pos)
  | EmptyString => (acc, s, pos)
  end.

(** An integer literal: an optional minus sign, then either a single
    zero or a non-zero digit followed by digits; not followed by a
    fraction or an exponent. *)
Definition scan_number (s : string) (pos : nat) : scan value :=
  let '(neg, s1, p1) :=
    match s with
    | String "-" s' => (true, s', S pos)
    | _ => (false, s, pos)
    end in
  match s1 with
  | String c s2 =>
      if is_digit c then
        let '(n, r, p) :=
          if Ascii.eqb c "0" then (0%Z, s2, S p1) else scan_digits s1 p1 0%Z in
        match r with
        | String "." _ | String "e" _ | String "E" _ => inr ("Expecting value", pos)
        | _ => inl (VInt (if neg then (- n)%Z else n), r, p)
        end
      else inr ("Expecting value", pos)
  | EmptyString => inr ("Expecting value", pos)
  end.

(** [scan_once], [JSONObject] and [JSONArray]; [fuel] bounds the nesting
    depth plus the number of items, and the length of the text is
    enough. *)
Fixpoint scan_once (fuel : nat) (s : string) (pos : nat) : scan value :=
  match fuel with
  | O => inr ("Expecting value", pos)
  | S fuel' =>
      match s with
      | EmptyString => inr ("Expecting value", pos)
      | String c s' =>
          if Ascii.eqb c "034" then
            match scanstring s' (S pos) pos with
            | inl (t, r, p) => inl (VStr t, r, p)
            | inr err => inr err
            end
          else if Ascii.eqb c "{" then
            let '(s1, p1) := skip_ws s' (S pos) in
            match s1 with
            | String "}" r => inl (VDict [], r, S p1)
            | String "034" r =>
                match scan_members fuel' r (S p1) [] with
                | inl (d, r', p') => inl (VDict d, r', p')
                | inr err => inr err
                end
            | _ => inr ("Expecting property name enclosed in double quotes", p1)
            end
          else if Ascii.eqb c "[" then
            let '(s1, p1) := skip_ws s' (S pos) in
            match s1 with
            | String "]" r => inl (VList [], r, S p1)
            | _ =>
                match scan_elements fuel' s1 p1 with
                | inl (l, r', p') => inl (VList l, r', p')
                | inr err => inr err
                end
            end
          else if PyStr.startswith "null" s then inl (VNone, PyStr.drop 4 s, pos + 4)
          else if PyStr.startswith "true" s then inl (VBool true, PyStr.drop 4 s, pos + 4)
          else if PyStr.startswith "false" s then inl (VBool false, PyStr.drop 5 s, pos + 5)
          else scan_number s pos
      end
  end
(** The members of an object, after the opening quote of a key. *)
with scan_members (fuel : nat) (s : string) (pos : nat)
       (acc : list (string * value)) : scan (list (string * value)) :=
  match fuel with
  | O => inr ("Expecting value", pos)
  | S fuel' =>
      match scanstring s pos (pos - 1) with
      | inr err => inr err
      | inl (key, s1, p1) =>
          let '(s2, p2) := skip_ws s1 p1 in
          match s2 with
          | String ":" s3 =>
              let '(s4, p4) := skip_ws s3 (S p2) in
              match scan_once fuel' s4 p4 with
              | inr err => inr err
              | inl (v, s5, p5) =>
                  let acc' := PyVal.dict_set key v acc in
                  let '(s6, p6) := skip_ws s5 p5 in
                  match s6 with
                  | String "}" r => inl (acc', r, S p6)
                  | String "," s7 =>
                      let '(s8, p8) := skip_ws s7 (S p6) in
                      match s8 with
                      | String "034" s9 => scan_members fuel' s9 (S p8) acc'
                      | _ => inr ("Expecting property name enclosed in double quotes", p8)
                      end
                  | _ => inr ("Expecting ',' delimiter", p6)
                  end
              end
          | _ => inr ("Expecting ':' delimiter", p2)
          end
      end
  end
(** The elements of a non-empty array. *)
with scan_elements (fuel : nat) (s : string) (pos : nat) : scan (list value) :=
  match fuel with
  | O => inr ("Expecting value", pos)
  | S fuel' =>
      match scan_once fuel' s pos with
      | inr err => inr err
      | inl (v, s1, p1) =>
          let '(s2, p2) := skip_ws s1 p1 in
          match s2 with
          | String "]" r => inl ([v], r, S p2)
          | String "," s3 =>
              let '(s4, p4) := skip_ws s3 (S p2) in
              match scan_elements fuel' s4 p4 with
              | inl (l, r, p) => inl (v :: l, r, p)
              | inr err => inr err
              end
          | _ => inr ("Expecting ',' delimiter", p2)
          end
      end
  end.

(** [json.loads(s, strict=False)] *)
Definition loads (s : string) : json_result :=
  let '(s0, p0) := skip_ws s 0 in
  match scan_once (S (String.length s)) s0 p0 with
  | inr (msg, pos) => JDecodeError msg pos
  | inl (v, r, p) =>
      let '(r', p') := skip_ws r p in
      match r' with
      | EmptyString => JOk v
      | _ => JDecodeError "Extra data" p'
      end
  end.

(** [str(e)] of a decode error on the document [doc]. *)
Definition count_nl (s : string) : nat :=
  List.length (PyStr.split PyStr.nl s) - 1.

Definition error_str (doc msg : string) (pos : nat) : string :=
  let before := PyStr.take pos doc in
  let lineno := count_nl before + 1 in
  let colno :=
    match PyStr.rfind PyStr.nl before with
    | Some i => pos - i
    | None => pos + 1
    end in
  msg +:+ ": line " +:+ PyVal.repr_int (Z.of_nat lineno)
      +:+ " column " +:+ PyVal.repr_int (Z.of_nat colno)
      +:+ " (char " +:+ PyVal.repr_int (Z.of_nat pos) +:+ ")".

End Json.

(** ** Exceptions *)

Inductive exn_class :=
| ValueError | TypeError | KeyError | IndexError | AttributeError
| OtherException
| AgentError | AgentParsingError | AgentExecutionError
| AgentMaxIterationsError | AgentGenerationError.

(** An exception object: its class and [str(e)]. *)
Record exn := Exn { exn_class_of : exn_class; exn_msg : string }.

(** [isinstance(e, AgentError)]: what [except AgentError] catches. *)
Definition is_agent_error (e : exn) : bool :=
  match exn_class_of e with
  | AgentError | AgentParsingError | AgentExecutionError
  | AgentMaxIterationsError | AgentGenerationError => true
  | _ => false
  end.

(** The outcome of a call: its value, or the exception it raised. *)
Inductive res (A : Type) :=
| Ok (a : A)
| Raise (e : exn).
Arguments Ok {A} a.
Arguments Raise {A} e.

Definition bind {A B} (m : res A) (k : A -> res B) : res B :=
  match m with
  | Ok a => k a
  | Raise e => Raise e
  end.

(** [try: m  except Exception as e: raise h(e)] *)
Definition reraise {A} (m : res A) (h : exn -> exn) : res A :=
  match m with
  | Ok a => Ok a
  | Raise e => Raise (h e)
  end.

Notation "x <- m ;; k" := (bind m (fun x => k))
  (at level 62, m at next level, right associativity).

Import PyStr.

(** ** Action parsers *)

(** [k in v] for a string [k]: key membership in a dict, substring in a
    string, element of a list; a [TypeError] elsewhere. *)
Definition value_contains (k : string) (v : value) : res bool :=
  match v with
  | VDict d => Ok (PyVal.dict_mem k d)
  | VList l =>
      Ok (existsb (fun x => match PyVal.as_str x with
                            | Some s => String.eqb s k
                            | None => false
                            end) l)
  | VStr s | VObj AgentText s => Ok (contains k s)
  | _ => Raise (Exn TypeError "argument is not iterable")
  end.

(** [v[k]] for a string [k] *)
Definition value_getitem (k : string) (v : value) : res value :=
  match v with
  | VDict d =>
      match PyVal.dict_get k d with
      | Some x => Ok x
      | None => Raise (Exn KeyError (PyVal.repr_str k))
      end
  | _ => Raise (Exn TypeError "indices must be integers")
  end.

Definition unpack_error (expected got : nat) : exn :=
  if got <? expected
  then Exn ValueError ("not enough values to unpack (expected "
                         +:+ PyVal.repr_int (Z.of_nat expected) +:+ ", got "
                         +:+ PyVal.repr_int (Z.of_nat got) +:+ ")")
  else Exn ValueError ("too many values to unpack (expected "
                         +:+ PyVal.repr_int (Z.of_nat expected) +:+ ")").

Section Parsers.

(** [json.loads(_, strict=False)] *)
Variable json_loads : string -> json_result.

Definition multiple_calls_msg : string :=
  "JSON is invalid: you probably tried to provide multiple tool calls in one action. PROVIDE ONLY ONE TOOL CALL.".

Definition parse_json_blob (json_blob : string) : res value :=
  let first_accolade_index :=
    match find "{" json_blob with Some i => Z.of_nat i | None => (-1)%Z end in
  match rfind "}" json_blob with
  | None => Raise (Exn ValueError "Error in parsing the JSON blob: list index out of range")
  | Some last_accolade_index =>
      let json_blob :=
        replace ("\" +:+ dq) "'"
          (slice first_accolade_index (Z.of_nat last_accolade_index + 1) json_blob) in
      match json_loads json_blob with
      | JOk json_data => Ok json_data
      | JDecodeError msg place =>
          let place' := Z.of_nat place in
          if String.eqb (slice (place' - 1) (place' + 2) json_blob) ("}," +:+ nl)
          then Raise (Exn ValueError multiple_calls_msg)
          else Raise (Exn ValueError
                 ("The JSON blob you used is invalid due to the following error: "
                    +:+ Json.error_str json_blob msg place +:+ "." +:+ nl
                    +:+ "JSON blob was: " +:+ json_blob
                    +:+ ", decoding failed on that specific part of the blob:" +:+ nl
                    +:+ "'" +:+ slice (place' - 4) (place' + 5) json_blob +:+ "'."))
      end
  end.

(** The alternatives of the regular expression of [parse_code_blob] at
    one start position, in the order the matcher tries them: the fence,
    the optional language tag [py] or [python], a newline, the shortest
    text up to a newline followed by a fence. *)
Definition fence : string := "```".

Definition group_after_newline (t : string) : option string :=
  if startswith nl t
  then match find (nl +:+ fence) (drop 1 t) with
       | Some n => Some (take n (drop 1 t))
       | None => None
       end
  else None.

Definition match_here (s : string) : option string :=
  if startswith fence s then
    let r := drop 3 s in
    match (if startswith "py" r then group_after_newline (drop 2 r) else None) with
    | Some g => Some g
    | None =>
        match (if startswith "python" r then group_after_newline (drop 6 r) else None) with
        | Some g => Some g
        | None => group_after_newline r
        end
    end
  else None.

(** [re.search(pattern, s, re.DOTALL)]: group 1 of the leftmost match. *)
Fixpoint re_search (s : string) : option string :=
  match match_here s with
  | Some g => Some g
  | None =>
      match s with
      | EmptyString => None
      | String _ s' => re_search s'
      end
  end.

Definition pattern : string := "```(?:py|python)?\n(.*?)\n```".

Definition code_blob_error (e : string) : string :=
  nl +:+ "The code blob you used is invalid: due to the following error: " +:+ e +:+ nl
     +:+ "This means that the regex pattern " +:+ pattern
     +:+ " was not respected: make sure to include code with the correct pattern, for instance:" +:+ nl
     +:+ "Thoughts: Your thoughts" +:+ nl
     +:+ "Code:" +:+ nl
     +:+ "```py" +:+ nl
     +:+ "# Your python code here" +:+ nl
     +:+ "```<end_action>".

Definition parse_code_blob (code_blob : string) : res string :=
  match re_search code_blob with
  | Some group1 => Ok (strip group1)
  | None =>
      Raise (Exn ValueError
               (code_blob_error "'NoneType' object has no attribute 'group'"))
  end.

Definition parse_json_tool_call (json_blob : string) : res (value * value) :=
  let json_blob := replace "```" "" (replace "```json" "" json_blob) in
  tool_call <- parse_json_blob json_blob ;;
  has_action <- value_contains "action" tool_call ;;
  has_input <- (if has_action then value_contains "action_input" tool_call else Ok false) ;;
  if has_action && has_input then
    a <- value_getitem "action" tool_call ;;
    i <- value_getitem "action_input" tool_call ;;
    Ok (a, i)
  else if has_action then
    a <- value_getitem "action" tool_call ;;
    Ok (a, VNone)
  else
    has_input' <- value_contains "action_input" tool_call ;;
    Raise (Exn ValueError
             ("Missing keys: "
                +:+ PyVal.repr_str_list
                      (filter (fun key => negb (if String.eqb key "action"
                                                then has_action else has_input'))
                              ["action"; "action_input"])
                +:+ " in blob " +:+ PyVal.str tool_call)).

Definition text_tool_call_error (e : exn) : exn :=
  Exn ValueError
    ("Error in parsing the text tool call: " +:+ exn_msg e
       +:+ ". Be sure to provide the correct format. DO NOT repeat your previous incorrect tool call.").

Definition parse_text_tool_call (text : string) : res (string * value) :=
  reraise
    (let text :=
       if contains "Observation:" text
       then hd "" (split "Observation:" text) else text in
     text <- (if contains "Action:" text
              then match nth_error (split "Action:" text) 1 with
                   | Some t => Ok t
                   | None => Raise (Exn IndexError "list index out of range")
                   end
              else Ok text) ;;
     match split "Action input:" text with
     | [tool_name; tool_input] =>
         tool_input <- (if contains "{" tool_input
                        then parse_json_blob tool_input
                        else Ok (VStr (replace dq "" (strip tool_input)))) ;;
         Ok (replace "\" "" (replace dq "" (strip tool_name)), tool_input)
     | l => Raise (unpack_error 2 (List.length l))
     end)
    text_tool_call_error.

End Parsers.

(** ** Messages, log entries and the agent *)

Inductive MessageRole := SYSTEM | USER | ASSISTANT | TOOL_RESPONSE.

Record message := Message { role : MessageRole; content : string }.

(** One dictionary of [self.logs].  A field is [None] when the key is
    absent.  The fields stand in the order in which the engine first
    writes them into a step's dictionary. *)
Record log_entry := LogEntry {
  e_system_prompt : option string;
  e_task : option string;
  e_plan : option string;
  e_facts : option string;
  e_agent_memory : option (list message);
  e_llm_output : option string;
  e_rationale : option string;
  e_summarization : option string;
  e_tool_call : option (value * value);
  e_observation : option value;
  e_final_answer : option value;
  e_error : option exn
}.

(** [{}] *)
Definition empty_entry : log_entry :=
  LogEntry None None None None None None None None None None None None.

Definition set_agent_memory (m : list message) (e : log_entry) : log_entry :=
  LogEntry (e_system_prompt e) (e_task e) (e_plan e) (e_facts e) (Some m)
    (e_llm_output e) (e_rationale e) (e_summarization e) (e_tool_call e)
    (e_observation e) (e_final_answer e) (e_error e).

Definition set_llm_output (x : string) (e : log_entry) : log_entry :=
  LogEntry (e_system_prompt e) (e_task e) (e_plan e) (e_facts e) (e_agent_memory e)
    (Some x) (e_rationale e) (e_summarization e) (e_tool_call e)
    (e_observation e) (e_final_answer e) (e_error e).

Definition set_rationale (x : string) (e : log_entry) : log_entry :=
  LogEntry (e_system_prompt e) (e_task e) (e_plan e) (e_facts e) (e_agent_memory e)
    (e_llm_output e) (Some x) (e_summarization e) (e_tool_call e)
    (e_observation e) (e_final_answer e) (e_error e).

Definition set_summarization (x : string) (e : log_entry) : log_entry :=
  LogEntry (e_system_prompt e) (e_task e) (e_plan e) (e_facts e) (e_agent_memory e)
    (e_llm_output e) (e_rationale e) (Some x) (e_tool_call e)
    (e_observation e) (e_final_answer e) (e_error e).

Definition set_tool_call (x : value * value) (e : log_entry) : log_entry :=
  LogEntry (e_system_prompt e) (e_task e) (e_plan e) (e_facts e) (e_agent_memory e)
    (e_llm_output e) (e_rationale e) (e_summarization e) (Some x)
    (e_observation e) (e_final_answer e) (e_error e).

Definition set_observation (x : value) (e : log_entry) : log_entry :=
  LogEntry (e_system_prompt e) (e_task e) (e_plan e) (e_facts e) (e_agent_memory e)
    (e_llm_output e) (e_rationale e) (e_summarization e) (e_tool_call e)
    (Some x) (e_final_answer e) (e_error e).

Definition set_final_answer (x : value) (e : log_entry) : log_entry :=
  LogEntry (e_system_prompt e) (e_task e) (e_plan e) (e_facts e) (e_agent_memory e)
    (e_llm_output e) (e_rationale e) (e_summarization e) (e_tool_call e)
    (e_observation e) (Some x) (e_error e).

Definition set_error (x : exn) (e : log_entry) : log_entry :=
  LogEntry (e_system_prompt e) (e_task e) (e_plan e) (e_facts e) (e_agent_memory e)
    (e_llm_output e) (e_rationale e) (e_summarization e) (e_tool_call e)
    (e_observation e) (e_final_answer e) (Some x).

Definition key_if {A} (k : string) (o : option A) : list string :=
  match o with Some _ => [k] | None => [] end.

(** [list(entry.keys())] for a dictionary a step builds. *)
Definition entry_keys (e : log_entry) : list string :=
  key_if "system_prompt" (e_system_prompt e) ++ key_if "task" (e_task e)
  ++ key_if "plan" (e_plan e) ++ key_if "facts" (e_facts e)
  ++ key_if "agent_memory" (e_agent_memory e) ++ key_if "llm_output" (e_llm_output e)
  ++ key_if "rationale" (e_rationale e) ++ key_if "summarization" (e_summarization e)
  ++ key_if "tool_call" (e_tool_call e) ++ key_if "observation" (e_observation e)
  ++ key_if "final_answer" (e_final_answer e) ++ key_if "error" (e_error e).

(** A tool is called with one positional value or with keyword
    arguments. *)
Inductive call_args :=
| Positional (v : value)
| Keywords (kw : list (string * value)).

(** A tool: its name, what [get_tool_description_with_args] renders for
    it under a template ([None] for the default template), and what
    calling it does. *)
Record Tool := {
  tool_name : string;
  tool_describe : option string -> string;
  tool_call : call_args -> res value
}.

(** [Toolbox._tools]: a dictionary from name to tool, in insertion
    order. *)
Definition Toolbox := list (string * Tool).

(** The engine is a callable: [llm_engine n messages stop] is what the
    [n]-th call (counting from 0) does on [messages] with the given stop
    sequences, [None] when the caller passes none. *)
Definition LlmEngine := nat -> list message -> option (list string) -> res string.

(** What a streaming run hands to its consumer: a log entry, or at the
    end the pair of the final answer and the observations. *)
Inductive yield_item :=
| YEntry (e : log_entry)
| YFinal (final_answer : value) (step_observation_logs : list value).

(** The part of the agent that a run changes: [self.logs] and
    [self.state], and three records the model keeps of what the run did:
    the calls made to the engine, the tools invoked and the items
    yielded, oldest first. *)
Record agent := Agent {
  logs : list log_entry;
  state : gmap string value;
  llm_calls : list (list message * option (list string));
  tool_calls : list (string * call_args);
  yielded : list yield_item
}.

(** *** Agent methods: state and exceptions *)

Definition M (A : Type) : Type := agent -> res A * agent.

Definition ret {A} (a : A) : M A := fun s => (Ok a, s).
Definition raise {A} (e : exn) : M A := fun s => (Raise e, s).
Definition lift {A} (r : res A) : M A := fun s => (r, s).

Definition bindM {A B} (m : M A) (k : A -> M B) : M B :=
  fun s => match m s with
           | (Ok a, s') => k a s'
           | (Raise e, s') => (Raise e, s')
           end.

(** [try: m  except Exception as e: h(e)] *)
Definition catch {A} (m : M A) (h : exn -> M A) : M A :=
  fun s => match m s with
           | (Ok a, s') => (Ok a, s')
           | (Raise e, s') => h e s'
           end.

Notation "x <~ m ;; k" := (bindM m (fun x => k))
  (at level 62, m at next level, right associativity).
Notation "m ;;; k" := (bindM m (fun _ => k))
  (at level 62, right associativity).

Definition get_logs : M (list log_entry) := fun s => (Ok (logs s), s).
Definition get_state : M (gmap string value) := fun s => (Ok (state s), s).

Definition set_logs (l : list log_entry) : M unit :=
  fun s => (Ok tt, Agent l (state s) (llm_calls s) (tool_calls s) (yielded s)).

(** [self.logs.append(e)] *)
Definition append_log (e : log_entry) : M unit :=
  fun s => (Ok tt, Agent (logs s ++ [e]) (state s) (llm_calls s) (tool_calls s) (yielded s)).

(** [self.state[k] = v] *)
Definition state_set (k : string) (v : value) : M unit :=
  fun s => (Ok tt, Agent (logs s) (<[k := v]> (state s)) (llm_calls s) (tool_calls s) (yielded s)).

(** An update of the dictionary [self.logs[-1]]; the dictionary a step
    appended is that one for as long as the step runs. *)
Definition update_last (f : log_entry -> log_entry) : M unit :=
  fun s =>
    match List.rev (logs s) with
    | [] => (Raise (Exn IndexError "list index out of range"), s)
    | e :: r =>
        (Ok tt, Agent (List.rev r ++ [f e]) (state s) (llm_calls s) (tool_calls s) (yielded s))
    end.

(** A call of the engine, recorded. *)
Definition call_llm (llm_engine : LlmEngine) (msgs : list message)
    (stop : option (list string)) : M string :=
  fun s =>
    (llm_engine (List.length (llm_calls s)) msgs stop,
     Agent (logs s) (state s) (llm_calls s ++ [(msgs, stop)]) (tool_calls s) (yielded s)).

(** ** Memory builder *)

Definition retry_guidance : string :=
  nl +:+ "Now let's retry: take care not to repeat previous errors! If you have retried several times, try a completely different approach." +:+ nl.

Definition tool_call_dict (tc : value * value) : value :=
  VDict [("tool_name", fst tc); ("tool_arguments", snd tc)].

(** The messages one iteration of the loop over [self.logs[1:]] appends
    for the entry [step_log] at index [i]. *)
Definition step_messages (summary_mode : bool) (i : nat) (step_log : log_entry)
  : list message :=
  (match e_llm_output step_log with
   | Some o => if summary_mode then [] else [Message ASSISTANT (strip o)]
   | None => []
   end)
  ++ (match e_facts step_log with
      | Some f => [Message ASSISTANT ("[FACTS LIST]:" +:+ nl +:+ strip f)]
      | None => []
      end)
  ++ (match e_plan step_log with
      | Some p => if summary_mode then [] else [Message ASSISTANT ("[PLAN]:" +:+ nl +:+ strip p)]
      | None => []
      end)
  ++ (match e_tool_call step_log with
      | Some tc =>
          if summary_mode
          then [Message ASSISTANT
                  ("[STEP " +:+ PyVal.repr_int (Z.of_nat i) +:+ " TOOL CALL]: "
                     +:+ strip (PyVal.repr (tool_call_dict tc)))]
          else []
      | None => []
      end)
  ++ (match e_task step_log with
      | Some t => [Message USER ("New task:" +:+ nl +:+ t)]
      | None => []
      end)
  ++ (match e_error step_log, e_observation step_log with
      | Some err, _ =>
          [Message TOOL_RESPONSE
             ("[OUTPUT OF STEP " +:+ PyVal.repr_int (Z.of_nat i) +:+ "] Error: "
                +:+ exn_msg err +:+ retry_guidance)]
      | None, Some obs =>
          [Message TOOL_RESPONSE
             ("[OUTPUT OF STEP " +:+ PyVal.repr_int (Z.of_nat i) +:+ "] Observation:"
                +:+ nl +:+ PyVal.str obs)]
      | None, None => []
      end).

(** [for i, step_log in enumerate(l)] starting at index [i]. *)
Fixpoint steps_messages (summary_mode : bool) (i : nat) (l : list log_entry)
  : list message :=
  match l with
  | [] => []
  | step_log :: r => step_messages summary_mode i step_log ++ steps_messages summary_mode (S i) r
  end.

Definition key_error {A} (k : string) : res A := Raise (Exn KeyError (PyVal.repr_str k)).

Definition write_inner_memory_from_logs (lg : list log_entry)
    (summary_mode is_mistral : bool) : res (list message) :=
  match lg with
  | [] => Raise (Exn IndexError "list index out of range")
  | entry0 :: rest =>
      match e_system_prompt entry0 with
      | None => key_error "system_prompt"
      | Some sp =>
          let prompt_message :=
            if negb is_mistral then Message SYSTEM sp
            else Message USER (replace "<<tool_descriptions>>" "" sp) in
          match e_task entry0 with
          | None => key_error "task"
          | Some t =>
              let task_message := Message USER ("Task: " +:+ t) in
              let memory :=
                if summary_mode then [task_message] else [prompt_message; task_message] in
              Ok (memory ++ steps_messages summary_mode 0 rest)
          end
      end
  end.

(** ** Toolbox *)

Definition show_tool_descriptions (tb : Toolbox) (template : string) : string :=
  join nl (map (fun nt => tool_describe (snd nt) (Some template)) tb).

Definition add_tool (tb : Toolbox) (tool : Tool) : res Toolbox :=
  if PyVal.dict_mem (tool_name tool) tb
  then Raise (Exn KeyError
                (PyVal.repr_str ("Error: tool '" +:+ tool_name tool
                                   +:+ "' already exists in the toolbox.")))
  else Ok (PyVal.dict_set (tool_name tool) tool tb).

Definition format_prompt_with_tools (tb : Toolbox)
    (prompt_template tool_description_template : string) : string :=
  let tool_descriptions := show_tool_descriptions tb tool_description_template in
  let prompt := replace "<<tool_descriptions>>" tool_descriptions prompt_template in
  if contains "<<tool_names>>" prompt
  then replace "<<tool_names>>"
         (join ", " (map (fun n => "'" +:+ n +:+ "'") (PyVal.dict_keys tb))) prompt
  else prompt.

Definition format_prompt_with_imports (prompt_template authorized_imports : string)
  : res string :=
  if negb (contains "<<authorized_imports>>" prompt_template)
  then Raise (Exn AgentError "Tag '<<authorized_imports>>' should be provided in the prompt.")
  else Ok (replace "<<authorized_imports>>" authorized_imports prompt_template).

(** ** The agent's configuration *)

(** The prompt texts of the planner, which live in a module outside the
    sources at hand: the constants, and the templates as the functions
    [str.format] makes of them. *)
Record PlanningPrompts := {
  SYSTEM_PROMPT_FACTS : string;
  SYSTEM_PROMPT_PLAN : string;
  USER_PROMPT_PLAN : string -> string -> string -> string;
  SYSTEM_PROMPT_FACTS_UPDATE : string;
  USER_PROMPT_FACTS_UPDATE : string;
  SYSTEM_PROMPT_PLAN_UPDATE : string -> string;
  USER_PROMPT_PLAN_UPDATE : string -> string -> string -> Z -> string;
  PLAN_UPDATE_FINAL_PLAN_REDACTION : string -> string -> string
}.

(** What the constructor fixes for a run.  [authorized_imports] is the
    printed import list of the variants that have the attribute. *)
Record Config := {
  toolbox : Toolbox;
  llm_engine : LlmEngine;
  system_prompt_template : string;
  tool_description_template : string;
  max_iterations : Z;
  planning_interval : option Z;
  tool_parser : string -> res (value * value);
  authorized_imports : option string;
  prompts : PlanningPrompts
}.

Section AgentMethods.

Variable cfg : Config.

(** The entry [initialize_for_run] makes [self.logs] start with. *)
Definition initialize_for_run (task : string) : M unit :=
  let sp := format_prompt_with_tools (toolbox cfg) (system_prompt_template cfg)
              (tool_description_template cfg) in
  sp <~ lift (match authorized_imports cfg with
              | Some imports => format_prompt_with_imports sp imports
              | None => Ok sp
              end) ;;
  set_logs [LogEntry (Some sp) (Some task) None None None None None None None None None None].

Definition extract_action (llm_output split_token : string) : res (string * string) :=
  match List.rev (split split_token llm_output) with
  | action :: rationale :: _ => Ok (rationale, action)
  | _ =>
      Raise (Exn AgentParsingError
               ("Error: No '" +:+ split_token +:+ "' token provided in your output."
                  +:+ nl +:+ "Your output:" +:+ nl +:+ llm_output +:+ nl
                  +:+ ". Be sure to include an action, prefaced with '"
                  +:+ split_token +:+ "'!"))
  end.

(** The loop of [execute_tool_call] over [arguments.items()]: a value
    that is a string and a key of the state is replaced by the state's
    value. *)
Definition substitute_state (st : gmap string value) (arguments : list (string * value))
  : list (string * value) :=
  map (fun kv =>
         (fst kv,
          match PyVal.as_str (snd kv) with
          | Some s => match st !! s with Some x => x | None => snd kv end
          | None => snd kv
          end)) arguments.

Definition unknown_tool_msg (name : value) : string :=
  "Error: unknown tool " +:+ PyVal.str name +:+ ", should be instead one of "
    +:+ PyVal.repr_str_list (PyVal.dict_keys (toolbox cfg)) +:+ ".".

Definition execution_error (e : exn) (tool : Tool) : exn :=
  Exn AgentExecutionError
    ("Error in tool call execution: " +:+ exn_msg e +:+ nl
       +:+ "You should only use this tool with a correct input." +:+ nl
       +:+ "As a reminder, this tool's description is the following:" +:+ nl
       +:+ tool_describe tool None).

(** The class name in the message of an [AttributeError]; the class of
    an opaque object is not known to the model. *)
Definition type_name (v : value) : string :=
  match v with
  | VNone => "NoneType" | VBool _ => "bool" | VInt _ => "int" | VStr _ => "str"
  | VList _ => "list" | VDict _ => "dict"
  | VObj AgentText _ => "AgentText" | VObj AgentImage _ => "AgentImage"
  | VObj AgentAudio _ => "AgentAudio" | VObj OtherClass _ => "object"
  end.

(** A call of a tool, recorded. *)
Definition invoke (tool : Tool) (args : call_args) : M value :=
  fun s =>
    (tool_call tool args,
     Agent (logs s) (state s) (llm_calls s) (tool_calls s ++ [(tool_name tool, args)]) (yielded s)).

(** [execute_tool_call] writes the substituted values into the dictionary
    [arguments] it was given.  [written] says where else that dictionary
    is visible: it is run with the dictionary's new contents. *)
Definition execute_tool_call (written : value -> M unit)
    (name arguments : value) : M value :=
  match name with
  | VList _ | VDict _ =>
      raise (Exn TypeError ("unhashable type: '" +:+ type_name name +:+ "'"))
  | _ =>
      match match PyVal.as_str name with
            | Some n => PyVal.dict_get n (toolbox cfg)
            | None => None
            end with
      | None => raise (Exn AgentExecutionError (unknown_tool_msg name))
      | Some tool =>
          catch
            (match PyVal.as_str arguments with
             | Some _ => invoke tool (Positional arguments)
             | None =>
                 match arguments with
                 | VDict kw =>
                     st <~ get_state ;;
                     let kw' := substitute_state st kw in
                     written (VDict kw') ;;;
                     invoke tool (Keywords kw')
                 | _ =>
                     raise (Exn AttributeError
                              ("'" +:+ type_name arguments
                                 +:+ "' object has no attribute 'items'"))
                 end
             end)
            (fun e => raise (execution_error e tool))
      end
  end.

Definition stuck_msg : string :=
  "An agent tried to answer an user query but it got stuck and failed to do so. You are tasked with providing an answer instead. Here is the agent's memory:".

Definition provide_final_answer (task : string) (is_mistral : bool) : M string :=
  lg <~ get_logs ;;
  memory <~ lift (write_inner_memory_from_logs lg false is_mistral) ;;
  let prompt :=
    [Message (if negb is_mistral then SYSTEM else USER) stuck_msg]
      ++ tl memory
      ++ [Message USER
            ("Based on the above, please provide an answer to the following user request:"
               +:+ nl +:+ task)] in
  catch (call_llm (llm_engine cfg) prompt None)
    (fun e => ret ("Error in generating final llm output: " +:+ exn_msg e +:+ ".")).

Definition planning_step (task : string) (is_first_step : bool) (iteration : Z)
    (is_mistral : bool) : M unit :=
  let sys := if negb is_mistral then SYSTEM else USER in
  let P := prompts cfg in
  if is_first_step then
    let message_prompt_facts := Message sys (SYSTEM_PROMPT_FACTS P) in
    let message_system_prompt_plan := Message sys (SYSTEM_PROMPT_PLAN P) in
    let message_prompt_task :=
      Message USER ("Here is the task:" +:+ nl +:+ "```" +:+ nl +:+ task +:+ nl
                      +:+ "```" +:+ nl +:+ "Now begin!") in
    answer_facts <~ call_llm (llm_engine cfg) [message_prompt_facts; message_prompt_task] None ;;
    let message_user_prompt_plan :=
      Message USER
        (USER_PROMPT_PLAN P task
           (show_tool_descriptions (toolbox cfg) (tool_description_template cfg))
           answer_facts) in
    answer_plan <~ call_llm (llm_engine cfg)
                     [message_system_prompt_plan; message_user_prompt_plan]
                     (Some ["<end_plan>"]) ;;
    let final_plan_redaction :=
      "Here is the plan of action that I will follow to solve the task:" +:+ nl
        +:+ "```" +:+ nl +:+ answer_plan +:+ nl +:+ "```" in
    let final_facts_redaction :=
      strip ("Here are the facts that I know so far:" +:+ nl
               +:+ "```" +:+ nl +:+ answer_facts +:+ nl +:+ "```") in
    append_log (LogEntry None None (Some final_plan_redaction) (Some final_facts_redaction)
                  None None None None None None None None)
  else
    lg <~ get_logs ;;
    agent_memory <~ lift (write_inner_memory_from_logs lg false is_mistral) ;;
    let facts_update_system_prompt := Message sys (SYSTEM_PROMPT_FACTS_UPDATE P) in
    let facts_update_message := Message USER (USER_PROMPT_FACTS_UPDATE P) in
    facts_update <~ call_llm (llm_engine cfg)
                      ([facts_update_system_prompt] ++ agent_memory ++ [facts_update_message])
                      None ;;
    let plan_update_message := Message sys (SYSTEM_PROMPT_PLAN_UPDATE P task) in
    let plan_update_message_user :=
      Message USER
        (USER_PROMPT_PLAN_UPDATE P task
           (show_tool_descriptions (toolbox cfg) (tool_description_template cfg))
           facts_update (max_iterations cfg - iteration)%Z) in
    plan_update <~ call_llm (llm_engine cfg)
                     ([plan_update_message] ++ agent_memory ++ [plan_update_message_user])
                     (Some ["<end_plan>"]) ;;
    let final_plan_redaction := PLAN_UPDATE_FINAL_PLAN_REDACTION P task plan_update in
    let final_facts_redaction :=
      "Here is the updated list of the facts that I know:" +:+ nl
        +:+ "```" +:+ nl +:+ facts_update +:+ nl +:+ "```" in
    append_log (LogEntry None None (Some final_plan_redaction) (Some final_facts_redaction)
                  None None None None None None None None).

End AgentMethods.

(** ** The steps of the ReAct variants *)

(** What a [step] method returns: the step's dictionary itself
    ([ReactJsonAgent]), or a tuple whose first component is that
    dictionary ([ReactCodeAgent]: two components, [ReactCodeSearchAgent]:
    three). *)
Inductive step_return :=
| RetDict (current_step_logs : log_entry)
| RetTuple (current_step_logs : log_entry) (rest : list value).

(** [self.logs[-1]] *)
Definition current_entry : M log_entry :=
  fun s =>
    match List.rev (logs s) with
    | [] => (Raise (Exn IndexError "list index out of range"), s)
    | e :: _ => (Ok e, s)
    end.

Definition generation_error (e : exn) : exn :=
  Exn AgentGenerationError ("Error in generating llm output: " +:+ exn_msg e +:+ ".").

Definition step_stop_sequences : option (list string) :=
  Some ["<end_action>"; "Observation:"].

(** The name under which a tool result that is no [AgentText] is stored. *)
Definition observation_name (observation : value) : string :=
  match observation with
  | VObj AgentImage _ => "image.png"
  | VObj AgentAudio _ => "audio.mp3"
  | _ => "object.object"
  end.

Section Steps.

Variable cfg : Config.

(** The first lines that the three [step] methods share: build the
    memory, append the step's dictionary, call the engine. *)
Definition begin_step (is_mistral : bool) : M string :=
  lg <~ get_logs ;;
  agent_memory <~ lift (write_inner_memory_from_logs lg false is_mistral) ;;
  append_log empty_entry ;;;
  update_last (set_agent_memory agent_memory) ;;;
  llm_output <~ catch (call_llm (llm_engine cfg) agent_memory step_stop_sequences)
                  (fun e => raise (generation_error e)) ;;
  update_last (set_llm_output llm_output) ;;;
  ret llm_output.

(** The answer [ReactJsonAgent.step] records for the pseudo-tool
    [final_answer]. *)
Definition final_answer_of (st : gmap string value) (arguments : value) : value :=
  match arguments with
  | VDict d =>
      match PyVal.dict_get "answer" d with
      | Some answer =>
          match PyVal.as_str answer with
          | Some s => match st !! s with Some x => x | None => answer end
          | None => answer
          end
      | None => arguments
      end
  | _ => arguments
  end.

Definition ReactJsonAgent_step : M step_return :=
  llm_output <~ begin_step false ;;
  ra <~ lift (extract_action llm_output "Action:") ;;
  ta <~ lift (reraise (tool_parser cfg (snd ra))
                (fun e => Exn AgentParsingError
                            ("Could not parse the given action: " +:+ exn_msg e +:+ "."))) ;;
  let name := fst ta in
  let arguments := snd ta in
  update_last (set_rationale (fst ra)) ;;;
  update_last (set_tool_call (name, arguments)) ;;;
  if match PyVal.as_str name with
     | Some n => String.eqb n "final_answer"
     | None => false
     end
  then
    st <~ get_state ;;
    update_last (set_final_answer (final_answer_of st arguments)) ;;;
    current_step_logs <~ current_entry ;;
    ret (RetDict current_step_logs)
  else
    observation <~ execute_tool_call cfg
                     (fun a => update_last (set_tool_call (name, a)))
                     name arguments ;;
    updated_information <~
      (match observation with
       | VObj AgentText s => ret (strip s)
       | _ =>
           state_set (observation_name observation) observation ;;;
           ret ("Stored '" +:+ observation_name observation +:+ "' in memory.")
       end) ;;
    update_last (set_observation (VStr updated_information)) ;;;
    current_step_logs <~ current_entry ;;
    ret (RetDict current_step_logs).

(** [evaluate_python_code]: the result, or the exception, and the
    state it leaves. *)
Variable python_evaluator :
  string -> gmap string value -> res value * gmap string value.

Definition run_evaluator (code : string) : M value :=
  fun s =>
    let '(r, st') := python_evaluator code (state s) in
    (r, Agent (logs s) st' (llm_calls s) (tool_calls s) (yielded s)).

Definition code_execution_error (e : exn) : exn :=
  let error_msg := "Code execution failed due to the following error:" +:+ nl +:+ exn_msg e in
  Exn AgentExecutionError
    (if contains "'dict' object has no attribute 'read'" (exn_msg e)
     then error_msg +:+ nl
            +:+ "You get this error because you passed a dict as input for one of the arguments instead of a string."
     else error_msg).

(** [obs] of the two code variants. *)
Definition observation_or_empty (e : log_entry) : value :=
  match e_observation e with Some o => o | None => VStr "" end.

Definition ReactCodeAgent_step (is_mistral : bool) : M step_return :=
  llm_output <~ begin_step is_mistral ;;
  let ra := match extract_action llm_output "Code:" with
            | Ok ra => ra
            | Raise _ => (llm_output, llm_output)
            end in
  code_action <~ lift (reraise (parse_code_blob (snd ra))
                         (fun e => Exn AgentParsingError
                                     ("Error in code parsing: " +:+ exn_msg e
                                        +:+ ". Make sure to provide correct code"))) ;;
  update_last (set_rationale (fst ra)) ;;;
  update_last (set_tool_call (VStr "code interpreter", VStr code_action)) ;;;
  result <~ catch
              (result <~ run_evaluator code_action ;;
               st <~ get_state ;;
               information <~ lift (match st !! "print_outputs" with
                                    | Some i => Ok i
                                    | None => key_error "print_outputs"
                                    end) ;;
               update_last (set_observation information) ;;;
               ret result)
              (fun e => raise (code_execution_error e)) ;;
  (if existsb (fun line => String.eqb (take 12 line) "final_answer") (split nl code_action)
   then update_last (set_final_answer result)
   else ret tt) ;;;
  current_step_logs <~ current_entry ;;
  ret (RetTuple current_step_logs [observation_or_empty current_step_logs]).

Variable search_tool : Tool.

Definition last_field (sep s : string) : string := hd "" (List.rev (split sep s)).
Definition first_field (sep s : string) : string := hd "" (split sep s).

(** The first [try] block of [ReactCodeSearchAgent.step]: the rationale
    and the query around the last [Search:] marker. *)
Definition split_search (llm_output : string) : option (string * string) :=
  if contains "Search:" llm_output then
    match List.rev (split "Search:" llm_output) with
    | search_query :: rationale :: _ =>
        Some (rationale, first_field "Observation:" search_query)
    | _ => None
    end
  else None.

Definition ReactCodeSearchAgent_step (is_mistral : bool) : M step_return :=
  llm_output <~ begin_step is_mistral ;;
  (match split_search llm_output with
   | Some (rationale, search_query) =>
       update_last (set_rationale (last_field "Thought:" rationale)) ;;;
       update_last (set_summarization
                      (last_field "Summarization" (first_field "Thought:" rationale))) ;;;
       search_res <~ catch (invoke search_tool (Positional (VStr search_query)))
                       (fun e => raise (Exn AgentParsingError
                                          ("Error in searching: " +:+ exn_msg e +:+ "."))) ;;
       update_last (set_observation search_res)
   | None =>
       if contains "Final Answer:" llm_output
       then update_last (set_final_answer (VStr (last_field "Final Answer:" llm_output)))
       else update_last (set_rationale llm_output)
   end) ;;;
  current_step_logs <~ current_entry ;;
  ret (RetTuple current_step_logs
         [observation_or_empty current_step_logs;
          match e_summarization current_step_logs with
          | Some sm => VStr sm
          | None => VStr ""
          end]).

End Steps.

(** ** The run loops *)

Definition is_None (v : value) : bool :=
  match v with VNone => true | _ => false end.

(** [try: m  except AgentError as e: h(e)] *)
Definition catch_agent {A} (m : M A) (h : exn -> M A) : M A :=
  catch m (fun e => if is_agent_error e then h e else raise e).

(** [step_logs, ob, sm = self.step()] and [step_logs, ob = self.step()].
    The first target is the step's dictionary when the step returned a
    tuple of the right length; when the step returned the dictionary
    itself, the targets are bound to its keys. *)
Definition unpack3 (r : step_return) : res ((log_entry + string) * value * value) :=
  match r with
  | RetTuple e [ob; sm] => Ok (inl e, ob, sm)
  | RetTuple _ rest => Raise (unpack_error 3 (S (List.length rest)))
  | RetDict e =>
      match entry_keys e with
      | [k1; k2; k3] => Ok (inr k1, VStr k2, VStr k3)
      | ks => Raise (unpack_error 3 (List.length ks))
      end
  end.

Definition unpack2 (r : step_return) : res ((log_entry + string) * value) :=
  match r with
  | RetTuple e [ob] => Ok (inl e, ob)
  | RetTuple _ rest => Raise (unpack_error 2 (S (List.length rest)))
  | RetDict e =>
      match entry_keys e with
      | [k1; k2] => Ok (inr k1, VStr k2)
      | ks => Raise (unpack_error 2 (List.length ks))
      end
  end.

(** ["final_answer" in step_logs] *)
Definition has_final_answer (step_logs : log_entry + string) : bool :=
  match step_logs with
  | inl e => match e_final_answer e with Some _ => true | None => false end
  | inr key => contains "final_answer" key
  end.

(** [step_logs["final_answer"]] *)
Definition get_final_answer (step_logs : log_entry + string) : res value :=
  match step_logs with
  | inl e => match e_final_answer e with
             | Some v => Ok v
             | None => key_error "final_answer"
             end
  | inr _ => Raise (Exn TypeError "string indices must be integers")
  end.

(** The local variables of a run. *)
Record run_locals := RunLocals {
  final_answer : value;
  step_observation_logs : list value;
  sm_logs : list value
}.

Definition max_iterations_entry : log_entry :=
  set_error (Exn AgentMaxIterationsError "Reached max iterations.") empty_entry.

(** [self.logs[-1]] handed to the consumer of a streaming run. *)
Definition yield_last : M unit :=
  fun s =>
    match List.rev (logs s) with
    | [] => (Raise (Exn IndexError "list index out of range"), s)
    | e :: _ =>
        (Ok tt, Agent (logs s) (state s) (llm_calls s) (tool_calls s) (yielded s ++ [YEntry e]))
    end.

Definition yield (y : yield_item) : M unit :=
  fun s => (Ok tt, Agent (logs s) (state s) (llm_calls s) (tool_calls s) (yielded s ++ [y])).

(** [try: m  finally: f]: [f] runs on both ways out, and an exception of
    [m] goes on after it. *)
Definition finally {A} (m : M A) (f : M unit) : M A :=
  fun s =>
    match m s with
    | (Ok a, s') => match f s' with
                    | (Ok _, s'') => (Ok a, s'')
                    | (Raise e, s'') => (Raise e, s'')
                    end
    | (Raise e, s') => match f s' with
                       | (Ok _, s'') => (Raise e, s'')
                       | (Raise e', s'') => (Raise e', s'')
                       end
    end.

Section Run.

Variable cfg : Config.

(** The [step] method of the variant that runs. *)
Variable step : M step_return.

Variable task : string.
Variable is_mistral : bool.

(** The planning of an iteration of [direct_run]. *)
Definition maybe_plan (iteration : Z) : M unit :=
  match planning_interval cfg with
  | Some interval =>
      if (interval =? 0)%Z
      then raise (Exn OtherException "integer division or modulo by zero")
      else if (iteration mod interval =? 0)%Z
           then planning_step cfg task (iteration =? 0)%Z iteration is_mistral
           else ret tt
  | None => ret tt
  end.

(** The [try] statement of one iteration of [direct_run].  An
    [AgentError] can only come from the planning or the step, before any
    local variable is written, so the handler goes on from the locals
    the iteration started with. *)
Definition direct_iteration (iteration : Z) (loc : run_locals) : M run_locals :=
  catch_agent
    (maybe_plan iteration ;;;
     r <~ step ;;
     u <~ lift (unpack3 r) ;;
     let '(step_logs, ob, sm) := u in
     let loc' := RunLocals (final_answer loc)
                   (step_observation_logs loc ++ [ob]) (sm_logs loc ++ [sm]) in
     if has_final_answer step_logs
     then fa <~ lift (get_final_answer step_logs) ;;
          ret (RunLocals fa (step_observation_logs loc') (sm_logs loc'))
     else ret loc')
    (fun e => update_last (set_error e) ;;; ret loc).

(** The [while] loop of [direct_run]; [remaining] is
    [max_iterations - iteration]. *)
Fixpoint direct_loop (remaining : nat) (iteration : Z) (loc : run_locals)
  : M (Z * run_locals) :=
  match remaining with
  | O => ret (iteration, loc)
  | S remaining' =>
      if is_None (final_answer loc)
      then loc' <~ direct_iteration iteration loc ;;
           direct_loop remaining' (iteration + 1)%Z loc'
      else ret (iteration, loc)
  end.

Definition direct_run : M (value * list value * list value) :=
  il <~ direct_loop (Z.to_nat (max_iterations cfg)) 0%Z (RunLocals VNone [] []) ;;
  let iteration := fst il in
  let loc := snd il in
  if is_None (final_answer loc) && (iteration =? max_iterations cfg)%Z then
    append_log max_iterations_entry ;;;
    answer <~ provide_final_answer cfg task is_mistral ;;
    let final_answer := VStr answer in
    (if negb (is_None final_answer)
     then update_last (set_final_answer final_answer)
     else ret tt) ;;;
    ret (final_answer, step_observation_logs loc, sm_logs loc)
  else ret (final_answer loc, step_observation_logs loc, sm_logs loc).

(** One iteration of [stream_run]. *)
Definition stream_iteration (loc : run_locals) : M run_locals :=
  finally
    (catch_agent
       (r <~ step ;;
        u <~ lift (unpack2 r) ;;
        let '(step_logs, ob) := u in
        let loc' := RunLocals (final_answer loc)
                      (step_observation_logs loc ++ [ob]) (sm_logs loc) in
        if has_final_answer step_logs
        then fa <~ lift (get_final_answer step_logs) ;;
             ret (RunLocals fa (step_observation_logs loc') (sm_logs loc'))
        else ret loc')
       (fun e => update_last (set_error e) ;;; ret loc))
    yield_last.

Fixpoint stream_loop (remaining : nat) (iteration : Z) (loc : run_locals)
  : M (Z * run_locals) :=
  match remaining with
  | O => ret (iteration, loc)
  | S remaining' =>
      if is_None (final_answer loc)
      then loc' <~ stream_iteration loc ;;
           stream_loop remaining' (iteration + 1)%Z loc'
      else ret (iteration, loc)
  end.

(** [stream_run], consumed to its end: what it yields is appended to
    [yielded]. *)
Definition stream_run : M unit :=
  il <~ stream_loop (Z.to_nat (max_iterations cfg)) 0%Z (RunLocals VNone [] []) ;;
  let iteration := fst il in
  let loc := snd il in
  final_answer <~
    (if is_None (final_answer loc) && (iteration =? max_iterations cfg)%Z then
       append_log max_iterations_entry ;;;
       answer <~ provide_final_answer cfg task is_mistral ;;
       update_last (set_final_answer (VStr answer)) ;;;
       yield_last ;;;
       ret (VStr answer)
     else ret (final_answer loc)) ;;
  yield (YFinal final_answer (step_observation_logs loc)).

(** [run(task, stream, reset, is_mistral, **kwargs)] up to the choice of
    the loop: [self.task], [self.state] and the first log entry. *)
Definition start_run (reset : bool) (kwargs : list (string * value)) : M unit :=
  let self_task :=
    if 0 <? List.length kwargs
    then task +:+ nl +:+ "You have been provided with these initial arguments: "
           +:+ PyVal.repr (VDict kwargs) +:+ "."
    else task in
  (fun s => (Ok tt, Agent (logs s) (list_to_map kwargs) (llm_calls s) (tool_calls s)
                      (yielded s))) ;;;
  if reset then initialize_for_run cfg self_task
  else append_log (LogEntry None (Some task) None None None None None None None None None None).

Definition run (stream reset : bool) (kwargs : list (string * value))
  : M (option (value * list value * list value)) :=
  start_run reset kwargs ;;;
  if stream then stream_run ;;; ret None
  else r <~ direct_run ;; ret (Some r).

End Run.

(** A fresh agent object. *)
Definition new_agent : agent := Agent [] ∅ [] [] [].

(** ** Data of the examples *)

(** The input of the specification's structured-call example. *)
Definition ex_labelled_call : string :=
  "Action: search" +:+ nl +:+ "Action input: {" +:+ quoted "query" +:+ ": "
    +:+ quoted "x" +:+ "}".

(** A block with the two keys the structured-call parser looks for. *)
Definition ex_json_call : string :=
  "{" +:+ quoted "action" +:+ ": " +:+ quoted "search" +:+ ", "
    +:+ quoted "action_input" +:+ ": {" +:+ quoted "query" +:+ ": " +:+ quoted "x" +:+ "}}".

(** A block with an [action] key only. *)
Definition ex_json_action_only : string :=
  "{" +:+ quoted "action" +:+ ": " +:+ quoted "search" +:+ "}".

(** The input of the specification's fenced-block example. *)
Definition ex_fenced : string :=
  "```py" +:+ nl +:+ "print(1)" +:+ nl +:+ "```".

(** No backtick occurs in the text. *)
Fixpoint no_backtick (s : string) : bool :=
  match s with
  | EmptyString => true
  | String c s' => negb (Ascii.eqb c "`") && no_backtick s'
  end.

(** [x] occurs in [s]. *)
Definition occurs_in (x s : string) : Prop := exists a b, s = a +:+ x +:+ b.

Definition is_tool_response (m : message) : bool :=
  match role m with TOOL_RESPONSE => true | _ => false end.

Definition is_system (m : message) : bool :=
  match role m with SYSTEM => true | _ => false end.

(** The entry has an [error] or an [observation] key. *)
Definition carries_output (e : log_entry) : bool :=
  match e_error e, e_observation e with
  | None, None => false
  | _, _ => true
  end.

(** A first log entry, as [initialize_for_run] writes it. *)
Definition ex_entry0 : log_entry :=
  LogEntry (Some "You are an agent. <<tool_descriptions>>") (Some "What is 2+2?")
    None None None None None None None None None None.

(** A step entry that carries both an observation and an error. *)
Definition ex_entry_both : log_entry :=
  set_error (Exn AgentExecutionError "boom")
    (set_observation (VStr "partial") (set_llm_output "Thought: go" empty_entry)).

(** The agent after one more recorded tool invocation. *)
Definition with_tool_call (s : agent) (name : string) (args : call_args) : agent :=
  Agent (logs s) (state s) (llm_calls s) (tool_calls s ++ [(name, args)]) (yielded s).

(** What [execute_tool_call] makes of the outcome of the tool. *)
Definition wrap_tool_outcome (tool : Tool) (r : res value) : res value :=
  match r with
  | Ok v => Ok v
  | Raise e => Raise (execution_error e tool)
  end.

(** A stored image, and the state that holds it under its name. *)
Definition ex_image : value := VObj AgentImage "<AgentImage>".
Definition ex_state : gmap string value := {[ "image.png" := ex_image ]}.

(** ** Reasoning about agent methods *)

(** [post m s Q]: run from [s], the method [m] ends with an outcome and
    an agent that satisfy [Q]. *)
Definition post {A} (m : M A) (s : agent) (Q : res A -> agent -> Prop) : Prop :=
  Q (fst (m s)) (snd (m s)).

(** The log is [front] followed by one entry, for which [P] holds. *)
Definition last_entry (front : list log_entry) (P : log_entry -> Prop) (s : agent) : Prop :=
  exists e, logs s = front ++ [e] /\ P e.

(** The entry has neither an error nor a final answer. *)
Definition open_entry (e : log_entry) : Prop :=
  e_error e = None /\ e_final_answer e = None.

Definition no_error (e : log_entry) : Prop := e_error e = None.

(** The entry of a step of the structured-call variant once the call is
    parsed: the memory, the model's output, the rationale and the tool
    call, and nothing else. *)
Definition parsed_entry (e : log_entry) : Prop :=
  exists mem out rat tc,
    e = set_tool_call tc
          (set_rationale rat (set_llm_output out (set_agent_memory mem empty_entry))).

Definition five_keys (e : log_entry) : Prop := List.length (entry_keys e) = 5%nat.

(** What a step hands to its caller is a dictionary of five keys. *)
Definition returns_five_keys (r : res step_return) : Prop :=
  match r with
  | Ok (RetDict e) => five_keys e
  | Ok (RetTuple _ _) => False
  | Raise _ => True
  end.

(** What the run loops rely on in a [step] method, started on the log
    [front]: when it returns, and when it raises an agent error, it has
    appended exactly one entry; that entry has no error, and no final
    answer either when the step raised. *)
Definition step_post (front : list log_entry) (r : res step_return) (s' : agent) : Prop :=
  match r with
  | Ok _ => last_entry front no_error s'
  | Raise e => is_agent_error e = true -> last_entry front open_entry s'
  end.

Definition step_contract (step : M step_return) : Prop :=
  forall s, post step s (step_post (logs s)).

(** The engine's own failures are no agent errors. *)
Definition engine_clean (cfg : Config) : Prop :=
  forall n msgs stop e, llm_engine cfg n msgs stop = Raise e -> is_agent_error e = false.

(** The iteration starts with a planning step. *)
Definition plans (interval : option Z) (iteration : Z) : bool :=
  match interval with
  | Some p => negb (p =? 0)%Z && (iteration mod p =? 0)%Z
  | None => false
  end.

(** The number of planning steps in the [k] iterations from
    [iteration] on. *)
Fixpoint planning_count (interval : option Z) (iteration : Z) (k : nat) : nat :=
  match k with
  | O => 0
  | S k' => (if plans interval iteration then 1 else 0)
            + planning_count interval (iteration + 1)%Z k'
  end.

(** The entry does not have both a final answer and an error. *)
Definition not_both (e : log_entry) : Prop :=
  e_final_answer e = None \/ e_error e = None.

(** The entries one iteration of [direct_run] adds, when it ends without
    an exception that leaves the loop: the planner's, when it runs, and
    the step's. *)
Definition iteration_post (cfg : Config) (iteration : Z) (s : agent)
    (r : res run_locals) (s' : agent) : Prop :=
  match r with
  | Ok _ =>
      exists new, logs s' = logs s ++ new
                  /\ List.length new
                     = (if plans (planning_interval cfg) iteration then 1 else 0) + 1
                  /\ Forall not_both new
  | Raise e => is_agent_error e = false
  end.

(** The planning step of the iteration raised the agent error [err],
    which the engine raised: the handler of [direct_run] wrote it into
    the last entry the log had, and nothing was appended. *)
Definition planning_failed (cfg : Config) (s s' : agent) : Prop :=
  exists front e err n msgs stop,
    llm_engine cfg n msgs stop = Raise err /\ is_agent_error err = true
    /\ logs s = front ++ [e] /\ logs s' = front ++ [set_error err e].

(** What one iteration of [direct_run] does to the log, whatever the
    engine, when no exception leaves the loop. *)
Definition iteration_outcome (cfg : Config) (iteration : Z) (s : agent)
    (r : res run_locals) (s' : agent) : Prop :=
  match r with
  | Ok _ =>
      iteration_post cfg iteration s r s'
      \/ (plans (planning_interval cfg) iteration = true /\ planning_failed cfg s s')
  | Raise e => is_agent_error e = false
  end.

(** ** Configurations of the examples *)

Definition ex_prompts : PlanningPrompts :=
  {| SYSTEM_PROMPT_FACTS := "List the facts.";
     SYSTEM_PROMPT_PLAN := "Make a plan.";
     USER_PROMPT_PLAN := fun task tools facts => "Plan for: " +:+ task;
     SYSTEM_PROMPT_FACTS_UPDATE := "Update the facts.";
     USER_PROMPT_FACTS_UPDATE := "Now update.";
     SYSTEM_PROMPT_PLAN_UPDATE := fun task => "Update the plan for: " +:+ task;
     USER_PROMPT_PLAN_UPDATE := fun task tools facts remaining => "Replan: " +:+ task;
     PLAN_UPDATE_FINAL_PLAN_REDACTION := fun task plan => "New plan: " +:+ plan |}.

(** A search tool that answers every call with the same text. *)
Definition ex_search_tool : Tool :=
  {| tool_name := "search";
     tool_describe := fun _ => "- search: looks a query up";
     tool_call := fun _ => Ok (VObj AgentText " 4 ") |}.

(** A tool that hands back the keyword argument [x] it was called
    with. *)
Definition ex_echo_tool : Tool :=
  {| tool_name := "echo";
     tool_describe := fun _ => "- echo: returns x";
     tool_call := fun args =>
                    match args with
                    | Keywords [("x", v)] => Ok v
                    | _ => Raise (Exn TypeError "echo() takes the keyword argument x")
                    end |}.

Definition ex_final_answer_tool : Tool :=
  {| tool_name := "final_answer";
     tool_describe := fun _ => "- final_answer: gives the answer";
     tool_call := fun args =>
                    match args with
                    | Positional v => Ok v
                    | Keywords [(_, v)] => Ok v
                    | _ => Raise (Exn TypeError "final_answer() takes one argument")
                    end |}.

Definition ex_toolbox : Toolbox :=
  [("search", ex_search_tool); ("echo", ex_echo_tool); ("final_answer", ex_final_answer_tool)].

(** An engine that plays a script: its [n]-th call returns the [n]-th
    item, and a call beyond the script fails. *)
Definition scripted (script : list (res string)) : LlmEngine :=
  fun n _ _ => nth n script (Raise (Exn OtherException "connection lost")).

Definition ex_config (script : list (res string)) (budget : Z) (interval : option Z)
    (parser : string -> res (value * value)) : Config :=
  {| toolbox := ex_toolbox;
     llm_engine := scripted script;
     system_prompt_template := "You are an agent. <<tool_descriptions>>";
     tool_description_template := "default";
     max_iterations := budget;
     planning_interval := interval;
     tool_parser := parser;
     authorized_imports := None;
     prompts := ex_prompts |}.

(** A model output that calls the search tool in the structured form. *)
Definition ex_output_search : string :=
  "Thought: look it up" +:+ nl +:+ "Action:" +:+ nl +:+ ex_json_call.

(** The agent a run of the example task starts its loop with. *)
Definition ex_started (cfg : Config) : agent :=
  snd (start_run cfg "What is 2+2?" true [] new_agent).

(** A structured-call agent with budget 1 whose model calls the search
    tool. *)
Definition ex_json_config : Config :=
  ex_config [Ok ex_output_search] 1 None (parse_json_tool_call Json.loads).

(** A structured-call agent with budget 2 whose parser always fails, and
    whose engine fails on the recovery call. *)
Definition ex_failing_parser : string -> res (value * value) :=
  fun _ => Raise (Exn ValueError "cannot parse").

Definition ex_stuck_config : Config :=
  ex_config [Ok "Action: a"; Ok "Action: b"] 2 None ex_failing_parser.

(** The same with an engine that answers the recovery call. *)
Definition ex_recovered_config : Config :=
  ex_config [Ok "Action: a"; Ok "Action: b"; Ok "4, I think"] 2 None ex_failing_parser.

(** A search agent with budget 1 that plans at every iteration. *)
Definition ex_planning_config : Config :=
  ex_config [Ok "facts"; Ok "plan"; Ok "Thought: look Search: 2+2"] 1 (Some 1%Z)
    (parse_json_tool_call Json.loads).

(** An engine that raises an agent error of its own at its first call. *)
Definition ex_planner_down_config : Config :=
  ex_config [Raise (Exn AgentGenerationError "overloaded")] 1 (Some 1%Z)
    (parse_json_tool_call Json.loads).

(** One iteration of its loop. *)
Definition ex_planner_down_loop : res (Z * run_locals) * agent :=
  direct_loop ex_planner_down_config
    (ReactCodeSearchAgent_step ex_planner_down_config ex_search_tool false)
    "What is 2+2?" false 1 0%Z (RunLocals VNone [] []) (ex_started ex_planner_down_config).

(** The state in which the loop of the stuck agent ends. *)
Definition ex_stuck_loop : res (Z * run_locals) * agent :=
  direct_loop ex_stuck_config (ReactJsonAgent_step ex_stuck_config) "What is 2+2?" false
    2 0%Z (RunLocals VNone [] []) (ex_started ex_stuck_config).

(** The prompt of the recovery call. *)
Definition recovery_prompt (task : string) (is_mistral : bool) (memory : list message)
  : list message :=
  [Message (if negb is_mistral then SYSTEM else USER) stuck_msg]
    ++ tl memory
    ++ [Message USER
          ("Based on the above, please provide an answer to the following user request:"
             +:+ nl +:+ task)].

(** What [provide_final_answer] returns for the outcome of the recovery
    call. *)
Definition recovered_answer (r : res string) : string :=
  match r with
  | Ok answer => answer
  | Raise e => "Error in generating final llm output: " +:+ exn_msg e +:+ "."
  end.

(** The memory the stuck agent builds for its recovery call. *)
Definition ex_stuck_memory : list message :=
  match write_inner_memory_from_logs (logs (snd ex_stuck_loop) ++ [max_iterations_entry])
          false false with
  | Ok memory => memory
  | Raise _ => []
  end.

(** The run of the structured-call agent whose model calls the search
    tool, in direct and in streaming mode. *)
Definition ex_json_direct : res (option (value * list value * list value)) * agent :=
  run ex_json_config (ReactJsonAgent_step ex_json_config) "What is 2+2?" false
    false true [] new_agent.

Definition ex_json_stream : res (option (value * list value * list value)) * agent :=
  run ex_json_config (ReactJsonAgent_step ex_json_config) "What is 2+2?" false
    true true [] new_agent.

(** The run of the agent whose parser always fails and whose engine
    answers the recovery call. *)
Definition ex_recovered_run : res (option (value * list value * list value)) * agent :=
  run ex_recovered_config (ReactJsonAgent_step ex_recovered_config) "What is 2+2?" false
    false true [] new_agent.

(** A model output that gives the stored image as the final answer. *)
Definition ex_output_final : string :=
  "Thought: done" +:+ nl +:+ "Action:" +:+ nl
    +:+ "{" +:+ quoted "action" +:+ ": " +:+ quoted "final_answer" +:+ ", "
    +:+ quoted "action_input" +:+ ": {" +:+ quoted "answer" +:+ ": "
    +:+ quoted "image.png" +:+ "}}".

Definition ex_final_config : Config :=
  ex_config [Ok ex_output_final] 1 None (parse_json_tool_call Json.loads).

(** An agent at the start of a step, with the image in its state. *)
Definition ex_final_agent : agent := Agent [ex_entry0] ex_state [] [] [].

(** An agent with the image in its state, and nothing else. *)
Definition ex_image_agent : agent := Agent [] ex_state [] [] [].

(** ** Runs that exhaust their budget *)

(** The prompt [initialize_for_run] has once the tags of the tools are
    filled. *)
Definition formatted_prompt (cfg : Config) : string :=
  format_prompt_with_tools (toolbox cfg) (system_prompt_template cfg)
    (tool_description_template cfg).

(** [initialize_for_run] does not raise: the variant has no authorized
    imports, or the prompt has their tag. *)
Definition prompt_ready (cfg : Config) : bool :=
  match authorized_imports cfg with
  | Some _ => contains "<<authorized_imports>>" (formatted_prompt cfg)
  | None => true
  end.

(** The system prompt [initialize_for_run] then stores. *)
Definition run_system_prompt (cfg : Config) : string :=
  match authorized_imports cfg with
  | Some imports => replace "<<authorized_imports>>" imports (formatted_prompt cfg)
  | None => formatted_prompt cfg
  end.

(** The memory builder can work on the agent's log: entry 0 holds the
    system prompt and the task. *)
Definition well_started (s : agent) : Prop :=
  exists e0 rest sp t,
    logs s = e0 :: rest /\ e_system_prompt e0 = Some sp /\ e_task e0 = Some t.

(** An entry of a step that gave no final answer: it has none, and its
    error, if any, is not the exhaustion error. *)
Definition regular_entry (e : log_entry) : Prop :=
  e_final_answer e = None
  /\ forall x, e_error e = Some x -> exn_class_of x <> AgentMaxIterationsError.

(** A step that fits the loop of [direct_run] and gives it no final
    answer: it calls the engine once and appends one entry without a
    final answer, and it either returns that entry with two more values
    or raises an agent error. *)
Definition fruitless_post (s : agent) (r : res step_return) (s' : agent) : Prop :=
  exists e msgs,
    logs s' = logs s ++ [e]
    /\ llm_calls s' = llm_calls s ++ [(msgs, step_stop_sequences)]
    /\ e_final_answer e = None /\ e_error e = None
    /\ ((exists ob sm, r = Ok (RetTuple e [ob; sm]))
        \/ (exists x, r = Raise x /\ is_agent_error x = true
                      /\ exn_class_of x <> AgentMaxIterationsError)).

Definition fruitless (step : M step_return) : Prop :=
  forall s, well_started s -> post step s (fruitless_post s).

(** No output of the engine makes the search variant record a final
    answer. *)
Definition never_final (cfg : Config) : Prop :=
  forall n msgs out,
    llm_engine cfg n msgs step_stop_sequences = Ok out ->
    split_search out = None -> contains "Final Answer:" out = false.

(** The parser refuses every action. *)
Definition parser_always_fails (cfg : Config) : Prop :=
  forall action, exists e, tool_parser cfg action = Raise e.

(** ** The rest of the engine *)

(** *** Toolbox management *)

(** [del d[k]] *)
Fixpoint dict_del {A} (k : string) (d : list (string * A)) : list (string * A) :=
  match d with
  | [] => []
  | (k', v) :: r => if String.eqb k k' then r else (k', v) :: dict_del k r
  end.

(** [Toolbox.__init__] on a list of [Tool] instances, without the base
    tools: the dictionary [{tool.name: tool for tool in tools}]. *)
Definition Toolbox_init (tools : list Tool) : Toolbox :=
  fold_left (fun d tool => PyVal.dict_set (tool_name tool) tool d) tools [].

Definition missing_tool_msg (action name : string) (tb : Toolbox) : string :=
  "Error: tool " +:+ name +:+ " not found in toolbox for " +:+ action
    +:+ ", should be instead one of " +:+ PyVal.repr_str_list (PyVal.dict_keys tb) +:+ ".".

Definition remove_tool (tb : Toolbox) (name : string) : res Toolbox :=
  if negb (PyVal.dict_mem name tb)
  then Raise (Exn KeyError (PyVal.repr_str (missing_tool_msg "removal" name tb)))
  else Ok (dict_del name tb).

Definition update_tool (tb : Toolbox) (tool : Tool) : res Toolbox :=
  if negb (PyVal.dict_mem (tool_name tool) tb)
  then Raise (Exn KeyError (PyVal.repr_str (missing_tool_msg "update" (tool_name tool) tb)))
  else Ok (PyVal.dict_set (tool_name tool) tool tb).

Definition clear_toolbox (tb : Toolbox) : Toolbox := [].

(** The toolbox [Agent.__init__] builds from a list of tools: the tools,
    then the final-answer tool. *)
Definition Agent_toolbox (tools : list Tool) (FinalAnswerTool : Tool) : res Toolbox :=
  add_tool (Toolbox_init tools) FinalAnswerTool.

(** Every key is the name of the tool stored under it, and no key occurs
    twice. *)
Definition toolbox_ok (tb : Toolbox) : Prop :=
  Forall (fun nt => fst nt = tool_name (snd nt)) tb /\ List.NoDup (PyVal.dict_keys tb).

(** The text that takes the place of the tag of the names: the names of
    the toolbox, each between quotes, separated by commas. *)
Definition tool_names_text (tb : Toolbox) : string :=
  join ", " (map (fun n => "'" +:+ n +:+ "'") (PyVal.dict_keys tb)).

(** *** Succinct logs *)

Definition without_agent_memory (e : log_entry) : log_entry :=
  LogEntry (e_system_prompt e) (e_task e) (e_plan e) (e_facts e) None
    (e_llm_output e) (e_rationale e) (e_summarization e) (e_tool_call e)
    (e_observation e) (e_final_answer e) (e_error e).

(** [Agent.get_succinct_logs] *)
Definition get_succinct_logs (lg : list log_entry) : list log_entry :=
  map without_agent_memory lg.

(** *** The one-shot code agent *)

Section CodeAgent.

Variable cfg : Config.

(** The evaluator, with the tools of the toolbox at hand and the
    authorized imports: what it makes of a code and the state, and the
    state it leaves, also when it raises.  The calls it makes of the
    tools are not recorded. *)
Variable python_evaluator :
  string -> gmap string value -> res value * gmap string value.

(** [self.system_prompt], which [initialize_for_run] has just stored in
    entry 0 of the log. *)
Definition self_system_prompt : M string :=
  fun s =>
    match logs s with
    | entry0 :: _ =>
        match e_system_prompt entry0 with
        | Some sp => (Ok sp, s)
        | None => (key_error "system_prompt", s)
        end
    | [] => (Raise (Exn IndexError "list index out of range"), s)
    end.

(** [CodeAgent.run(task, return_generated_code, is_mistral, **kwargs)] *)
Definition CodeAgent_run (task : string) (return_generated_code is_mistral : bool)
    (kwargs : list (string * value)) : M value :=
  let self_task :=
    if 0 <? List.length kwargs
    then task +:+ nl +:+ "You have been provided with these initial arguments: "
           +:+ PyVal.repr (VDict kwargs) +:+ "."
    else task in
  (fun s => (Ok tt, Agent (logs s) (list_to_map kwargs) (llm_calls s) (tool_calls s)
                      (yielded s))) ;;;
  initialize_for_run cfg self_task ;;;
  system_prompt <~ self_system_prompt ;;
  let prompt_message := Message (if negb is_mistral then SYSTEM else USER) system_prompt in
  let task_message := Message USER ("Task: " +:+ self_task) in
  llm_output <~ call_llm (llm_engine cfg) [prompt_message; task_message]
                  (Some ["<end_action>"]) ;;
  if return_generated_code then ret (VStr llm_output)
  else
    let code_action :=
      match extract_action llm_output "Code:" with
      | Ok ra => snd ra
      | Raise _ => llm_output
      end in
    match parse_code_blob code_action with
    | Raise e =>
        ret (VStr ("Error in code parsing: " +:+ exn_msg e
                     +:+ ". Be sure to provide correct code"))
    | Ok code_action =>
        catch
          (output <~ run_evaluator python_evaluator code_action ;;
           st <~ get_state ;;
           lift (match st !! "print_outputs" with
                 | Some _ => Ok tt
                 | None => key_error "print_outputs"
                 end) ;;;
           ret output)
          (fun e => ret (VStr ("Error in execution: " +:+ exn_msg e
                                 +:+ ". Be sure to provide correct code.")))
    end.

End CodeAgent.

(** [self.task] once [run] has added the keyword arguments to it. *)
Definition task_with_arguments (task : string) (kwargs : list (string * value)) : string :=
  if 0 <? List.length kwargs
  then task +:+ nl +:+ "You have been provided with these initial arguments: "
         +:+ PyVal.repr (VDict kwargs) +:+ "."
  else task.

(** The prompt of the one call [CodeAgent.run] makes. *)
Definition CodeAgent_prompt (cfg : Config) (is_mistral : bool) (task : string)
    (kwargs : list (string * value)) : list message :=
  [Message (if negb is_mistral then SYSTEM else USER) (run_system_prompt cfg);
   Message USER ("Task: " +:+ task_with_arguments task kwargs)].

(** The text [CodeAgent.run] takes for the code: what follows the last
    [Code:], or the whole output when the marker is missing. *)
Definition code_action_of (llm_output : string) : string :=
  match extract_action llm_output "Code:" with
  | Ok ra => snd ra
  | Raise _ => llm_output
  end.

(** The text [CodeAgent.run] returns when the evaluation failed. *)
Definition execution_error_text (e : exn) : value :=
  VStr ("Error in execution: " +:+ exn_msg e +:+ ". Be sure to provide correct code.").

(** *** The search wrapper and the search tool *)

Module Tavily.

(** The exceptions of the search code, with the arguments [repr] shows:
    the ones the code itself can raise on a result, and [External] for
    one that comes from the HTTP layer or from the validation of the
    wrapper, given by its [repr]. *)
Inductive failure :=
| KeyErr (key : string)
| AttributeErr (msg : string)
| TypeErr (msg : string)
| AssertionErr
| External (repr : string).

(** [repr(e)] *)
Definition repr_failure (f : failure) : string :=
  match f with
  | KeyErr k => "KeyError(" +:+ PyVal.repr_str k +:+ ")"
  | AttributeErr m => "AttributeError(" +:+ PyVal.repr_str m +:+ ")"
  | TypeErr m => "TypeError(" +:+ PyVal.repr_str m +:+ ")"
  | AssertionErr => "AssertionError()"
  | External r => r
  end.

Inductive outcome (A : Type) :=
| Done (a : A)
| Failed (f : failure).
Arguments Done {A} a.
Arguments Failed {A} f.

Definition then_ {A B} (m : outcome A) (k : A -> outcome B) : outcome B :=
  match m with
  | Done a => k a
  | Failed f => Failed f
  end.

Notation "x <-- m ;; k" := (then_ m (fun x => k))
  (at level 62, m at next level, right associativity).

(** One result of the search API: a JSON object. *)
Definition result := list (string * value).

(** [s.endswith(suffix)] *)
Definition endswith (suffix s : string) : bool :=
  (String.length suffix <=? String.length s)
  && String.eqb (drop (String.length s - String.length suffix) s) suffix.

(** [s.ljust(width, fill)] *)
Definition ljust (width : nat) (fill : ascii) (s : string) : string :=
  s +:+ string_of_list_ascii (repeat fill (width - String.length s)).

(** [l[:b]] on a list *)
Definition list_slice_to {A} (b : Z) (l : list A) : list A :=
  firstn (slice_bound (Z.of_nat (List.length l)) b) l.

(** [len(v)] *)
Definition len (v : value) : outcome Z :=
  match v with
  | VStr s | VObj AgentText s => Done (Z.of_nat (String.length s))
  | VList l => Done (Z.of_nat (List.length l))
  | VDict d => Done (Z.of_nat (List.length d))
  | _ => Failed (TypeErr ("object of type '" +:+ type_name v +:+ "' has no len()"))
  end.

(** [v[:limit]]; a dictionary refuses the slice as a key (Python before
    3.12). *)
Definition slice_to (limit : Z) (v : value) : outcome value :=
  match v with
  | VStr s | VObj AgentText s => Done (VStr (slice 0 limit s))
  | VList l => Done (VList (list_slice_to limit l))
  | VDict _ => Failed (TypeErr "unhashable type: 'slice'")
  | _ => Failed (TypeErr ("'" +:+ type_name v +:+ "' object is not subscriptable"))
  end.

(** The four lines the two cleaning methods repeat for a text:
    [if len(t) > limit: t = t[:limit]] and [assert len(t) <= limit]. *)
Definition truncated (limit : Z) (text : value) : outcome value :=
  n <-- len text ;;
  text' <-- (if (n >? limit)%Z then slice_to limit text else Done text) ;;
  n' <-- len text' ;;
  if (n' <=? limit)%Z then Done text' else Failed AssertionErr.

(** [result[k]] *)
Definition item (k : string) (r : result) : outcome value :=
  match PyVal.dict_get k r with
  | Some v => Done v
  | None => Failed (KeyErr k)
  end.

(** [result["url"].endswith('.pdf')] *)
Definition url_is_pdf (r : result) : outcome bool :=
  url <-- item "url" r ;;
  match PyVal.as_str url with
  | Some s => Done (endswith ".pdf" s)
  | None => Failed (AttributeErr ("'" +:+ type_name url
                                    +:+ "' object has no attribute 'endswith'"))
  end.

(** [TavilySearchAPIWrapper.clean_results]; [limit] is
    [self.context_str_limit]. *)
Fixpoint clean_results (limit : Z) (results : list result) : outcome (list result) :=
  match results with
  | [] => Done []
  | r :: rest =>
      pdf <-- url_is_pdf r ;;
      if pdf then clean_results limit rest
      else
        raw <-- item "raw_content" r ;;
        cleaned <--
          (if negb (is_None raw) then
             raw_content <-- truncated limit raw ;;
             title <-- item "title" r ;;
             url <-- item "url" r ;;
             Done [("title", title); ("url", url); ("raw_content", raw_content)]
           else
             content <-- item "content" r ;;
             content <-- truncated limit content ;;
             title <-- item "title" r ;;
             url <-- item "url" r ;;
             Done [("title", title); ("url", url); ("content", content)]) ;;
        truncated_results <-- clean_results limit rest ;;
        Done (cleaned :: truncated_results)
  end.

(** [TavilySearchAPIWrapper.clean_results_content_only] *)
Fixpoint clean_results_content_only (limit : Z) (results : list result)
  : outcome (list result) :=
  match results with
  | [] => Done []
  | r :: rest =>
      pdf <-- url_is_pdf r ;;
      if pdf then clean_results_content_only limit rest
      else
        raw <-- item "raw_content" r ;;
        cleaned <--
          (if negb (is_None raw) then
             raw_content <-- truncated limit raw ;;
             Done [("raw_content", raw_content)]
           else
             content <-- item "content" r ;;
             content <-- truncated limit content ;;
             Done [("content", content)]) ;;
        truncated_results <-- clean_results_content_only limit rest ;;
        Done (cleaned :: truncated_results)
  end.

(** [TavilySearchHuggingfaceTool.truncate_context]: the items are
    updated in place, and the list is handed back. *)
Definition truncate_item (max_length : Z) (it : result) : outcome result :=
  match PyVal.dict_get "content" it with
  | Some context =>
      n <-- len context ;;
      if (n >? max_length)%Z
      then context' <-- slice_to max_length context ;;
           Done (PyVal.dict_set "content" context' it)
      else Done it
  | None => Done it
  end.

Fixpoint truncate_context (data : list result) (max_length : Z) : outcome (list result) :=
  match data with
  | [] => Done []
  | it :: rest =>
      it' <-- truncate_item max_length it ;;
      rest' <-- truncate_context rest max_length ;;
      Done (it' :: rest')
  end.

Section Wrapper.

(** [TavilySearchAPIWrapper()]: the validation of the environment (the
    API key) passes or fails; the wrapper it builds has the default
    [context_str_limit] of the class. *)
Variable new_wrapper : outcome unit.

Definition default_context_str_limit : Z := 800.

(** The HTTP call of [raw_results] for a query, [max_results] and
    [search_depth], the other parameters being left at their defaults:
    the [results] entry of the decoded response, [None] when the
    response has none, or the failure of the call. *)
Variable post_search : string -> Z -> string -> outcome (option (list result)).

Definition raw_results (query : string) (max_results : Z) (search_depth : string)
  : outcome (option (list result)) :=
  let query := ljust 5 " " query in
  post_search query max_results search_depth.

(** [raw_search_results["results"]] *)
Definition results_of (raw : option (list result)) : outcome (list result) :=
  match raw with
  | Some rs => Done rs
  | None => Failed (KeyErr "results")
  end.

Definition results (limit : Z) (query : string) (max_results : Z) (search_depth : string)
  : outcome (list result) :=
  let query := ljust 5 " " query in
  raw_search_results <-- raw_results query max_results search_depth ;;
  rs <-- results_of raw_search_results ;;
  clean_results limit rs.

Definition results_content_only (limit : Z) (query : string) (max_results : Z)
    (search_depth : string) : outcome (list result) :=
  let query := ljust 5 " " query in
  raw_search_results <-- raw_results query max_results search_depth ;;
  rs <-- results_of raw_search_results ;;
  clean_results_content_only limit rs.

(** The class attributes of [TavilySearchHuggingfaceTool]. *)
Definition max_results : Z := 5.
Definition search_depth : string := "basic".
Definition context_str_limit : Z := 5000.

(** [TavilySearchHuggingfaceTool.forward] *)
Definition forward (query : string) : value :=
  match (_ <-- new_wrapper ;;
         let query := ljust 5 "?" query in
         rs <-- results_content_only default_context_str_limit query
                  max_results search_depth ;;
         truncate_context rs context_str_limit) with
  | Done truncated_results => VList (map VDict truncated_results)
  | Failed e => VStr (repr_failure e)
  end.

End Wrapper.

(** The text of an item a cleaning method built: its last entry. *)
Definition text_of (it : result) : option value :=
  match List.rev it with
  | (_, v) :: _ => Some v
  | [] => None
  end.

(** The item keeps its text within the limit. *)
Definition within (limit : Z) (it : result) : Prop :=
  exists v n, text_of it = Some v /\ len v = Done n /\ (n <= limit)%Z.

(** What [clean_results_content_only] keeps of an item of
    [clean_results]: the entry of the text. *)
Definition content_only (it : result) : result :=
  match List.rev it with
  | kv :: _ => [kv]
  | [] => []
  end.

(** The result is not skipped as a PDF. *)
Definition kept (r : result) : bool :=
  match url_is_pdf r with
  | Done pdf => negb pdf
  | Failed _ => false
  end.

(** The keys of an item of [clean_results], in their order. *)
Definition cleaned_keys (it : result) : Prop :=
  map fst it = ["title"; "url"; "raw_content"] \/ map fst it = ["title"; "url"; "content"].

(** The [content] of the item, if it has one, has a length within
    [max_length]. *)
Definition content_within (max_length : Z) (it : result) : Prop :=
  forall v, PyVal.dict_get "content" it = Some v ->
            exists n, len v = Done n /\ (n <= max_length)%Z.

End Tavily.

(** *** What the steps hand to the loops *)

(** The step returned a tuple of [n] values. *)
Definition returns_tuple (n : nat) (r : res step_return) : Prop :=
  match r with
  | Ok (RetTuple _ rest) => S (List.length rest) = n
  | Ok (RetDict _) => False
  | Raise _ => True
  end.

(** *** The lists a run returns *)

(** [current_step_logs["summarization"]] when the entry has one, the
    empty text otherwise. *)
Definition summarization_or_empty (e : log_entry) : value :=
  match e_summarization e with Some sm => VStr sm | None => VStr "" end.

(** What a step whose return fits [direct_run] leaves, started on the
    log [front]: when it returns, the entry it appended, which has no
    error, with the observation and the summarization the entry records
    (the empty text for one it lacks); when it raises an agent error,
    one entry without error or final answer. *)
Definition recorded_post (front : list log_entry) (r : res step_return) (s' : agent) : Prop :=
  match r with
  | Ok ret =>
      exists e, logs s' = front ++ [e] /\ e_error e = None
                /\ ret = RetTuple e [observation_or_empty e; summarization_or_empty e]
  | Raise x => is_agent_error x = true -> last_entry front open_entry s'
  end.

Definition step_records (step : M step_return) : Prop :=
  forall s, post step s (recorded_post (logs s)).

(** The entry is that of a step that returned: it has no error. *)
Definition returned (e : log_entry) : bool :=
  match e_error e with None => true | Some _ => false end.

(** *** Data of the further examples *)

(** A model output of the code variants: a fenced block that calls
    [final_answer]. *)
Definition ex_code_output : string :=
  "Thought: compute" +:+ nl +:+ "Code:" +:+ nl +:+ "```py" +:+ nl
    +:+ "final_answer(2 + 2)" +:+ nl +:+ "```".

(** An evaluator that gives 4 for every code and prints nothing. *)
Definition ex_evaluator : string -> gmap string value -> res value * gmap string value :=
  fun _ st => (Ok (VInt 4), <["print_outputs" := VStr ""]> st).

Definition ex_code_config : Config :=
  ex_config [Ok ex_code_output] 1 None ex_failing_parser.

(** A model output that calls the echo tool on the name of the stored
    image. *)
Definition ex_echo_output : string :=
  "Thought: show it" +:+ nl +:+ "Action:" +:+ nl
    +:+ "{" +:+ quoted "action" +:+ ": " +:+ quoted "echo" +:+ ", "
    +:+ quoted "action_input" +:+ ": {" +:+ quoted "x" +:+ ": "
    +:+ quoted "image.png" +:+ "}}".

Definition ex_echo_config : Config :=
  ex_config [Ok ex_echo_output] 1 None (parse_json_tool_call Json.loads).

(** Outputs of the search variant: a search, and a final answer. *)
Definition ex_search_output : string :=
  "Summarization: none Thought: look it up Search: 2+2 Observation: made up".

Definition ex_answer_output : string := "Thought: done Final Answer: 4".

Definition ex_searching_config : Config :=
  ex_config [Ok ex_search_output; Ok ex_search_output] 2 None ex_failing_parser.

Definition ex_answer_config : Config :=
  ex_config [Ok ex_answer_output] 3 None ex_failing_parser.

(** The configuration of a code or search variant: the imports it
    authorizes, and their tag in the template of the prompt. *)
Definition ex_variant_config (script : list (res string)) (budget : Z) (interval : option Z)
  : Config :=
  {| toolbox := ex_toolbox;
     llm_engine := scripted script;
     system_prompt_template :=
       "You are an agent. <<tool_descriptions>> You may import <<authorized_imports>>.";
     tool_description_template := "default";
     max_iterations := budget;
     planning_interval := interval;
     tool_parser := ex_failing_parser;
     authorized_imports := Some "['math', 're']";
     prompts := ex_prompts |}.

(** A search agent whose model answers at once. *)
Definition ex_answering_config : Config := ex_variant_config [Ok ex_answer_output] 3 None.

(** A search agent with budget 2 whose model searches twice. *)
Definition ex_exhausting_config : Config :=
  ex_variant_config [Ok ex_search_output; Ok ex_search_output] 2 None.

(** A search agent with budget 2 whose engine answers the first step and
    is down from then on. *)
Definition ex_interrupted_config : Config := ex_variant_config [Ok ex_search_output] 2 None.

(** An engine that is down. *)
Definition ex_down_config : Config :=
  ex_config [] 1 None ex_failing_parser.

(** *** What a streaming run yields *)

(** What [stream_run] relies on in a step, started on a log from which
    the memory can be built: the step yields nothing itself and appends
    one entry; when it returns, the entry has no error and comes back
    with the observation it records; when it raises an agent error, the
    entry has neither an error nor a final answer. *)
Definition streamed_post (s : agent) (r : res step_return) (s' : agent) : Prop :=
  yielded s' = yielded s
  /\ exists e,
       logs s' = logs s ++ [e]
       /\ match r with
          | Ok ret => e_error e = None /\ ret = RetTuple e [observation_or_empty e]
          | Raise x => is_agent_error x = true -> open_entry e
          end.

Definition step_streams (step : M step_return) : Prop :=
  forall s, well_started s -> post step s (streamed_post s).

(** An entry a streaming run yields for a step that did not end the run
    with an exception: if it has an error, it is an agent error, and the
    entry has no final answer. *)
Definition streamed_entry (e : log_entry) : Prop :=
  forall x, e_error e = Some x -> is_agent_error x = true /\ e_final_answer e = None.

(** How a streaming run that ends came to its final answer: the last
    step recorded it; or the budget is spent, and it is the text of the
    recovery written into the entry of the exhaustion error, which is
    [tail]; or the budget is negative and there is none. *)
Definition stream_end (cfg : Config) (steps tail : list log_entry) (fa : value) : Prop :=
  (tail = [] /\ exists front e, steps = front ++ [e] /\ e_final_answer e = Some fa
                                /\ is_None fa = false)
  \/ (tail = [set_final_answer fa max_iterations_entry]
      /\ List.length steps = Z.to_nat (max_iterations cfg)
      /\ (0 <= max_iterations cfg)%Z /\ exists answer, fa = VStr answer)
  \/ (tail = [] /\ steps = [] /\ fa = VNone /\ (max_iterations cfg < 0)%Z).

(** What a streaming run has done when it is over.  It has appended one
    entry for each step, [steps], and yielded each of them once, in
    their order.  When it ends, it has then appended and yielded the
    entry of the exhaustion error if the budget was spent, and yielded
    last the pair of the final answer and the observations, which are
    those of the entries without error.  When an exception ends it,
    which is no agent error, the entry of the step that raised it is
    the last one yielded. *)
Definition stream_post (cfg : Config) (s : agent) (r : res unit) (s' : agent) : Prop :=
  exists steps,
    (Z.of_nat (List.length steps) <= Z.max 0 (max_iterations cfg))%Z
    /\ match r with
       | Ok _ =>
           exists tail fa,
             logs s' = logs s ++ steps ++ tail
             /\ yielded s'
                = yielded s ++ map YEntry (steps ++ tail)
                    ++ [YFinal fa (map observation_or_empty (List.filter returned steps))]
             /\ Forall streamed_entry steps
             /\ stream_end cfg steps tail fa
       | Raise x =>
           is_agent_error x = false
           /\ steps <> []
           /\ logs s' = logs s ++ steps
           /\ yielded s' = yielded s ++ map YEntry steps
       end.

(** The log has one entry more than that of [s], for which [P] holds,
    and nothing more was yielded. *)
Definition entry_kept (P : log_entry -> Prop) (s s1 : agent) : Prop :=
  yielded s1 = yielded s /\ last_entry (logs s) P s1.

(** What one iteration of [stream_run] does: it appends one entry and
    yields it. *)
Definition streamed_iteration (loc : run_locals) (s : agent) (r : res run_locals)
    (s' : agent) : Prop :=
  exists e,
    logs s' = logs s ++ [e] /\ yielded s' = yielded s ++ [YEntry e]
    /\ match r with
       | Ok loc' =>
           streamed_entry e
           /\ step_observation_logs loc'
              = step_observation_logs loc
                  ++ map observation_or_empty (List.filter returned [e])
           /\ (final_answer loc' = final_answer loc
               \/ e_final_answer e = Some (final_answer loc'))
       | Raise x => is_agent_error x = false
       end.

(** A code agent with budget 2 whose model hands in code at the second
    step, the first call of the engine having failed. *)
Definition ex_streaming_config : Config :=
  ex_variant_config [Raise (Exn OtherException "timeout"); Ok ex_code_output] 2 None.

(** *** Runs of the examples *)

(** The interrupted search agent, run in direct mode from the log a run
    starts with. *)
Definition ex_interrupted_run : res (value * list value * list value) * agent :=
  direct_run ex_interrupted_config
    (ReactCodeSearchAgent_step ex_interrupted_config ex_search_tool false)
    "What is 2+2?" false (ex_started ex_interrupted_config).

(** * Properties *)

(** ** Strings *)

Lemma append_cons (c : ascii) (a b : string) : String c a +:+ b = String c (a +:+ b).
Proof. reflexivity. Qed.

Lemma append_nil_l (b : string) : "" +:+ b = b.
Proof. reflexivity. Qed.

Lemma append_assoc_s (a b c : string) : (a +:+ b) +:+ c = a +:+ (b +:+ c).
Proof.
  induction a as [|x a IH]; [reflexivity |].
  rewrite !append_cons. f_equal. exact IH.
Qed.

Lemma append_nil_r (a : string) : a +:+ "" = a.
Proof.
  induction a as [|x a IH]; [reflexivity |].
  rewrite append_cons. f_equal. exact IH.
Qed.

Lemma startswith_app (p s : string) : startswith p (p +:+ s) = true.
Proof.
  induction p as [|c p IH]; [reflexivity |].
  rewrite append_cons. simpl. now rewrite Ascii.eqb_refl.
Qed.

Lemma startswith_take (p : string) : forall n s,
  startswith p (take n s) = true -> startswith p s = true.
Proof.
  induction p as [|c p IH]; intros n s H; [reflexivity |].
  destruct n as [|n], s as [|d s]; simpl in *; try discriminate.
  destruct (Ascii.eqb c d); [eauto | discriminate].
Qed.

Lemma take_app_length (a b : string) : take (String.length a) (a +:+ b) = a.
Proof.
  induction a as [|c a IH]; [now destruct b |].
  rewrite append_cons. simpl. f_equal. exact IH.
Qed.

Lemma find_empty (sep : string) : sep <> "" -> find sep "" = None.
Proof. destruct sep; [congruence | reflexivity]. Qed.

(** No occurrence: [split] returns the text as its only field. *)
Lemma split_no_occurrence (sep : string) : forall s,
  find sep s = None -> split sep s = [s].
Proof.
  unfold split. induction s as [|c s IH]; intros H; [reflexivity |].
  simpl in *. destruct (startswith sep (String c s)) eqn:E; [discriminate |].
  destruct (find sep s); [discriminate |].
  specialize (IH eq_refl). destruct (split_go sep 0 s) as [f r].
  now inversion IH.
Qed.

(** The first field of [split] is the text before the first occurrence. *)
Lemma split_first_field (sep : string) : sep <> "" -> forall s n,
  find sep s = Some n -> hd "" (split sep s) = take n s.
Proof.
  intros Hsep. unfold split. induction s as [|c s IH]; intros n H.
  - rewrite find_empty in H by assumption. discriminate.
  - simpl in H. simpl split_go.
    destruct (startswith sep (String c s)) eqn:E.
    + injection H as <-. reflexivity.
    + destruct (find sep s) as [m|] eqn:F; [|discriminate].
      injection H as <-. specialize (IH m eq_refl).
      destruct (split_go sep 0 s) as [f r]. simpl in *. now rewrite IH.
Qed.

(** Nothing occurs before the first occurrence. *)
Lemma find_take_none (sep : string) : sep <> "" -> forall s n,
  find sep s = Some n -> find sep (take n s) = None.
Proof.
  intros Hsep. induction s as [|c s IH]; intros n H.
  - rewrite find_empty in H by assumption. discriminate.
  - simpl in H. destruct (startswith sep (String c s)) eqn:E.
    + injection H as <-. simpl. now apply find_empty.
    + destruct (find sep s) as [m|] eqn:F; [|discriminate].
      injection H as <-. simpl take. simpl find.
      destruct (startswith sep (String c (take m s))) eqn:E'.
      * apply (startswith_take sep (S m) (String c s)) in E'. congruence.
      * now rewrite (IH m eq_refl).
Qed.

Lemma find_cons (sub : string) (c : ascii) (s : string) :
  find sub (String c s)
  = if startswith sub (String c s) then Some 0 else option_map S (find sub s).
Proof. reflexivity. Qed.

Lemma contains_find (sep s : string) :
  contains sep s = match find sep s with Some _ => true | None => false end.
Proof. reflexivity. Qed.

(** An occurrence gives [split] at least two fields. *)
Lemma split_occurrence (sep : string) : sep <> "" -> forall s n,
  find sep s = Some n -> exists f g r, split sep s = f :: g :: r.
Proof.
  intros Hsep. unfold split. induction s as [|c s IH]; intros n H.
  - rewrite find_empty in H by assumption. discriminate.
  - simpl in H. simpl split_go.
    destruct (startswith sep (String c s)) eqn:E.
    + destruct (split_go sep (String.length sep - 1) s) as [f r]. eauto.
    + destruct (find sep s) as [m|] eqn:F; [|discriminate].
      destruct (IH m eq_refl) as (f & g & r & Hs).
      destruct (split_go sep 0 s) as [f' r']. inversion Hs; subst. eauto.
Qed.

(** ** The free-text parser *)

Lemma parse_text_discards_observation (json_loads : string -> json_result)
    (text : string) (n : nat) :
  find "Observation:" text = Some n ->
  parse_text_tool_call json_loads text = parse_text_tool_call json_loads (take n text).
Proof.
  intros H. unfold parse_text_tool_call.
  rewrite !contains_find, H.
  rewrite (find_take_none "Observation:") with (s := text) (n := n) by (assumption || discriminate).
  now rewrite (split_first_field "Observation:") with (n := n) by (assumption || discriminate).
Qed.

(** The text [parse_text_tool_call] splits on [Action input:], when no
    [Observation:] marker is there: the second field around [Action:]
    when that marker occurs, the whole text otherwise. *)
Lemma parse_text_remainder (json_loads : string -> json_result) (text : string) :
  contains "Observation:" text = false ->
  parse_text_tool_call json_loads text =
  reraise
    (match split "Action input:"
             (if contains "Action:" text then nth 1 (split "Action:" text) "" else text) with
     | [tool_name; tool_input] =>
         tool_input <- (if contains "{" tool_input
                        then parse_json_blob json_loads tool_input
                        else Ok (VStr (replace dq "" (strip tool_input)))) ;;
         Ok (replace "\" "" (replace dq "" (strip tool_name)), tool_input)
     | l => Raise (unpack_error 2 (List.length l))
     end)
    text_tool_call_error.
Proof.
  intros Hobs. unfold parse_text_tool_call. rewrite Hobs.
  destruct (contains "Action:" text) eqn:Hact; [|reflexivity].
  rewrite contains_find in Hact.
  destruct (find "Action:" text) as [n|] eqn:F; [|discriminate].
  destruct (split_occurrence "Action:" ltac:(discriminate) text n F) as (f & g & r & ->).
  reflexivity.
Qed.

(** C9: the free-text parser drops the text from the first
    [Observation:] marker on; it splits on [Action:] and keeps the text
    after that marker (up to a second one), or the whole text when the
    marker is not there; what is left is split on [Action input:] into
    the tool name, stripped and freed of quotes and backslashes, and the
    input, which is decoded as a structured block when it has an opening
    brace and is a literal string otherwise; when [Action input:], the
    marker the parser requires, is missing, or is there more than once,
    the parser raises its diagnostic. *)
Theorem C9_free_text_parser (json_loads : string -> json_result) (text : string) :
  (forall n, find "Observation:" text = Some n ->
     parse_text_tool_call json_loads text = parse_text_tool_call json_loads (take n text))
  /\ (contains "Observation:" text = false ->
      forall remainder,
        remainder = (if contains "Action:" text
                     then nth 1 (split "Action:" text) "" else text) ->
        (forall name input, split "Action input:" remainder = [name; input] ->
           parse_text_tool_call json_loads text =
           reraise
             (tool_input <- (if contains "{" input
                             then parse_json_blob json_loads input
                             else Ok (VStr (replace dq "" (strip input)))) ;;
              Ok (replace "\" "" (replace dq "" (strip name)), tool_input))
             text_tool_call_error)
        /\ (List.length (split "Action input:" remainder) <> 2 ->
            exists e, parse_text_tool_call json_loads text = Raise (text_tool_call_error e))
        /\ (contains "Action input:" remainder = false ->
            exists e, parse_text_tool_call json_loads text = Raise (text_tool_call_error e))).
Proof.
  split; [intros n; apply parse_text_discards_observation |].
  intros Hobs remainder ->.
  rewrite (parse_text_remainder json_loads text Hobs).
  set (rem := if contains "Action:" text then nth 1 (split "Action:" text) "" else text).
  assert (Hlen : List.length (split "Action input:" rem) <> 2 ->
                 exists e, reraise
                   (match split "Action input:" rem with
                    | [tool_name; tool_input] =>
                        tool_input <- (if contains "{" tool_input
                                       then parse_json_blob json_loads tool_input
                                       else Ok (VStr (replace dq "" (strip tool_input)))) ;;
                        Ok (replace "\" "" (replace dq "" (strip tool_name)), tool_input)
                    | l => Raise (unpack_error 2 (List.length l))
                    end) text_tool_call_error = Raise (text_tool_call_error e)).
  { intros Hl. destruct (split "Action input:" rem) as [|a [|b [|c l]]]; simpl in *;
      try (eexists; reflexivity). congruence. }
  split; [|split].
  - intros name input ->. reflexivity.
  - exact Hlen.
  - intros Hno. apply Hlen. rewrite contains_find in Hno.
    destruct (find "Action input:" rem) eqn:F; [discriminate |].
    now rewrite (split_no_occurrence _ _ F).
Qed.

(** A text without the [Action:] marker is parsed all the same: the
    parser does not require that marker. *)
Example action_marker_optional :
  contains "Action:" "search Action input: x" = false
  /\ parse_text_tool_call Json.loads "search Action input: x" = Ok ("search", VStr "x").
Proof. split; vm_compute; reflexivity. Qed.

Lemma C9_free_text_parser_witness :
  parse_text_tool_call Json.loads ("Action: search Action input: x Observation: y")
  = parse_text_tool_call Json.loads "Action: search Action input: x "
  /\ parse_text_tool_call Json.loads ex_labelled_call
     = Ok ("search", VDict [("query", VStr "x")])
  /\ (exists e, parse_text_tool_call Json.loads "Action: search x"
                = Raise (text_tool_call_error e)).
Proof.
  split; [|split].
  - apply (proj1 (C9_free_text_parser Json.loads
                    "Action: search Action input: x Observation: y") 31).
    vm_compute; reflexivity.
  - destruct (proj2 (C9_free_text_parser Json.loads ex_labelled_call)
                ltac:(vm_compute; reflexivity) _ eq_refl) as (H & _).
    rewrite (H (" search" +:+ nl) (" {" +:+ quoted "query" +:+ ": " +:+ quoted "x" +:+ "}"))
      by (vm_compute; reflexivity).
    vm_compute; reflexivity.
  - destruct (proj2 (C9_free_text_parser Json.loads "Action: search x")
                ltac:(vm_compute; reflexivity) _ eq_refl) as (_ & _ & H).
    apply H. vm_compute; reflexivity.
Defined.

(** ** The structured-call parser *)

Lemma dict_mem_get {A} (k : string) (d : list (string * A)) :
  PyVal.dict_mem k d = match PyVal.dict_get k d with Some _ => true | None => false end.
Proof. reflexivity. Qed.

(** C3 (as amended): when the block between the first opening and the
    last closing brace decodes to a mapping, the structured-call parser
    returns the values under [action] and [action_input]; a mapping with
    no [action] key is refused with a diagnostic that starts by naming
    that key; a mapping with [action] and no [action_input] gives the
    argument [None].  The block of the specification's example,
    preceded by its two labels, has no [action] key and is refused; the
    block that carries the two keys gives the tool [search] and the
    arguments with [query] set to [x]. *)
Theorem C3_structured_call_parser :
  (forall (json_loads : string -> json_result) (json_blob : string) (d : list (string * value)),
     parse_json_blob json_loads (replace "```" "" (replace "```json" "" json_blob))
     = Ok (VDict d) ->
     (PyVal.dict_mem "action" d = false ->
      exists rest, parse_json_tool_call json_loads json_blob
                   = Raise (Exn ValueError ("Missing keys: ['action'" +:+ rest)))
     /\ (forall a, PyVal.dict_get "action" d = Some a ->
                   PyVal.dict_mem "action_input" d = false ->
                   parse_json_tool_call json_loads json_blob = Ok (a, VNone))
     /\ (forall a i, PyVal.dict_get "action" d = Some a ->
                     PyVal.dict_get "action_input" d = Some i ->
                     parse_json_tool_call json_loads json_blob = Ok (a, i)))
  /\ parse_json_tool_call Json.loads ex_json_call
     = Ok (VStr "search", VDict [("query", VStr "x")])
  /\ parse_json_tool_call Json.loads ex_labelled_call
     = Raise (Exn ValueError "Missing keys: ['action', 'action_input'] in blob {'query': 'x'}").
Proof.
  split; [|split; vm_compute; reflexivity].
  intros json_loads json_blob d H. unfold parse_json_tool_call. rewrite H.
  cbn [bind value_contains value_getitem].
  split; [|split].
  - intros Hmem. rewrite Hmem. simpl.
    destruct (PyVal.dict_mem "action_input" d).
    + exists ("] in blob " +:+ PyVal.str (VDict d)). reflexivity.
    + exists (", 'action_input'] in blob " +:+ PyVal.str (VDict d)). reflexivity.
  - intros a Ha Hi. unfold PyVal.dict_mem in *. rewrite Ha.
    destruct (PyVal.dict_get "action_input" d); [discriminate |].
    reflexivity.
  - intros a i Ha Hi. unfold PyVal.dict_mem. rewrite Ha, Hi. reflexivity.
Qed.

(** The specification's example input is refused by the structured-call
    parser. *)
Lemma C3_counterexample :
  parse_json_tool_call Json.loads ex_labelled_call
  = Raise (Exn ValueError "Missing keys: ['action', 'action_input'] in blob {'query': 'x'}").
Proof. vm_compute. reflexivity. Qed.

Lemma C3_structured_call_parser_witness :
  parse_json_tool_call Json.loads ex_json_action_only = Ok (VStr "search", VNone)
  /\ (exists rest, parse_json_tool_call Json.loads ex_labelled_call
                   = Raise (Exn ValueError ("Missing keys: ['action'" +:+ rest))).
Proof.
  split.
  - destruct (proj1 C3_structured_call_parser Json.loads ex_json_action_only
                [("action", VStr "search")] ltac:(vm_compute; reflexivity)) as (_ & H & _).
    apply H; vm_compute; reflexivity.
  - destruct (proj1 C3_structured_call_parser Json.loads ex_labelled_call
                [("query", VStr "x")] ltac:(vm_compute; reflexivity)) as (H & _).
    apply H; vm_compute; reflexivity.
Defined.

(** ** The fenced-block parser *)

Lemma re_search_eq (s : string) :
  re_search s = match match_here s with
                | Some g => Some g
                | None => match s with
                          | EmptyString => None
                          | String _ s' => re_search s'
                          end
                end.
Proof. destruct s; reflexivity. Qed.

Lemma no_backtick_cons (c : ascii) (s : string) :
  no_backtick (String c s) = true -> Ascii.eqb c "`" = false /\ no_backtick s = true.
Proof.
  simpl. destruct (Ascii.eqb c "`"); simpl; intros H; [discriminate | now split].
Qed.

Lemma match_here_other (c : ascii) (s : string) :
  Ascii.eqb c "`" = false -> match_here (String c s) = None.
Proof.
  intros H. unfold match_here, fence.
  change (startswith "```" (String c s))
    with (if Ascii.eqb "`" c then startswith "``" s else false).
  rewrite Ascii.eqb_sym, H. reflexivity.
Qed.

(** The search passes over a text that has no backtick. *)
Lemma re_search_skip (pre rest : string) :
  no_backtick pre = true -> re_search (pre +:+ rest) = re_search rest.
Proof.
  induction pre as [|c pre IH]; intros H; [reflexivity |].
  apply no_backtick_cons in H as [Hc Hpre].
  rewrite append_cons, re_search_eq, (match_here_other _ _ Hc). auto.
Qed.

(** The closing fence after a body that has no backtick is the first
    one. *)
Lemma find_close (body post : string) :
  no_backtick body = true ->
  find (nl +:+ fence) (body +:+ nl +:+ fence +:+ post) = Some (String.length body).
Proof.
  induction body as [|c body IH]; intros H.
  - reflexivity.
  - apply no_backtick_cons in H as [Hc Hbody].
    rewrite append_cons. simpl String.length.
    change (find (nl +:+ fence) (String c (body +:+ nl +:+ fence +:+ post)))
      with (if startswith (nl +:+ fence) (String c (body +:+ nl +:+ fence +:+ post))
            then Some 0
            else option_map S (find (nl +:+ fence) (body +:+ nl +:+ fence +:+ post))).
    rewrite (IH Hbody).
    assert (E : startswith (nl +:+ fence) (String c (body +:+ nl +:+ fence +:+ post)) = false).
    { change (startswith (nl +:+ fence) (String c (body +:+ nl +:+ fence +:+ post)))
        with (if Ascii.eqb "010" c
              then startswith fence (body +:+ nl +:+ fence +:+ post) else false).
      destruct (Ascii.eqb "010" c); [|reflexivity].
      destruct body as [|d body]; [reflexivity |].
      apply no_backtick_cons in Hbody as [Hd _].
      rewrite append_cons.
      change (startswith fence (String d (body +:+ nl +:+ fence +:+ post)))
        with (if Ascii.eqb "`" d
              then startswith "``" (body +:+ nl +:+ fence +:+ post) else false).
      rewrite Ascii.eqb_sym, Hd. reflexivity. }
    rewrite E. reflexivity.
Qed.

Lemma group_after_newline_body (body post : string) :
  no_backtick body = true ->
  group_after_newline (nl +:+ body +:+ nl +:+ fence +:+ post) = Some body.
Proof.
  intros H. unfold group_after_newline.
  change (nl +:+ body +:+ nl +:+ fence +:+ post)
    with (String "010" (body +:+ nl +:+ fence +:+ post)).
  change (startswith nl (String "010" (body +:+ nl +:+ fence +:+ post))) with true.
  change (drop 1 (String "010" (body +:+ nl +:+ fence +:+ post)))
    with (body +:+ nl +:+ fence +:+ post).
  cbv iota. rewrite (find_close body post H). now rewrite take_app_length.
Qed.

Lemma match_here_fenced (tag body post : string) :
  tag = "" \/ tag = "py" \/ tag = "python" ->
  no_backtick body = true ->
  match_here (fence +:+ tag +:+ nl +:+ body +:+ nl +:+ fence +:+ post) = Some body.
Proof.
  intros Htag H. pose proof (group_after_newline_body body post H) as G.
  destruct Htag as [-> | [-> | ->]].
  - change (match_here (fence +:+ "" +:+ nl +:+ body +:+ nl +:+ fence +:+ post))
      with (group_after_newline (nl +:+ body +:+ nl +:+ fence +:+ post)).
    exact G.
  - change (match_here (fence +:+ "py" +:+ nl +:+ body +:+ nl +:+ fence +:+ post))
      with (match group_after_newline (nl +:+ body +:+ nl +:+ fence +:+ post) with
            | Some g => Some g
            | None => group_after_newline ("py" +:+ nl +:+ body +:+ nl +:+ fence +:+ post)
            end).
    now rewrite G.
  - change (match_here (fence +:+ "python" +:+ nl +:+ body +:+ nl +:+ fence +:+ post))
      with (match group_after_newline (nl +:+ body +:+ nl +:+ fence +:+ post) with
            | Some g => Some g
            | None => group_after_newline ("python" +:+ nl +:+ body +:+ nl +:+ fence +:+ post)
            end).
    now rewrite G.
Qed.

Lemma re_search_no_fence (s : string) :
  contains fence s = false -> re_search s = None.
Proof.
  unfold contains. induction s as [|c s IH]; intros H; [reflexivity |].
  rewrite find_cons in H. rewrite re_search_eq. unfold match_here.
  destruct (startswith fence (String c s)); [discriminate |].
  apply IH. destruct (find fence s); [discriminate | reflexivity].
Qed.

Lemma lstrip_head (s : string) (c : ascii) (r : string) :
  lstrip s = String c r -> isspace c = false.
Proof.
  induction s as [|d s IH]; simpl; [discriminate |].
  destruct (isspace d) eqn:E; [assumption |].
  intros H. injection H as <- _. exact E.
Qed.

Lemma rstrip_head (s : string) (c : ascii) (r : string) :
  isspace c = false -> exists r', rstrip (String c s) = String c r'.
Proof.
  intros H. simpl. destruct (rstrip s); [rewrite H|]; eauto.
Qed.

Lemma rstrip_last (s : string) : forall t c,
  rstrip s = t +:+ String c "" -> isspace c = false.
Proof.
  induction s as [|d s IH]; intros t c; simpl.
  - destruct t; discriminate.
  - destruct (rstrip s) as [|e r] eqn:E.
    + destruct (isspace d) eqn:Hd; intros H.
      * destruct t; discriminate.
      * destruct t as [|x [|y t]]; try discriminate.
        rewrite append_nil_l in H. now injection H as <-.
    + intros H. destruct t as [|x t].
      * rewrite append_nil_l in H. discriminate.
      * rewrite append_cons in H. injection H as _ H. eauto.
Qed.

(** [strip] leaves no white space at either end. *)
Lemma strip_trimmed (s : string) :
  (forall c r, strip s = String c r -> isspace c = false)
  /\ (forall t c, strip s = t +:+ String c "" -> isspace c = false).
Proof.
  unfold strip. split; [|apply rstrip_last].
  intros c r H. destruct (lstrip s) as [|d l] eqn:E; [discriminate |].
  pose proof (lstrip_head _ _ _ E) as Hd.
  destruct (rstrip_head l d r Hd) as [r' Hr]. rewrite Hr in H. now injection H as <- _.
Qed.




(** ** The memory builder *)

Lemma filter_app_bool {A} (f : A -> bool) (l1 l2 : list A) :
  List.filter f (l1 ++ l2) = List.filter f l1 ++ List.filter f l2.
Proof. induction l1 as [|x l1 IH]; simpl; [reflexivity|]. destruct (f x); simpl; now rewrite IH. Qed.

(** The tool-response messages of one entry. *)
Lemma step_messages_tool_response (summary_mode : bool) (i : nat) (step_log : log_entry) :
  List.filter is_tool_response (step_messages summary_mode i step_log)
  = match e_error step_log, e_observation step_log with
    | Some err, _ =>
        [Message TOOL_RESPONSE
           ("[OUTPUT OF STEP " +:+ PyVal.repr_int (Z.of_nat i) +:+ "] Error: "
              +:+ exn_msg err +:+ retry_guidance)]
    | None, Some obs =>
        [Message TOOL_RESPONSE
           ("[OUTPUT OF STEP " +:+ PyVal.repr_int (Z.of_nat i) +:+ "] Observation:"
              +:+ nl +:+ PyVal.str obs)]
    | None, None => []
    end.
Proof.
  unfold step_messages. rewrite !filter_app_bool.
  destruct (e_llm_output step_log), (e_facts step_log), (e_plan step_log),
    (e_tool_call step_log), (e_task step_log), (e_error step_log),
    (e_observation step_log), summary_mode; reflexivity.
Qed.

Lemma steps_messages_tool_responses (summary_mode : bool) (l : list log_entry) : forall i,
  List.length (List.filter is_tool_response (steps_messages summary_mode i l))
  = List.length (List.filter carries_output l).
Proof.
  induction l as [|e l IH]; intros i; [reflexivity |].
  simpl steps_messages. rewrite filter_app_bool, length_app, IH.
  rewrite step_messages_tool_response. simpl. unfold carries_output.
  destruct (e_error e), (e_observation e); reflexivity.
Qed.

(** C5: for an entry after entry 0, the memory builder emits exactly one
    tool-response message when the entry carries an error or an
    observation, made from the error, with the retry guidance after it,
    when there is one, and from the observation otherwise; it emits none
    when the entry carries neither; and the memory built from a log has
    as many tool-response messages as the log has such entries after
    entry 0. *)
Theorem C5_one_tool_response :
  (forall (summary_mode : bool) (i : nat) (step_log : log_entry),
     List.filter is_tool_response (step_messages summary_mode i step_log)
     = match e_error step_log, e_observation step_log with
       | Some err, _ =>
           [Message TOOL_RESPONSE
              ("[OUTPUT OF STEP " +:+ PyVal.repr_int (Z.of_nat i) +:+ "] Error: "
                 +:+ exn_msg err +:+ retry_guidance)]
       | None, Some obs =>
           [Message TOOL_RESPONSE
              ("[OUTPUT OF STEP " +:+ PyVal.repr_int (Z.of_nat i) +:+ "] Observation:"
                 +:+ nl +:+ PyVal.str obs)]
       | None, None => []
       end)
  /\ (forall (lg : list log_entry) (summary_mode is_mistral : bool) (memory : list message),
        write_inner_memory_from_logs lg summary_mode is_mistral = Ok memory ->
        List.length (List.filter is_tool_response memory)
        = List.length (List.filter carries_output (tl lg))).
Proof.
  split; [apply step_messages_tool_response |].
  intros lg summary_mode is_mistral memory. unfold write_inner_memory_from_logs.
  destruct lg as [|entry0 rest]; [discriminate |].
  destruct (e_system_prompt entry0); [|discriminate].
  destruct (e_task entry0); [|discriminate].
  intros H. injection H as <-.
  rewrite filter_app_bool, length_app, steps_messages_tool_responses.
  destruct summary_mode, is_mistral; reflexivity.
Qed.

Lemma C5_one_tool_response_witness :
  List.length (List.filter is_tool_response
                 [Message SYSTEM "You are an agent. <<tool_descriptions>>";
                  Message USER "Task: What is 2+2?";
                  Message ASSISTANT "Thought: go";
                  Message TOOL_RESPONSE ("[OUTPUT OF STEP 0] Error: boom" +:+ retry_guidance)])
  = List.length (List.filter carries_output (tl [ex_entry0; ex_entry_both])).
Proof.
  apply (proj2 C5_one_tool_response [ex_entry0; ex_entry_both] false false).
  vm_compute; reflexivity.
Defined.

Lemma step_messages_not_system (summary_mode : bool) (i : nat) (step_log : log_entry) :
  List.filter is_system (step_messages summary_mode i step_log) = [].
Proof.
  unfold step_messages. rewrite !filter_app_bool.
  destruct (e_llm_output step_log), (e_facts step_log), (e_plan step_log),
    (e_tool_call step_log), (e_task step_log), (e_error step_log),
    (e_observation step_log), summary_mode; reflexivity.
Qed.

Lemma steps_messages_not_system (summary_mode : bool) (l : list log_entry) : forall i,
  List.filter is_system (steps_messages summary_mode i l) = [].
Proof.
  induction l as [|e l IH]; intros i; [reflexivity |].
  simpl. now rewrite filter_app_bool, step_messages_not_system, IH.
Qed.

(** C6 (as amended): from a log whose entry 0 holds the system prompt and
    the task, the memory outside the summary mode starts with the system
    prompt in a system message and the task, after the words [Task: ],
    in a user message; when the model has no system role the prompt
    goes, without its tool-description placeholder, into a user message
    of its own, still followed by the task message; in the summary mode
    the memory starts with the task message alone.  No later entry gives
    a system message. *)
Theorem C6_entry0_messages (entry0 : log_entry) (rest : list log_entry)
    (system_prompt task : string) :
  e_system_prompt entry0 = Some system_prompt ->
  e_task entry0 = Some task ->
  write_inner_memory_from_logs (entry0 :: rest) false false
  = Ok (Message SYSTEM system_prompt :: Message USER ("Task: " +:+ task)
          :: steps_messages false 0 rest)
  /\ write_inner_memory_from_logs (entry0 :: rest) false true
     = Ok (Message USER (replace "<<tool_descriptions>>" "" system_prompt)
             :: Message USER ("Task: " +:+ task) :: steps_messages false 0 rest)
  /\ (forall is_mistral,
        write_inner_memory_from_logs (entry0 :: rest) true is_mistral
        = Ok (Message USER ("Task: " +:+ task) :: steps_messages true 0 rest))
  /\ (forall summary_mode i, List.filter is_system (steps_messages summary_mode i rest) = []).
Proof.
  intros Hsp Ht. unfold write_inner_memory_from_logs. rewrite Hsp, Ht.
  split; [reflexivity | split; [reflexivity | split]].
  - intros []; reflexivity.
  - intros. apply steps_messages_not_system.
Qed.

(** In the summary mode entry 0 gives no system message, and without a
    system role it gives two user messages. *)
Lemma C6_counterexample :
  write_inner_memory_from_logs [ex_entry0] true false
  = Ok [Message USER "Task: What is 2+2?"]
  /\ write_inner_memory_from_logs [ex_entry0] false true
     = Ok [Message USER "You are an agent. "; Message USER "Task: What is 2+2?"].
Proof. split; vm_compute; reflexivity. Qed.

Lemma C6_entry0_messages_witness :
  write_inner_memory_from_logs [ex_entry0; ex_entry_both] false false
  = Ok (Message SYSTEM "You are an agent. <<tool_descriptions>>"
          :: Message USER ("Task: " +:+ "What is 2+2?")
          :: steps_messages false 0 [ex_entry_both]).
Proof.
  exact (proj1 (C6_entry0_messages ex_entry0 [ex_entry_both] _ _ eq_refl eq_refl)).
Defined.

(** ** The tool executor *)

Lemma occurs_in_refl (x : string) : occurs_in x x.
Proof. exists "", "". now rewrite append_nil_r. Qed.

Lemma occurs_in_app_l (x s t : string) : occurs_in x s -> occurs_in x (s +:+ t).
Proof.
  intros (a & b & ->). exists a, (b +:+ t). now rewrite !append_assoc_s.
Qed.

Lemma occurs_in_app_r (x s t : string) : occurs_in x s -> occurs_in x (t +:+ s).
Proof.
  intros (a & b & ->). exists (t +:+ a), b. now rewrite !append_assoc_s.
Qed.

Lemma join_cons (sep x : string) (l : list string) :
  join sep (x :: l) = match l with [] => x | _ => x +:+ sep +:+ join sep l end.
Proof. destruct l; reflexivity. Qed.

Lemma occurs_in_join (sep x : string) (l : list string) :
  In x l -> occurs_in x (join sep l).
Proof.
  induction l as [|y l IH]; intros H; [destruct H |].
  rewrite join_cons. destruct H as [-> | H].
  - destruct l; [apply occurs_in_refl | apply occurs_in_app_l, occurs_in_refl].
  - destruct l as [|z l]; [destruct H |].
    now apply occurs_in_app_r, occurs_in_app_r, IH.
Qed.

(** The diagnostic for an unknown tool holds the printed name of every
    tool of the toolbox. *)
Lemma unknown_tool_msg_lists (cfg : Config) (name : value) (k : string) :
  In k (PyVal.dict_keys (toolbox cfg)) ->
  occurs_in (PyVal.repr_str k) (unknown_tool_msg cfg name).
Proof.
  intros H. unfold unknown_tool_msg, PyVal.repr_str_list.
  do 3 apply occurs_in_app_r. apply occurs_in_app_l.
  apply occurs_in_app_r, occurs_in_app_l, occurs_in_join. now apply in_map.
Qed.

Lemma substitute_state_replaces (st : gmap string value) (kw : list (string * value))
    (k key : string) (x : value) :
  In (k, VStr key) kw -> st !! key = Some x -> In (k, x) (substitute_state st kw).
Proof.
  intros Hin Hst. unfold substitute_state.
  apply in_map_iff. exists (k, VStr key). split; [|assumption].
  simpl. now rewrite Hst.
Qed.

Lemma substitute_state_keeps (st : gmap string value) (kw : list (string * value))
    (k : string) (v : value) :
  In (k, v) kw ->
  (forall key, PyVal.as_str v = Some key -> st !! key = None) ->
  In (k, v) (substitute_state st kw).
Proof.
  intros Hin Hno. unfold substitute_state.
  apply in_map_iff. exists (k, v). split; [|assumption].
  simpl. destruct (PyVal.as_str v) as [key|] eqn:E; [|reflexivity].
  now rewrite (Hno key eq_refl).
Qed.

Lemma substitute_state_keys (st : gmap string value) (kw : list (string * value)) :
  map fst (substitute_state st kw) = map fst kw.
Proof. unfold substitute_state. rewrite map_map. reflexivity. Qed.

(** C4: [execute_tool_call] on a tool name that the toolbox does not
    hold raises an execution error whose message lists the names of the
    toolbox; with a string as arguments it calls the tool with that one
    positional value; with a mapping it calls the tool with the mapping
    in which every value that is a key of the state has been replaced by
    the state's value, as in the example of the stored image; and what
    the tool raises comes back as an execution error whose message holds
    the tool's message and its rendered description. *)
Theorem C4_execute_tool_call (cfg : Config) (s : agent) :
  (forall name arguments,
     PyVal.dict_get name (toolbox cfg) = None ->
     execute_tool_call cfg (fun _ => ret tt) (VStr name) arguments s
     = (Raise (Exn AgentExecutionError (unknown_tool_msg cfg (VStr name))), s)
     /\ forall k, In k (PyVal.dict_keys (toolbox cfg)) ->
                  occurs_in (PyVal.repr_str k) (unknown_tool_msg cfg (VStr name)))
  /\ (forall name tool a,
        PyVal.dict_get name (toolbox cfg) = Some tool ->
        execute_tool_call cfg (fun _ => ret tt) (VStr name) (VStr a) s
        = (wrap_tool_outcome tool (tool_call tool (Positional (VStr a))),
           with_tool_call s (tool_name tool) (Positional (VStr a))))
  /\ (forall name tool kw,
        PyVal.dict_get name (toolbox cfg) = Some tool ->
        execute_tool_call cfg (fun _ => ret tt) (VStr name) (VDict kw) s
        = (wrap_tool_outcome tool
             (tool_call tool (Keywords (substitute_state (state s) kw))),
           with_tool_call s (tool_name tool) (Keywords (substitute_state (state s) kw)))
        /\ map fst (substitute_state (state s) kw) = map fst kw
        /\ (forall k key x, In (k, VStr key) kw -> state s !! key = Some x ->
                            In (k, x) (substitute_state (state s) kw))
        /\ (forall k v, In (k, v) kw ->
                        (forall key, PyVal.as_str v = Some key -> state s !! key = None) ->
                        In (k, v) (substitute_state (state s) kw)))
  /\ substitute_state ex_state [("x", VStr "image.png")] = [("x", ex_image)]
  /\ (forall e tool,
        exn_class_of (execution_error e tool) = AgentExecutionError
        /\ occurs_in (exn_msg e) (exn_msg (execution_error e tool))
        /\ occurs_in (tool_describe tool None) (exn_msg (execution_error e tool))).
Proof.
  split; [|split; [|split; [|split]]].
  - intros name arguments H. split; [|intros k; apply unknown_tool_msg_lists].
    unfold execute_tool_call. cbn [PyVal.as_str]. rewrite H. reflexivity.
  - intros name tool a H. unfold execute_tool_call. cbn [PyVal.as_str]. rewrite H.
    unfold catch, invoke, wrap_tool_outcome, with_tool_call, raise.
    destruct (tool_call tool (Positional (VStr a))); reflexivity.
  - intros name tool kw H. split; [|split; [|split]].
    + unfold execute_tool_call. cbn [PyVal.as_str]. rewrite H.
      unfold catch, bindM, get_state, ret, invoke, wrap_tool_outcome, with_tool_call, raise.
      destruct s as [lg st lc tc y]. simpl.
      destruct (tool_call tool (Keywords (substitute_state st kw))); reflexivity.
    + apply substitute_state_keys.
    + apply substitute_state_replaces.
    + apply substitute_state_keeps.
  - vm_compute. reflexivity.
  - intros e tool. split; [reflexivity | split]; unfold execution_error; simpl exn_msg.
    + apply occurs_in_app_r, occurs_in_app_l, occurs_in_refl.
    + do 7 apply occurs_in_app_r. apply occurs_in_refl.
Qed.

(** ** Rules for agent methods *)

Lemma post_ret {A} (a : A) (s : agent) (Q : res A -> agent -> Prop) :
  Q (Ok a) s -> post (ret a) s Q.
Proof. exact (fun H => H). Qed.

Lemma post_raise {A} (e : exn) (s : agent) (Q : res A -> agent -> Prop) :
  Q (Raise e) s -> post (raise e) s Q.
Proof. exact (fun H => H). Qed.

Lemma post_lift {A} (r : res A) (s : agent) (Q : res A -> agent -> Prop) :
  Q r s -> post (lift r) s Q.
Proof. exact (fun H => H). Qed.

Lemma post_bind {A B} (m : M A) (k : A -> M B) (s : agent) (Q : res B -> agent -> Prop) :
  post m s (fun r s' => match r with
                        | Ok a => post (k a) s' Q
                        | Raise e => Q (Raise e) s'
                        end) ->
  post (bindM m k) s Q.
Proof.
  unfold post, bindM. destruct (m s) as [[a|e] s']; simpl; auto.
Qed.

Lemma post_catch {A} (m : M A) (h : exn -> M A) (s : agent) (Q : res A -> agent -> Prop) :
  post m s (fun r s' => match r with
                        | Ok a => Q (Ok a) s'
                        | Raise e => post (h e) s' Q
                        end) ->
  post (catch m h) s Q.
Proof.
  unfold post, catch. destruct (m s) as [[a|e] s']; simpl; auto.
Qed.

Lemma post_weaken {A} (m : M A) (s : agent) (Q Q' : res A -> agent -> Prop) :
  post m s Q -> (forall r s', Q r s' -> Q' r s') -> post m s Q'.
Proof. unfold post. auto. Qed.

Lemma rev_snoc {A} (l : list A) (x : A) : List.rev (l ++ [x]) = x :: List.rev l.
Proof. now rewrite rev_app_distr. Qed.

(** [update_last] on a log that ends with an entry. *)
Lemma update_last_snoc (f : log_entry -> log_entry) (s : agent)
    (front : list log_entry) (e : log_entry) :
  logs s = front ++ [e] ->
  update_last f s
  = (Ok tt, Agent (front ++ [f e]) (state s) (llm_calls s) (tool_calls s) (yielded s)).
Proof.
  intros H. unfold update_last. rewrite H, rev_snoc, rev_involutive. reflexivity.
Qed.

Lemma current_entry_snoc (s : agent) (front : list log_entry) (e : log_entry) :
  logs s = front ++ [e] -> current_entry s = (Ok e, s).
Proof. intros H. unfold current_entry. now rewrite H, rev_snoc. Qed.

Lemma post_update_last (f : log_entry -> log_entry) (s : agent) (front : list log_entry)
    (P P' : log_entry -> Prop) (Q : res unit -> agent -> Prop) :
  last_entry front P s ->
  (forall e, P e -> P' (f e)) ->
  (forall s', last_entry front P' s' -> Q (Ok tt) s') ->
  post (update_last f) s Q.
Proof.
  intros (e & Hl & He) Hf HQ. unfold post. rewrite (update_last_snoc f s front e Hl).
  apply HQ. exists (f e). auto.
Qed.

Lemma post_current_entry (s : agent) (front : list log_entry) (P : log_entry -> Prop)
    (Q : res log_entry -> agent -> Prop) :
  last_entry front P s ->
  (forall e, P e -> Q (Ok e) s) ->
  post current_entry s Q.
Proof.
  intros (e & Hl & He) HQ. unfold post. rewrite (current_entry_snoc s front e Hl).
  apply HQ, He.
Qed.

(** The methods that leave the log alone. *)
Lemma post_get_state (s : agent) (Q : res (gmap string value) -> agent -> Prop) :
  Q (Ok (state s)) s -> post get_state s Q.
Proof. exact (fun H => H). Qed.

Lemma post_get_logs (s : agent) (Q : res (list log_entry) -> agent -> Prop) :
  Q (Ok (logs s)) s -> post get_logs s Q.
Proof. exact (fun H => H). Qed.

Lemma post_same_logs {A} (m : M A) (s : agent) (Q : res A -> agent -> Prop) :
  (forall s0, logs (snd (m s0)) = logs s0) ->
  (forall r s', logs s' = logs s -> Q r s') ->
  post m s Q.
Proof. intros Hm HQ. unfold post. apply HQ, Hm. Qed.

Lemma call_llm_logs (engine : LlmEngine) msgs stop (s : agent) :
  logs (snd (call_llm engine msgs stop s)) = logs s.
Proof. reflexivity. Qed.

Lemma invoke_logs (tool : Tool) (args : call_args) (s : agent) :
  logs (snd (invoke tool args s)) = logs s.
Proof. reflexivity. Qed.

Lemma state_set_logs (k : string) (v : value) (s : agent) :
  logs (snd (state_set k v s)) = logs s.
Proof. reflexivity. Qed.

Lemma last_entry_same_logs (front : list log_entry) (P : log_entry -> Prop) (s s' : agent) :
  logs s' = logs s -> last_entry front P s -> last_entry front P s'.
Proof. unfold last_entry. intros ->. auto. Qed.

(** What [begin_step] does, by the outcome of the memory builder and of
    the engine. *)
Lemma begin_step_eq (cfg : Config) (is_mistral : bool) (s : agent) :
  begin_step cfg is_mistral s
  = match write_inner_memory_from_logs (logs s) false is_mistral with
    | Raise e => (Raise e, s)
    | Ok agent_memory =>
        match llm_engine cfg (List.length (llm_calls s)) agent_memory step_stop_sequences with
        | Ok llm_output =>
            (Ok llm_output,
             Agent (logs s ++ [set_llm_output llm_output
                                 (set_agent_memory agent_memory empty_entry)])
               (state s) (llm_calls s ++ [(agent_memory, step_stop_sequences)])
               (tool_calls s) (yielded s))
        | Raise e =>
            (Raise (generation_error e),
             Agent (logs s ++ [set_agent_memory agent_memory empty_entry])
               (state s) (llm_calls s ++ [(agent_memory, step_stop_sequences)])
               (tool_calls s) (yielded s))
        end
    end.
Proof.
  unfold begin_step, bindM, get_logs, lift.
  destruct (write_inner_memory_from_logs (logs s) false is_mistral) as [mem|e]; [|reflexivity].
  unfold append_log. cbn [logs state llm_calls tool_calls yielded].
  rewrite (update_last_snoc _ _ (logs s) empty_entry) by reflexivity.
  cbn [logs state llm_calls tool_calls yielded].
  unfold catch, call_llm. cbn [logs state llm_calls tool_calls yielded].
  destruct (llm_engine cfg (List.length (llm_calls s)) mem step_stop_sequences) as [out|e].
  - rewrite (update_last_snoc _ _ (logs s) (set_agent_memory mem empty_entry)) by reflexivity.
    reflexivity.
  - reflexivity.
Qed.

Lemma post_begin_step (cfg : Config) (is_mistral : bool) (s : agent)
    (Q : res string -> agent -> Prop) :
  (forall e, is_agent_error e = false -> Q (Raise e) s) ->
  (forall out s', last_entry (logs s) open_entry s' -> state s' = state s -> Q (Ok out) s') ->
  (forall e s', last_entry (logs s) open_entry s' -> Q (Raise (generation_error e)) s') ->
  post (begin_step cfg is_mistral) s Q.
Proof.
  intros Hmem Hok Hgen. unfold post. rewrite begin_step_eq.
  destruct (write_inner_memory_from_logs (logs s) false is_mistral) as [mem|e] eqn:E.
  - destruct (llm_engine cfg (List.length (llm_calls s)) mem step_stop_sequences).
    + apply Hok; [|reflexivity]. eexists. split; [reflexivity | split; reflexivity].
    + apply Hgen. eexists. split; [reflexivity | split; reflexivity].
  - apply Hmem. unfold write_inner_memory_from_logs, key_error in E.
    destruct (logs s) as [|e0 r]; [now injection E as <- |].
    destruct (e_system_prompt e0); [|now injection E as <-].
    destruct (e_task e0); [discriminate | now injection E as <-].
Qed.

(** ** The steps keep the contract of the run loops *)

Ltac keep_entry :=
  let e := fresh "e" in
  let H := fresh "H" in
  intros e H; first [ exact H | destruct H; split; assumption | destruct H; assumption ].

Lemma post_execute_tool_call (cfg : Config) (front : list log_entry) (name arguments : value)
    (tc : value -> value * value) (P : log_entry -> Prop) (s : agent)
    (Q : res value -> agent -> Prop) :
  (forall e x, P e -> P (set_tool_call x e)) ->
  last_entry front P s ->
  (forall r s', last_entry front P s' -> Q r s') ->
  post (execute_tool_call cfg (fun a => update_last (set_tool_call (tc a))) name arguments) s Q.
Proof.
  intros HP Hs HQ. unfold execute_tool_call.
  assert (Hgo : forall tool, post
            (catch
               (match PyVal.as_str arguments with
                | Some _ => invoke tool (Positional arguments)
                | None =>
                    match arguments with
                    | VDict kw =>
                        st <~ get_state ;;
                        update_last (set_tool_call (tc (VDict (substitute_state st kw)))) ;;;
                        invoke tool (Keywords (substitute_state st kw))
                    | _ => raise (Exn AttributeError
                                    ("'" +:+ type_name arguments
                                       +:+ "' object has no attribute 'items'"))
                    end
                end)
               (fun e => raise (execution_error e tool))) s Q).
  { intros tool. apply post_catch.
    destruct (PyVal.as_str arguments).
    - apply post_same_logs; [apply invoke_logs |].
      intros [v|e] s' Hl; [|apply post_raise]; apply HQ;
        now apply (last_entry_same_logs front P s s').
    - destruct arguments; try (apply post_raise, post_raise, HQ, Hs).
      apply post_bind, post_get_state, post_bind.
      eapply post_update_last with (P' := P); [exact Hs | intros e He; now apply HP |].
      intros s1 H1. apply post_same_logs; [apply invoke_logs |].
      intros [v|e] s' Hl; [|apply post_raise]; apply HQ;
        now apply (last_entry_same_logs front P s1 s'). }
  destruct name; try (apply post_raise, HQ, Hs);
    try (cbn [PyVal.as_str]; apply post_raise, HQ, Hs).
  - cbn [PyVal.as_str]. destruct (PyVal.dict_get s0 (toolbox cfg)); [apply Hgo |].
    apply post_raise, HQ, Hs.
  - destruct c; cbn [PyVal.as_str]; try (apply post_raise, HQ, Hs).
    destruct (PyVal.dict_get s0 (toolbox cfg)); [apply Hgo |].
    apply post_raise, HQ, Hs.
Qed.

Lemma ReactJsonAgent_step_contract (cfg : Config) : step_contract (ReactJsonAgent_step cfg).
Proof.
  intros s. unfold ReactJsonAgent_step.
  apply post_bind, post_begin_step.
  - intros e He H. congruence.
  - intros out s1 H1 _.
    apply post_bind, post_lift.
    destruct (extract_action out "Action:") as [ra|e]; [|intros _; exact H1].
    apply post_bind, post_lift.
    destruct (reraise (tool_parser cfg (snd ra)) _) as [ta|e]; [|intros _; exact H1].
    apply post_bind. eapply post_update_last with (P' := open_entry); [exact H1 | keep_entry |].
    intros s2 H2. apply post_bind. eapply post_update_last with (P' := open_entry); [exact H2 | keep_entry |].
    intros s3 H3.
    destruct (match PyVal.as_str (fst ta) with
              | Some n => String.eqb n "final_answer"
              | None => false
              end).
    + apply post_bind, post_get_state, post_bind.
      eapply post_update_last with (P' := no_error);
        [exact H3 | intros e [He _]; exact He |].
      intros s4 H4. apply post_bind.
      eapply post_current_entry; [exact H4 |].
      intros e He. apply post_ret. exact H4.
    + apply post_bind.
      apply (post_execute_tool_call cfg (logs s) _ _ _ open_entry);
        [intros e x He; exact He | exact H3 |].
      intros [observation|e] s4 H4; [|intros _; exact H4].
      apply post_bind.
      assert (Hupd : forall (info : string) (s5 : agent),
                last_entry (logs s) open_entry s5 ->
                post (update_last (set_observation (VStr info)) ;;;
                      current_step_logs <~ current_entry ;;
                      ret (RetDict current_step_logs)) s5 (step_post (logs s))).
      { intros info s5 H5. apply post_bind.
        eapply post_update_last with (P' := no_error);
          [exact H5 | intros e [He _]; exact He |].
        intros s6 H6. apply post_bind.
        eapply post_current_entry; [exact H6 |].
        intros e He. apply post_ret. exact H6. }
      assert (Hstore : post
                (state_set (observation_name observation) observation ;;;
                 ret ("Stored '" +:+ observation_name observation +:+ "' in memory."))
                s4
                (fun r s' => match r with
                             | Ok a => post (update_last (set_observation (VStr a)) ;;;
                                             current_step_logs <~ current_entry ;;
                                             ret (RetDict current_step_logs)) s'
                                         (step_post (logs s))
                             | Raise e => step_post (logs s) (Raise e) s'
                             end)).
      { apply post_bind. apply post_same_logs; [apply state_set_logs |].
        intros [[]|e] s5 Hl.
        - apply post_ret, Hupd. now apply (last_entry_same_logs _ _ s4 s5).
        - intros _. now apply (last_entry_same_logs _ _ s4 s5). }
      destruct observation as [| | | | | |c t]; try exact Hstore.
      destruct c; try exact Hstore.
      apply post_ret, Hupd, H4.
  - intros e s' H _. exact H.
Qed.

(** What [ReactJsonAgent.step] returns is always its entry, a dictionary
    of five keys, whichever branch it takes. *)
Lemma post_begin_step_entry (cfg : Config) (is_mistral : bool) (s : agent)
    (Q : res string -> agent -> Prop) :
  (forall e s', Q (Raise e) s') ->
  (forall out s',
     last_entry (logs s)
       (fun e => exists mem, e = set_llm_output out (set_agent_memory mem empty_entry)) s' ->
     Q (Ok out) s') ->
  post (begin_step cfg is_mistral) s Q.
Proof.
  intros Hraise Hok. unfold post. rewrite begin_step_eq.
  destruct (write_inner_memory_from_logs (logs s) false is_mistral) as [mem|e]; [|apply Hraise].
  destruct (llm_engine cfg (List.length (llm_calls s)) mem step_stop_sequences); [|apply Hraise].
  apply Hok. eexists. split; [reflexivity | now exists mem].
Qed.

Lemma parsed_entry_set_tool_call (e : log_entry) (x : value * value) :
  parsed_entry e -> parsed_entry (set_tool_call x e).
Proof. intros (mem & out & rat & tc & ->). now exists mem, out, rat, x. Qed.

Lemma parsed_entry_final_answer (e : log_entry) (x : value) :
  parsed_entry e -> five_keys (set_final_answer x e).
Proof. intros (mem & out & rat & tc & ->). reflexivity. Qed.

Lemma parsed_entry_observation (e : log_entry) (x : value) :
  parsed_entry e -> five_keys (set_observation x e).
Proof. intros (mem & out & rat & tc & ->). reflexivity. Qed.

Lemma ReactJsonAgent_step_returns_dict (cfg : Config) (s : agent) :
  post (ReactJsonAgent_step cfg) s (fun r _ => returns_five_keys r).
Proof.
  unfold ReactJsonAgent_step.
  apply post_bind, post_begin_step_entry; [intros; exact I |].
  intros out s1 H1.
  apply post_bind, post_lift.
  destruct (extract_action out "Action:") as [ra|e]; [|exact I].
  apply post_bind, post_lift.
  destruct (reraise (tool_parser cfg (snd ra)) _) as [ta|e]; [|exact I].
  apply post_bind.
  eapply post_update_last
    with (P' := fun e => exists mem out rat,
                  e = set_rationale rat (set_llm_output out (set_agent_memory mem empty_entry)));
    [exact H1 | intros e (mem & ->); now exists mem, out, (fst ra) |].
  intros s2 H2. apply post_bind.
  eapply post_update_last with (P' := parsed_entry);
    [exact H2
    | intros e (mem & o & rat & ->); now exists mem, o, rat, (fst ta, snd ta) |].
  intros s3 H3.
  destruct (match PyVal.as_str (fst ta) with
            | Some n => String.eqb n "final_answer"
            | None => false
            end).
  - apply post_bind, post_get_state, post_bind.
    eapply post_update_last with (P' := five_keys);
      [exact H3 | intros e He; now apply parsed_entry_final_answer |].
    intros s4 H4. apply post_bind.
    eapply post_current_entry; [exact H4 |].
    intros e He. apply post_ret. exact He.
  - apply post_bind.
    apply (post_execute_tool_call cfg (logs s) _ _ _ parsed_entry);
      [intros e x He; now apply parsed_entry_set_tool_call | exact H3 |].
    intros [observation|e] s4 H4; [|exact I].
    apply post_bind.
    assert (Hupd : forall (info : string) (s5 : agent),
              last_entry (logs s) parsed_entry s5 ->
              post (update_last (set_observation (VStr info)) ;;;
                    current_step_logs <~ current_entry ;;
                    ret (RetDict current_step_logs)) s5
                (fun r _ => returns_five_keys r)).
    { intros info s5 H5. apply post_bind.
      eapply post_update_last with (P' := five_keys);
        [exact H5 | intros e He; now apply parsed_entry_observation |].
      intros s6 H6. apply post_bind.
      eapply post_current_entry; [exact H6 |].
      intros e He. apply post_ret. exact He. }
    assert (Hstore : post
              (state_set (observation_name observation) observation ;;;
               ret ("Stored '" +:+ observation_name observation +:+ "' in memory."))
              s4
              (fun r s' => match r with
                           | Ok a => post (update_last (set_observation (VStr a)) ;;;
                                           current_step_logs <~ current_entry ;;
                                           ret (RetDict current_step_logs)) s'
                                       (fun r _ => returns_five_keys r)
                           | Raise e => True
                           end)).
    { apply post_bind. apply post_same_logs; [apply state_set_logs |].
      intros [[]|e] s5 Hl; [|exact I].
      apply post_ret, Hupd. now apply (last_entry_same_logs (logs s) parsed_entry s4 s5). }
    destruct observation as [| | | | | |c t]; try exact Hstore.
    destruct c; try exact Hstore.
    apply post_ret, Hupd, H4.
Qed.

Lemma five_keys_unpack (e : log_entry) :
  five_keys e ->
  unpack3 (RetDict e) = Raise (Exn ValueError "too many values to unpack (expected 3)")
  /\ unpack2 (RetDict e) = Raise (Exn ValueError "too many values to unpack (expected 2)").
Proof.
  unfold five_keys, unpack3, unpack2. intros H.
  destruct (entry_keys e) as [|k1 [|k2 [|k3 [|k4 [|k5 [|k6 ks]]]]]]; try discriminate H.
  split; vm_compute; reflexivity.
Qed.

Lemma ReactCodeSearchAgent_step_contract (cfg : Config) (search_tool : Tool)
    (is_mistral : bool) :
  step_contract (ReactCodeSearchAgent_step cfg search_tool is_mistral).
Proof.
  intros s. unfold ReactCodeSearchAgent_step.
  apply post_bind, post_begin_step.
  - intros e He H. congruence.
  - intros out s1 H1 _.
    assert (Hend : forall s2, last_entry (logs s) no_error s2 ->
              post (current_step_logs <~ current_entry ;;
                    ret (RetTuple current_step_logs
                           [observation_or_empty current_step_logs;
                            match e_summarization current_step_logs with
                            | Some sm => VStr sm
                            | None => VStr ""
                            end])) s2 (step_post (logs s))).
    { intros s2 H2. apply post_bind. eapply post_current_entry; [exact H2 |].
      intros e He. apply post_ret. exact H2. }
    assert (Hopen : forall s2, last_entry (logs s) open_entry s2 ->
                               last_entry (logs s) no_error s2).
    { intros s2 (e & Hl & He & _). exists e. split; assumption. }
    apply post_bind.
    destruct (split_search out) as [[rationale search_query]|].
    + apply post_bind.
      eapply post_update_last with (P' := open_entry); [exact H1 | keep_entry |].
      intros s2 H2. apply post_bind.
      eapply post_update_last with (P' := open_entry); [exact H2 | keep_entry |].
      intros s3 H3. apply post_bind, post_catch.
      apply post_same_logs; [apply invoke_logs |].
      intros [v|e] s4 Hl.
      * eapply post_update_last with (P := open_entry) (P' := open_entry);
          [exact (last_entry_same_logs _ _ _ _ Hl H3) | keep_entry |].
        intros s5 H5. apply Hend, Hopen, H5.
      * apply post_raise. intros _. now apply (last_entry_same_logs _ _ s3 s4).
    + destruct (contains "Final Answer:" out).
      * eapply post_update_last with (P' := no_error);
          [exact H1 | intros e [He _]; exact He |].
        intros s2 H2. apply Hend, H2.
      * eapply post_update_last with (P' := open_entry); [exact H1 | keep_entry |].
        intros s2 H2. apply Hend, Hopen, H2.
  - intros e s' H _. exact H.
Qed.

Lemma run_evaluator_logs (python_evaluator : string -> gmap string value -> res value * gmap string value)
    (code : string) (s : agent) :
  logs (snd (run_evaluator python_evaluator code s)) = logs s.
Proof.
  unfold run_evaluator. destruct (python_evaluator code (state s)). reflexivity.
Qed.

Lemma ReactCodeAgent_step_contract (cfg : Config)
    (python_evaluator : string -> gmap string value -> res value * gmap string value)
    (is_mistral : bool) :
  step_contract (ReactCodeAgent_step cfg python_evaluator is_mistral).
Proof.
  intros s. unfold ReactCodeAgent_step.
  apply post_bind, post_begin_step.
  - intros e He H. congruence.
  - intros out s1 H1 _.
    set (ra := match extract_action out "Code:" with
               | Ok ra => ra
               | Raise _ => (out, out)
               end).
    apply post_bind, post_lift.
    destruct (reraise (parse_code_blob (snd ra)) _) as [code_action|e]; [|intros _; exact H1].
    apply post_bind.
    eapply post_update_last with (P' := open_entry); [exact H1 | keep_entry |].
    intros s2 H2. apply post_bind.
    eapply post_update_last with (P' := open_entry); [exact H2 | keep_entry |].
    intros s3 H3. apply post_bind, post_catch, post_bind.
    apply post_same_logs; [apply run_evaluator_logs |].
    intros [result|e] s4 Hl;
      [|apply post_raise; intros _; now apply (last_entry_same_logs _ _ s3 s4)].
    assert (H4 : last_entry (logs s) open_entry s4)
      by now apply (last_entry_same_logs _ _ s3 s4).
    apply post_bind, post_get_state, post_bind, post_lift.
    destruct (state s4 !! "print_outputs") as [information|];
      [|apply post_raise; intros _; exact H4].
    apply post_bind.
    eapply post_update_last with (P' := open_entry); [exact H4 | keep_entry |].
    intros s5 H5. apply post_ret, post_bind.
    assert (Hend : forall s6, last_entry (logs s) no_error s6 ->
              post (current_step_logs <~ current_entry ;;
                    ret (RetTuple current_step_logs [observation_or_empty current_step_logs]))
                s6 (step_post (logs s))).
    { intros s6 H6. apply post_bind. eapply post_current_entry; [exact H6 |].
      intros e He. apply post_ret. exact H6. }
    destruct (existsb _ _).
    + eapply post_update_last with (P' := no_error);
        [exact H5 | intros e [He _]; exact He |].
      intros s6 H6. apply Hend, H6.
    + apply post_ret. apply Hend. destruct H5 as (e & Hl5 & He & _).
      exists e. split; assumption.
  - intros e s' H _. exact H.
Qed.

(** ** The loop of [direct_run] *)

Section DirectLoop.

Variable cfg : Config.
Variable step : M step_return.
Variable task : string.
Variable is_mistral : bool.

Hypothesis step_ok : step_contract step.
Hypothesis engine_ok : planning_interval cfg <> None -> engine_clean cfg.

Lemma write_inner_memory_raise (lg : list log_entry) (a b : bool) (e : exn) :
  write_inner_memory_from_logs lg a b = Raise e -> is_agent_error e = false.
Proof.
  unfold write_inner_memory_from_logs, key_error. intros E.
  destruct lg as [|e0 r]; [now injection E as <- |].
  destruct (e_system_prompt e0); [|now injection E as <-].
  destruct (e_task e0); [discriminate | now injection E as <-].
Qed.

(** A planning step appends one entry, which has neither an error nor
    a final answer, or it raises what the engine or the memory builder
    raised. *)
Lemma post_planning_step (first : bool) (iteration : Z) (s : agent)
    (Q : res unit -> agent -> Prop) :
  engine_clean cfg ->
  (forall e s', is_agent_error e = false -> Q (Raise e) s') ->
  (forall s', last_entry (logs s) open_entry s' -> Q (Ok tt) s') ->
  post (planning_step cfg task first iteration is_mistral) s Q.
Proof.
  intros Hclean Herr Hok. unfold planning_step, post, bindM, call_llm, get_logs, lift, append_log.
  destruct first; cbn [logs state llm_calls tool_calls yielded fst snd].
  - destruct (llm_engine cfg _ _ None) as [facts|e] eqn:E1;
      [|apply Herr, (Hclean _ _ _ _ E1)].
    cbn [logs state llm_calls tool_calls yielded fst snd].
    destruct (llm_engine cfg _ _ (Some ["<end_plan>"])) as [plan|e] eqn:E2;
      [|apply Herr, (Hclean _ _ _ _ E2)].
    cbn [logs state llm_calls tool_calls yielded fst snd].
    apply Hok. eexists. split; [reflexivity | split; reflexivity].
  - destruct (write_inner_memory_from_logs (logs s) false is_mistral) as [mem|e] eqn:E0;
      [|apply Herr, (write_inner_memory_raise _ _ _ _ E0)].
    cbn [logs state llm_calls tool_calls yielded fst snd].
    destruct (llm_engine cfg _ _ None) as [facts|e] eqn:E1;
      [|apply Herr, (Hclean _ _ _ _ E1)].
    cbn [logs state llm_calls tool_calls yielded fst snd].
    destruct (llm_engine cfg _ _ (Some ["<end_plan>"])) as [plan|e] eqn:E2;
      [|apply Herr, (Hclean _ _ _ _ E2)].
    cbn [logs state llm_calls tool_calls yielded fst snd].
    apply Hok. eexists. split; [reflexivity | split; reflexivity].
Qed.

Lemma open_not_both (e : log_entry) : open_entry e -> not_both e.
Proof. intros [_ H]. now left. Qed.

Lemma no_error_not_both (e : log_entry) : no_error e -> not_both e.
Proof. intros H. now right. Qed.

(** The step and what follows it in the [try] statement, started on a
    log that [front] brought to [logs s]. *)
Lemma post_after_plan (iteration : Z) (loc : run_locals) (s0 s : agent)
    (planned : list log_entry) :
  logs s = logs s0 ++ planned ->
  List.length planned = (if plans (planning_interval cfg) iteration then 1 else 0) ->
  Forall not_both planned ->
  post (catch_agent
          (r <~ step ;;
           u <~ lift (unpack3 r) ;;
           let '(step_logs, ob, sm) := u in
           let loc' := RunLocals (final_answer loc)
                         (step_observation_logs loc ++ [ob]) (sm_logs loc ++ [sm]) in
           if has_final_answer step_logs
           then fa <~ lift (get_final_answer step_logs) ;;
                ret (RunLocals fa (step_observation_logs loc') (sm_logs loc'))
           else ret loc')
          (fun e => update_last (set_error e) ;;; ret loc))
    s (iteration_post cfg iteration s0).
Proof.
  intros Hl Hlen Hall.
  assert (Hdone : forall P s', (forall e, P e -> not_both e) ->
                               last_entry (logs s) P s' ->
                               forall loc', iteration_post cfg iteration s0 (Ok loc') s').
  { intros P s' HP (e & Hs' & He) loc'. exists (planned ++ [e]).
    rewrite Hs', Hl, <- app_assoc. split; [reflexivity | split].
    - rewrite length_app, Hlen. reflexivity.
    - apply Forall_app. split; [assumption | constructor; [apply HP, He | constructor]]. }
  unfold catch_agent. apply post_catch, post_bind.
  eapply post_weaken; [apply step_ok |].
  intros [r|e] s1 H1; cbn [step_post] in H1.
  - apply post_bind, post_lift.
    destruct (unpack3 r) as [[[step_logs ob] sm]|e] eqn:U.
    + destruct (has_final_answer step_logs).
      * apply post_bind, post_lift.
        destruct step_logs as [e|k]; cbn [get_final_answer].
        -- destruct (e_final_answer e);
             [apply post_ret, (Hdone no_error); [apply no_error_not_both | exact H1] |].
           unfold post. reflexivity.
        -- unfold post. reflexivity.
      * apply post_ret, (Hdone no_error); [apply no_error_not_both | exact H1].
    + unfold post. cbn [fst snd].
      destruct r as [e0|e0 rest]; cbn [unpack3] in U.
      * destruct (entry_keys e0) as [|k1 [|k2 [|k3 [|k4 ks]]]];
          try discriminate; injection U as <-;
          unfold unpack_error; destruct (_ <? _); reflexivity.
      * destruct rest as [|a [|b [|c rest]]];
          try discriminate; injection U as <-;
          unfold unpack_error; destruct (_ <? _); reflexivity.
  - destruct (is_agent_error e) eqn:Ea.
    + specialize (H1 eq_refl). apply post_bind.
      eapply post_update_last with (P := open_entry)
                                   (P' := fun e => e_final_answer e = None);
        [exact H1 | intros e' [_ H]; exact H |].
      intros s2 H2. apply post_ret.
      apply (Hdone (fun e => e_final_answer e = None)); [|exact H2].
      intros e' H. now left.
    + apply post_raise. exact Ea.
Qed.

Lemma post_catch_agent_bind {A B} (m : M A) (k : A -> M B) (h : exn -> M B)
    (s : agent) (Q : res B -> agent -> Prop) :
  post m s (fun r s' => match r with
                        | Ok a => post (catch_agent (k a) h) s' Q
                        | Raise e => post (if is_agent_error e then h e else raise e) s' Q
                        end) ->
  post (catch_agent (bindM m k) h) s Q.
Proof.
  unfold post, catch_agent, catch, bindM. destruct (m s) as [[a|e] s']; simpl; auto.
Qed.

Lemma post_direct_iteration (iteration : Z) (loc : run_locals) (s : agent) :
  post (direct_iteration cfg step task is_mistral iteration loc) s
    (iteration_post cfg iteration s).
Proof.
  unfold direct_iteration. apply post_catch_agent_bind.
  unfold maybe_plan.
  destruct (planning_interval cfg) as [p|] eqn:Ep.
  - assert (Hclean : engine_clean cfg) by (apply engine_ok; discriminate).
    destruct (p =? 0)%Z eqn:E0.
    + apply post_raise. unfold post. reflexivity.
    + destruct (iteration mod p =? 0)%Z eqn:Em.
      * apply post_planning_step; [exact Hclean | |].
        -- intros e s' He. rewrite He. apply post_raise. exact He.
        -- intros s1 (pe & Hs1 & Hpe).
           apply (post_after_plan iteration loc s s1 [pe] Hs1).
           ++ unfold plans. rewrite Ep, E0, Em. reflexivity.
           ++ constructor; [apply open_not_both, Hpe | constructor].
      * apply post_ret. apply (post_after_plan iteration loc s s []).
        -- now rewrite app_nil_r.
        -- unfold plans. rewrite Ep, E0, Em. reflexivity.
        -- constructor.
  - apply post_ret. apply (post_after_plan iteration loc s s []).
    + now rewrite app_nil_r.
    + unfold plans. rewrite Ep. reflexivity.
    + constructor.
Qed.

(** The loop of [direct_run], when it comes to its end: it has added
    one entry for each iteration and one for each planning step, none
    of which has both a final answer and an error. *)
Lemma direct_loop_log (n : nat) : forall (iteration : Z) (loc : run_locals) (s : agent)
    (iteration' : Z) (loc' : run_locals) (s' : agent),
  direct_loop cfg step task is_mistral n iteration loc s = (Ok (iteration', loc'), s') ->
  exists k new,
    iteration' = (iteration + Z.of_nat k)%Z /\ k <= n
    /\ logs s' = logs s ++ new
    /\ List.length new = k + planning_count (planning_interval cfg) iteration k
    /\ Forall not_both new
    /\ (is_None (final_answer loc') = true -> is_None (final_answer loc) = true /\ k = n).
Proof.
  induction n as [|n IH]; intros iteration loc s iteration' loc' s' H.
  - injection H as <- <- <-. exists 0, []. rewrite Z.add_0_r, app_nil_r.
    repeat split; auto.
  - cbn [direct_loop] in H. destruct (is_None (final_answer loc)) eqn:En.
    + unfold bindM in H.
      pose proof (post_direct_iteration iteration loc s) as Hit. unfold post in Hit.
      destruct (direct_iteration cfg step task is_mistral iteration loc s) as [[loc1|e] s1];
        [|discriminate].
      cbn [fst snd iteration_post] in Hit. destruct Hit as (new1 & Hl1 & Hlen1 & Hall1).
      destruct (IH _ _ _ _ _ _ H) as (k & new & -> & Hk & Hl & Hlen & Hall & Hnone).
      exists (S k), (new1 ++ new). split; [lia | split; [lia |]].
      split; [now rewrite Hl, Hl1, <- app_assoc |].
      split; [rewrite length_app, Hlen1, Hlen; cbn [planning_count]; lia |].
      split; [apply Forall_app; now split |].
      intros Hf. destruct (Hnone Hf) as [_ ->]. now split.
    + injection H as <- <- <-. exists 0, []. rewrite Z.add_0_r, app_nil_r.
      repeat split; auto; try lia; try congruence.
Qed.

End DirectLoop.

Lemma planning_count_none (iteration : Z) (k : nat) :
  planning_count None iteration k = 0.
Proof. revert iteration. induction k as [|k IH]; intros i; [reflexivity | apply IH]. Qed.

Lemma planning_count_every (iteration : Z) (k : nat) :
  planning_count (Some 1%Z) iteration k = k.
Proof.
  revert iteration. induction k as [|k IH]; intros i; [reflexivity |].
  cbn [planning_count]. rewrite IH. unfold plans. now rewrite Z.mod_1_r.
Qed.

(** The loop run for [a + b] iterations is the loop run for [a]
    iterations and then for [b] more: its state after [a] completed
    iterations is what the loop of [a] iterations ends with. *)
Lemma direct_loop_add (cfg : Config) (step : M step_return) (task : string)
    (is_mistral : bool) (a b : nat) : forall iteration loc s,
  direct_loop cfg step task is_mistral (a + b) iteration loc s
  = bindM (direct_loop cfg step task is_mistral a iteration loc)
      (fun il => direct_loop cfg step task is_mistral b (fst il) (snd il)) s.
Proof.
  induction a as [|a IH]; intros iteration loc s; [reflexivity |].
  cbn [Nat.add direct_loop]. destruct (is_None (final_answer loc)) eqn:E.
  - unfold bindM in *.
    destruct (direct_iteration cfg step task is_mistral iteration loc s) as [[loc1|e] s1];
      [apply IH | reflexivity].
  - unfold bindM, ret. cbn [fst snd]. destruct b; cbn [direct_loop]; now rewrite ?E.
Qed.

(** A loop that ends without a final answer has run all its
    iterations. *)
Lemma direct_loop_exhausted (cfg : Config) (step : M step_return) (task : string)
    (is_mistral : bool) (n : nat) : forall iteration loc s iteration' loc' s',
  direct_loop cfg step task is_mistral n iteration loc s = (Ok (iteration', loc'), s') ->
  is_None (final_answer loc') = true ->
  iteration' = (iteration + Z.of_nat n)%Z.
Proof.
  induction n as [|n IH]; intros iteration loc s iteration' loc' s' H Hn.
  - injection H as <- <- <-. lia.
  - cbn [direct_loop] in H. destruct (is_None (final_answer loc)) eqn:E.
    + unfold bindM in H.
      destruct (direct_iteration cfg step task is_mistral iteration loc s) as [[loc1|e] s1];
        [|discriminate].
      rewrite (IH _ _ _ _ _ _ H Hn). lia.
    + injection H as <- <- <-. congruence.
Qed.

(** The planner, whatever the engine: it appends one entry, or it raises
    what the memory builder raised, which is no agent error, or what
    the engine raised, the log being as it was. *)
Lemma post_planning_step_any (cfg : Config) (task : string) (is_mistral first : bool)
    (iteration : Z) (s : agent) (Q : res unit -> agent -> Prop) :
  (forall e s', is_agent_error e = false -> Q (Raise e) s') ->
  (forall e s' n msgs stop,
      llm_engine cfg n msgs stop = Raise e -> logs s' = logs s -> Q (Raise e) s') ->
  (forall s', last_entry (logs s) open_entry s' -> Q (Ok tt) s') ->
  post (planning_step cfg task first iteration is_mistral) s Q.
Proof.
  intros Herr Heng Hok. unfold planning_step, post, bindM, call_llm, get_logs, lift, append_log.
  destruct first; cbn [logs state llm_calls tool_calls yielded fst snd].
  - destruct (llm_engine cfg _ _ None) as [facts|e] eqn:E1;
      [|cbn [fst snd]; eapply Heng; [exact E1 | reflexivity]].
    cbn [logs state llm_calls tool_calls yielded fst snd].
    destruct (llm_engine cfg _ _ (Some ["<end_plan>"])) as [plan|e] eqn:E2;
      [|cbn [fst snd]; eapply Heng; [exact E2 | reflexivity]].
    cbn [logs state llm_calls tool_calls yielded fst snd].
    apply Hok. eexists. split; [reflexivity | split; reflexivity].
  - destruct (write_inner_memory_from_logs (logs s) false is_mistral) as [mem|e] eqn:E0;
      [|apply Herr, (write_inner_memory_raise _ _ _ _ E0)].
    cbn [logs state llm_calls tool_calls yielded fst snd].
    destruct (llm_engine cfg _ _ None) as [facts|e] eqn:E1;
      [|cbn [fst snd]; eapply Heng; [exact E1 | reflexivity]].
    cbn [logs state llm_calls tool_calls yielded fst snd].
    destruct (llm_engine cfg _ _ (Some ["<end_plan>"])) as [plan|e] eqn:E2;
      [|cbn [fst snd]; eapply Heng; [exact E2 | reflexivity]].
    cbn [logs state llm_calls tool_calls yielded fst snd].
    apply Hok. eexists. split; [reflexivity | split; reflexivity].
Qed.

Lemma update_last_empty (f : log_entry -> log_entry) (s : agent) :
  logs s = [] -> update_last f s = (Raise (Exn IndexError "list index out of range"), s).
Proof. intros H. unfold update_last. rewrite H. reflexivity. Qed.

(** One iteration of [direct_run], whatever the engine. *)
Lemma direct_iteration_outcome (cfg : Config) (step : M step_return) (task : string)
    (is_mistral : bool) (Hstep : step_contract step) (iteration : Z) (loc : run_locals)
    (s : agent) :
  post (direct_iteration cfg step task is_mistral iteration loc) s
    (iteration_outcome cfg iteration s).
Proof.
  assert (Hafter : forall s1 planned,
            logs s1 = logs s ++ planned ->
            List.length planned = (if plans (planning_interval cfg) iteration then 1 else 0) ->
            Forall not_both planned ->
            post (catch_agent
                    (r <~ step ;;
                     u <~ lift (unpack3 r) ;;
                     let '(step_logs, ob, sm) := u in
                     let loc' := RunLocals (final_answer loc)
                                   (step_observation_logs loc ++ [ob]) (sm_logs loc ++ [sm]) in
                     if has_final_answer step_logs
                     then fa <~ lift (get_final_answer step_logs) ;;
                          ret (RunLocals fa (step_observation_logs loc') (sm_logs loc'))
                     else ret loc')
                    (fun e => update_last (set_error e) ;;; ret loc))
              s1 (iteration_outcome cfg iteration s)).
  { intros s1 planned H1 H2 H3.
    eapply post_weaken; [exact (post_after_plan cfg step Hstep iteration loc s s1 planned H1 H2 H3)|].
    intros [l|e] s' H; [left; exact H | exact H]. }
  unfold direct_iteration. apply post_catch_agent_bind.
  unfold maybe_plan.
  destruct (planning_interval cfg) as [p|] eqn:Ep.
  - destruct (p =? 0)%Z eqn:E0.
    + apply post_raise. unfold post. reflexivity.
    + destruct (iteration mod p =? 0)%Z eqn:Em.
      * assert (Hplans : plans (planning_interval cfg) iteration = true).
        { unfold plans. rewrite Ep, E0, Em. reflexivity. }
        apply post_planning_step_any.
        -- intros e s' He. rewrite He. apply post_raise. exact He.
        -- intros e s' n msgs stop He Hl. destruct (is_agent_error e) eqn:Ea;
             [|apply post_raise; exact Ea].
           unfold post, bindM.
           destruct (List.rev (logs s)) as [|e0 r] eqn:R.
           ++ assert (L : logs s' = []).
              { rewrite Hl, <- (rev_involutive (logs s)), R. reflexivity. }
              rewrite (update_last_empty _ _ L). reflexivity.
           ++ assert (L : logs s = List.rev r ++ [e0]).
              { rewrite <- (rev_involutive (logs s)), R. reflexivity. }
              rewrite (update_last_snoc _ s' (List.rev r) e0) by (rewrite Hl; exact L).
              cbn [ret fst snd]. right. split; [exact Hplans |].
              exists (List.rev r), e0, e, n, msgs, stop. repeat split; assumption.
        -- intros s1 (pe & Hs1 & Hpe). apply (Hafter s1 [pe] Hs1).
           ++ rewrite <- Ep, Hplans. reflexivity.
           ++ constructor; [apply open_not_both, Hpe | constructor].
      * apply post_ret. apply (Hafter s []).
        -- now rewrite app_nil_r.
        -- unfold plans. rewrite E0, Em. reflexivity.
        -- constructor.
  - apply post_ret. apply (Hafter s []).
    + now rewrite app_nil_r.
    + reflexivity.
    + constructor.
Qed.

(** The length of the log when the loop comes to its end: each
    iteration whose planner failed has added neither the entry of the
    plan nor that of the step. *)
Lemma direct_loop_length (cfg : Config) (step : M step_return) (task : string)
    (is_mistral : bool) (Hstep : step_contract step) (n : nat) :
  forall (iteration : Z) (loc : run_locals) (s : agent)
         (iteration' : Z) (loc' : run_locals) (s' : agent),
  direct_loop cfg step task is_mistral n iteration loc s = (Ok (iteration', loc'), s') ->
  exists k failed,
    iteration' = (iteration + Z.of_nat k)%Z
    /\ failed <= planning_count (planning_interval cfg) iteration k
    /\ List.length (logs s') + 2 * failed
       = List.length (logs s) + k + planning_count (planning_interval cfg) iteration k.
Proof.
  induction n as [|n IH]; intros iteration loc s iteration' loc' s' H.
  - injection H as <- <- <-. exists 0, 0. cbn [planning_count]. repeat split; lia.
  - cbn [direct_loop] in H. destruct (is_None (final_answer loc)) eqn:En.
    + unfold bindM in H.
      pose proof (direct_iteration_outcome cfg step task is_mistral Hstep iteration loc s) as Hit.
      unfold post in Hit.
      destruct (direct_iteration cfg step task is_mistral iteration loc s) as [[loc1|e] s1];
        [|discriminate].
      cbn [fst snd iteration_outcome] in Hit.
      destruct (IH _ _ _ _ _ _ H) as (k & failed & -> & Hf & Hlen).
      destruct Hit as [(new1 & Hl1 & Hlen1 & _) | (Hp & front & e0 & err & _ & _ & _ & _ & _ & Hs & Hs1)].
      * exists (S k), failed. cbn [planning_count].
        rewrite Hl1, length_app, Hlen1 in Hlen. repeat split; lia.
      * exists (S k), (S failed). cbn [planning_count]. rewrite Hp.
        rewrite Hs, length_app. rewrite Hs1, length_app in Hlen. cbn [List.length] in *.
        repeat split; lia.
    + injection H as <- <- <-. exists 0, 0. cbn [planning_count]. repeat split; lia.
Qed.

(** C2 (as amended), for every [step] method that appends one entry and
    sets no error itself, as the three of the sources do, and for every
    engine.  One iteration of [direct_run] that does not leave the loop
    either appends the entry of the step, after the entry of the plan
    when the iteration plans, none of them with both a final answer and
    an error; or, when its planning step raises an agent error, which
    is then one the engine raised, it appends nothing and writes the
    error into the last entry the log had.  So when the loop has
    completed [k] iterations, of which [failed] had their planning
    fail, the log has grown by [k] entries plus one for each iteration
    that plans, less two for each failed one.  With an engine whose
    failures are no agent errors, or without planning, no planning
    fails: the log has grown by exactly [k] entries without planning
    and by [2 * k] when the interval is 1, and none of the entries
    added has both a final answer and an error.  The fallback entry
    written after exhaustion has both. *)
Theorem C2_log_growth (cfg : Config) (step : M step_return) (task : string)
    (is_mistral : bool) :
  step_contract step ->
  (forall iteration loc s,
      post (direct_iteration cfg step task is_mistral iteration loc) s
        (iteration_outcome cfg iteration s))
  /\ (forall n s s' iteration' loc',
        direct_loop cfg step task is_mistral n 0%Z (RunLocals VNone [] []) s
        = (Ok (iteration', loc'), s') ->
        exists k failed,
          iteration' = Z.of_nat k
          /\ failed <= planning_count (planning_interval cfg) 0%Z k
          /\ List.length (logs s') + 2 * failed
             = List.length (logs s) + k + planning_count (planning_interval cfg) 0%Z k
          /\ ((planning_interval cfg <> None -> engine_clean cfg) ->
              exists new,
                logs s' = logs s ++ new
                /\ List.length new = k + planning_count (planning_interval cfg) 0%Z k
                /\ Forall not_both new
                /\ (planning_interval cfg = None ->
                    List.length (logs s') = List.length (logs s) + k)
                /\ (planning_interval cfg = Some 1%Z ->
                    List.length (logs s') = List.length (logs s) + 2 * k)))
  /\ (forall answer, ~ not_both (set_final_answer answer max_iterations_entry)).
Proof.
  intros Hstep. split; [|split].
  - exact (direct_iteration_outcome cfg step task is_mistral Hstep).
  - intros n s s' iteration' loc' H.
    destruct (direct_loop_length cfg step task is_mistral Hstep n _ _ _ _ _ _ H)
      as (k & failed & Hk & Hf & Hlen).
    exists k, failed. rewrite Z.add_0_l in Hk. repeat split; try assumption.
    intros Hclean.
    destruct (direct_loop_log cfg step task is_mistral Hstep Hclean n _ _ _ _ _ _ H)
      as (k' & new & Hk' & _ & Hl & Hlen' & Hall & _).
    assert (k' = k) by lia. subst k'.
    exists new. repeat split; auto.
    + intros E. rewrite Hl, length_app, Hlen', E, planning_count_none. lia.
    + intros E. rewrite Hl, length_app, Hlen', E, planning_count_every. lia.
  - intros answer [H0|H0]; discriminate.
Qed.

(** With planning at every iteration, one completed iteration leaves a
    log of three entries. *)
Lemma C2_counterexample :
  exists loc s',
    direct_loop ex_planning_config
      (ReactCodeSearchAgent_step ex_planning_config ex_search_tool false)
      "What is 2+2?" false 1 0%Z (RunLocals VNone [] []) (ex_started ex_planning_config)
    = (Ok (1%Z, loc), s')
    /\ List.length (logs (ex_started ex_planning_config)) = 1
    /\ List.length (logs s') = 3.
Proof. do 2 eexists. split; [vm_compute; reflexivity | split; vm_compute; reflexivity]. Qed.

(** With planning at every iteration and an engine that raises an
    agent error at its first call, one completed iteration leaves the
    log with its single entry. *)
Lemma C2_log_growth_witness :
  exists k failed,
    1%Z = Z.of_nat k
    /\ failed <= planning_count (planning_interval ex_planner_down_config) 0%Z k
    /\ List.length (logs (snd ex_planner_down_loop)) + 2 * failed
       = List.length (logs (ex_started ex_planner_down_config)) + k
         + planning_count (planning_interval ex_planner_down_config) 0%Z k
    /\ List.length (logs (snd ex_planner_down_loop)) = 1.
Proof.
  destruct (C2_log_growth ex_planner_down_config
              (ReactCodeSearchAgent_step ex_planner_down_config ex_search_tool false)
              "What is 2+2?" false
              (ReactCodeSearchAgent_step_contract ex_planner_down_config ex_search_tool false))
    as (_ & H & _).
  destruct (H 1 (ex_started ex_planner_down_config) (snd ex_planner_down_loop) 1%Z
              (RunLocals VNone [] []) ltac:(vm_compute; reflexivity))
    as (k & failed & Hk & Hf & Hlen & _).
  exists k, failed.
  split; [exact Hk | split; [exact Hf | split; [exact Hlen | vm_compute; reflexivity]]].
Defined.

(** ** Exhaustion and the recovery call *)

(** What [direct_run] does once the loop has ended without a final
    answer: the entry of the exhaustion error, one call of the engine,
    and its outcome written into that entry. *)
Lemma exhaustion_tail (cfg : Config) (task : string) (is_mistral : bool) (s1 : agent)
    (memory : list message) (obs sms : list value) :
  write_inner_memory_from_logs (logs s1 ++ [max_iterations_entry]) false is_mistral
  = Ok memory ->
  let prompt := recovery_prompt task is_mistral memory in
  let answer := recovered_answer (llm_engine cfg (List.length (llm_calls s1)) prompt None) in
  (append_log max_iterations_entry ;;;
   answer <~ provide_final_answer cfg task is_mistral ;;
   let final_answer := VStr answer in
   (if negb (is_None final_answer)
    then update_last (set_final_answer final_answer)
    else ret tt) ;;;
   ret (final_answer, obs, sms)) s1
  = (Ok (VStr answer, obs, sms),
     Agent (logs s1 ++ [set_final_answer (VStr answer) max_iterations_entry])
       (state s1) (llm_calls s1 ++ [(prompt, None)]) (tool_calls s1) (yielded s1)).
Proof.
  intros Hmem prompt answer.
  unfold bindM at 1, append_log. unfold bindM at 1, provide_final_answer.
  unfold bindM at 1, get_logs. cbn [logs state llm_calls tool_calls yielded].
  unfold bindM at 1, lift. rewrite Hmem.
  unfold catch, call_llm. cbn [logs state llm_calls tool_calls yielded].
  fold (recovery_prompt task is_mistral memory). fold prompt.
  unfold answer, recovered_answer.
  destruct (llm_engine cfg (List.length (llm_calls s1)) prompt None) as [a|e];
    unfold ret; cbn [is_None negb]; unfold bindM;
    rewrite (update_last_snoc _ _ (logs s1) max_iterations_entry) by reflexivity;
    reflexivity.
Qed.

(** C7 (as amended): when the loop of [direct_run] ends without a final
    answer, the run appends the entry of the exhaustion error and calls
    the engine once more, on the memory of the whole log; what that call
    returns, or, when it fails, the text [Error in generating final llm
    output: ...] made of its failure, is the final answer of the run and
    is written into that last entry next to the exhaustion error. *)
Theorem C7_recovery_after_exhaustion (cfg : Config) (step : M step_return) (task : string)
    (is_mistral : bool) (s s1 : agent) (iteration : Z) (loc : run_locals)
    (memory : list message) :
  (0 <= max_iterations cfg)%Z ->
  direct_loop cfg step task is_mistral (Z.to_nat (max_iterations cfg)) 0%Z
    (RunLocals VNone [] []) s = (Ok (iteration, loc), s1) ->
  is_None (final_answer loc) = true ->
  write_inner_memory_from_logs (logs s1 ++ [max_iterations_entry]) false is_mistral
  = Ok memory ->
  let prompt := recovery_prompt task is_mistral memory in
  let answer := recovered_answer (llm_engine cfg (List.length (llm_calls s1)) prompt None) in
  direct_run cfg step task is_mistral s
  = (Ok (VStr answer, step_observation_logs loc, sm_logs loc),
     Agent (logs s1 ++ [set_final_answer (VStr answer) max_iterations_entry])
       (state s1) (llm_calls s1 ++ [(prompt, None)]) (tool_calls s1) (yielded s1))
  /\ (forall e, llm_engine cfg (List.length (llm_calls s1)) prompt None = Raise e ->
                answer = "Error in generating final llm output: " +:+ exn_msg e +:+ ".")
  /\ (forall a, llm_engine cfg (List.length (llm_calls s1)) prompt None = Ok a -> answer = a).
Proof.
  intros Hmax Hloop Hnone Hmem prompt answer.
  pose proof (direct_loop_exhausted _ _ _ _ _ _ _ _ _ _ _ Hloop Hnone) as Hit.
  split; [|split; intros x Hx; unfold answer; now rewrite Hx].
  unfold direct_run, bindM at 1. rewrite Hloop. cbn [fst snd].
  rewrite Hnone, Hit, Z.add_0_l, Z2Nat.id, Z.eqb_refl by assumption. cbn [andb].
  exact (exhaustion_tail cfg task is_mistral s1 memory _ _ Hmem).
Qed.

(** The recovery call of the stuck agent fails, and the run still ends
    with a final answer. *)
Lemma C7_counterexample :
  llm_engine ex_stuck_config 2 = (fun _ _ => Raise (Exn OtherException "connection lost"))
  /\ fst (run ex_stuck_config (ReactJsonAgent_step ex_stuck_config) "What is 2+2?" false
            false true [] new_agent)
     = Ok (Some (VStr "Error in generating final llm output: connection lost.", [], [])).
Proof. split; vm_compute; reflexivity. Qed.

Lemma C7_recovery_after_exhaustion_witness :
  direct_run ex_stuck_config (ReactJsonAgent_step ex_stuck_config) "What is 2+2?" false
    (ex_started ex_stuck_config)
  = (Ok (VStr "Error in generating final llm output: connection lost.", [], []),
     Agent (logs (snd ex_stuck_loop)
              ++ [set_final_answer
                    (VStr "Error in generating final llm output: connection lost.")
                    max_iterations_entry])
       (state (snd ex_stuck_loop))
       (llm_calls (snd ex_stuck_loop)
          ++ [(recovery_prompt "What is 2+2?" false ex_stuck_memory, None)])
       (tool_calls (snd ex_stuck_loop)) (yielded (snd ex_stuck_loop))).
Proof.
  exact (proj1 (C7_recovery_after_exhaustion ex_stuck_config
                  (ReactJsonAgent_step ex_stuck_config)
                  "What is 2+2?" false (ex_started ex_stuck_config) (snd ex_stuck_loop) 2%Z
                  (RunLocals VNone [] []) ex_stuck_memory
                  ltac:(vm_compute; discriminate) ltac:(vm_compute; reflexivity) eq_refl
                  ltac:(vm_compute; reflexivity))).
Defined.

(** The specification's scenario: budget 2 and a parser that always
    fails give a log of four entries, whose last one holds the exhaustion
    error and, as its final answer, the output of the recovery call. *)
Example stuck_parser_scenario :
  fst ex_recovered_run = Ok (Some (VStr "4, I think", [], []))
  /\ List.length (logs (snd ex_recovered_run)) = 4
  /\ List.length (llm_calls (snd ex_recovered_run)) = 3
  /\ (exists front, logs (snd ex_recovered_run)
                    = front ++ [set_final_answer (VStr "4, I think") max_iterations_entry]).
Proof.
  split; [vm_compute; reflexivity | split; [vm_compute; reflexivity | split]].
  - vm_compute; reflexivity.
  - exists (removelast (logs (snd ex_recovered_run))). vm_compute; reflexivity.
Qed.

(** C1, for the structured-call variant: whatever the configuration and
    the agent, a step that returns hands back its dictionary of five
    keys, which the loop of direct mode cannot unpack into its three
    names, nor the loop of streaming mode into its two: both raise a
    [ValueError], which is no agent error and leaves the loop.  On a run
    with a budget of one step where the model asks for the search tool,
    the step runs the tool and records the observation, and the run ends
    there with that [ValueError]: one step entry, no entry for the
    exhaustion error, no recovery call. *)
Theorem C1_structured_call_run_aborts :
  (forall (cfg : Config) (s : agent),
     match fst (ReactJsonAgent_step cfg s) with
     | Ok r =>
         unpack3 r = Raise (Exn ValueError "too many values to unpack (expected 3)")
         /\ unpack2 r = Raise (Exn ValueError "too many values to unpack (expected 2)")
     | Raise _ => True
     end)
  /\ is_agent_error (Exn ValueError "too many values to unpack (expected 3)") = false
  /\ fst ex_json_direct = Raise (Exn ValueError "too many values to unpack (expected 3)")
  /\ map entry_keys (logs (snd ex_json_direct))
     = [["system_prompt"; "task"];
        ["agent_memory"; "llm_output"; "rationale"; "tool_call"; "observation"]]
  /\ List.length (llm_calls (snd ex_json_direct)) = 1
  /\ tool_calls (snd ex_json_direct) = [("search", Keywords [("query", VStr "x")])]
  /\ fst ex_json_stream = Raise (Exn ValueError "too many values to unpack (expected 2)")
  /\ List.length (logs (snd ex_json_stream)) = 2
  /\ List.length (llm_calls (snd ex_json_stream)) = 1.
Proof.
  split.
  - intros cfg s. pose proof (ReactJsonAgent_step_returns_dict cfg s) as H.
    unfold post in H. destruct (fst (ReactJsonAgent_step cfg s)) as [[e|e rest]|e]; [| |exact I].
    + now apply five_keys_unpack.
    + destruct H.
  - repeat split; vm_compute; reflexivity.
Qed.

(** ** The final-answer pseudo-tool *)

Lemma final_answer_of_state_key (st : gmap string value) (d : list (string * value))
    (key : string) (x : value) :
  PyVal.dict_get "answer" d = Some (VStr key) -> st !! key = Some x ->
  final_answer_of st (VDict d) = x.
Proof. intros Hd Hst. unfold final_answer_of. rewrite Hd. simpl. now rewrite Hst. Qed.

Lemma final_answer_of_no_answer (st : gmap string value) (d : list (string * value)) :
  PyVal.dict_get "answer" d = None -> final_answer_of st (VDict d) = VDict d.
Proof. intros Hd. unfold final_answer_of. now rewrite Hd. Qed.

Lemma final_answer_of_other (st : gmap string value) (arguments : value) :
  (forall d, arguments <> VDict d) -> final_answer_of st arguments = arguments.
Proof. intros H. destruct arguments; try reflexivity. now destruct (H d). Qed.

(** C10: when the parsed action names [final_answer], the step of the
    structured-call variant records as [final_answer] the state's value
    for an argument mapping whose [answer] is a string that is a key of
    the state, and the argument itself for a mapping without [answer]
    and for an argument that is no mapping; it records no observation,
    invokes no tool and leaves the state as it is. *)
Theorem C10_final_answer_pseudo_tool (cfg : Config) (s : agent)
    (agent_memory : list message) (llm_output rationale action : string)
    (arguments : value) :
  write_inner_memory_from_logs (logs s) false false = Ok agent_memory ->
  llm_engine cfg (List.length (llm_calls s)) agent_memory step_stop_sequences
  = Ok llm_output ->
  extract_action llm_output "Action:" = Ok (rationale, action) ->
  tool_parser cfg action = Ok (VStr "final_answer", arguments) ->
  let entry :=
    set_final_answer (final_answer_of (state s) arguments)
      (set_tool_call (VStr "final_answer", arguments)
         (set_rationale rationale
            (set_llm_output llm_output (set_agent_memory agent_memory empty_entry)))) in
  ReactJsonAgent_step cfg s
  = (Ok (RetDict entry),
     Agent (logs s ++ [entry]) (state s)
       (llm_calls s ++ [(agent_memory, step_stop_sequences)]) (tool_calls s) (yielded s))
  /\ e_observation entry = None
  /\ (forall d key x,
        arguments = VDict d -> PyVal.dict_get "answer" d = Some (VStr key) ->
        state s !! key = Some x -> e_final_answer entry = Some x)
  /\ (forall d, arguments = VDict d -> PyVal.dict_get "answer" d = None ->
                e_final_answer entry = Some arguments)
  /\ ((forall d, arguments <> VDict d) -> e_final_answer entry = Some arguments).
Proof.
  intros Hmem Hllm Hext Hparse entry. split; [|split; [reflexivity | split; [|split]]].
  - unfold ReactJsonAgent_step. unfold bindM at 1. rewrite begin_step_eq, Hmem, Hllm.
    unfold bindM at 1, lift. rewrite Hext. cbn [fst snd].
    unfold bindM at 1, lift, reraise. rewrite Hparse. cbn [fst snd PyVal.as_str].
    unfold bindM at 1.
    rewrite (update_last_snoc _ _ (logs s) _) by reflexivity.
    cbn [logs state llm_calls tool_calls yielded].
    unfold bindM at 1.
    rewrite (update_last_snoc _ _ (logs s) _) by reflexivity.
    cbn [logs state llm_calls tool_calls yielded].
    change (String.eqb "final_answer" "final_answer") with true. cbv iota.
    unfold bindM at 1, get_state. cbn [logs state llm_calls tool_calls yielded].
    unfold bindM at 1.
    rewrite (update_last_snoc _ _ (logs s) _) by reflexivity.
    cbn [logs state llm_calls tool_calls yielded].
    unfold bindM.
    rewrite (current_entry_snoc _ (logs s) _) by reflexivity.
    reflexivity.
  - intros d key x -> Hd Hst. cbn [entry e_final_answer set_final_answer].
    f_equal. exact (final_answer_of_state_key _ d key x Hd Hst).
  - intros d -> Hd. cbn [entry e_final_answer set_final_answer].
    f_equal. now apply final_answer_of_no_answer.
  - intros H. cbn [entry e_final_answer set_final_answer].
    f_equal. now apply final_answer_of_other.
Qed.

Lemma C10_final_answer_pseudo_tool_witness :
  exists entry s',
    ReactJsonAgent_step ex_final_config ex_final_agent = (Ok (RetDict entry), s')
    /\ e_final_answer entry = Some ex_image
    /\ tool_calls s' = [].
Proof.
  destruct (C10_final_answer_pseudo_tool ex_final_config ex_final_agent
              [Message SYSTEM "You are an agent. <<tool_descriptions>>";
               Message USER "Task: What is 2+2?"]
              ex_output_final ("Thought: done" +:+ nl)
              (nl +:+ "{" +:+ quoted "action" +:+ ": " +:+ quoted "final_answer" +:+ ", "
                  +:+ quoted "action_input" +:+ ": {" +:+ quoted "answer" +:+ ": "
                  +:+ quoted "image.png" +:+ "}}")
              (VDict [("answer", VStr "image.png")])
              ltac:(vm_compute; reflexivity) ltac:(vm_compute; reflexivity)
              ltac:(vm_compute; reflexivity) ltac:(vm_compute; reflexivity))
    as (Hstep & _ & Hkey & _).
  do 2 eexists. split; [exact Hstep | split; [|reflexivity]].
  apply (Hkey [("answer", VStr "image.png")] "image.png" ex_image eq_refl eq_refl).
  vm_compute; reflexivity.
Defined.

Lemma C4_execute_tool_call_witness :
  execute_tool_call ex_json_config (fun _ => ret tt) (VStr "translate") (VStr "2+2")
    ex_image_agent
  = (Raise (Exn AgentExecutionError
              "Error: unknown tool translate, should be instead one of ['search', 'echo', 'final_answer']."),
     ex_image_agent)
  /\ execute_tool_call ex_json_config (fun _ => ret tt) (VStr "echo")
       (VDict [("x", VStr "image.png")]) ex_image_agent
     = (Ok ex_image, with_tool_call ex_image_agent "echo" (Keywords [("x", ex_image)]))
  /\ execute_tool_call ex_json_config (fun _ => ret tt) (VStr "echo") (VStr "2+2")
       ex_image_agent
     = (Raise (execution_error (Exn TypeError "echo() takes the keyword argument x")
                 ex_echo_tool),
        with_tool_call ex_image_agent "echo" (Positional (VStr "2+2"))).
Proof.
  destruct (C4_execute_tool_call ex_json_config ex_image_agent) as (H1 & H2 & H3 & _).
  split; [|split].
  - exact (proj1 (H1 "translate" (VStr "2+2") ltac:(vm_compute; reflexivity))).
  - exact (proj1 (H3 "echo" ex_echo_tool [("x", VStr "image.png")]
                    ltac:(vm_compute; reflexivity))).
  - exact (H2 "echo" ex_echo_tool "2+2" ltac:(vm_compute; reflexivity)).
Defined.

(** ** Runs that exhaust their budget *)

Lemma well_started_memory (s : agent) (summary_mode is_mistral : bool) :
  well_started s ->
  exists memory, write_inner_memory_from_logs (logs s) summary_mode is_mistral = Ok memory.
Proof.
  intros (e0 & rest & sp & t & Hl & Hsp & Ht).
  unfold write_inner_memory_from_logs. rewrite Hl, Hsp, Ht. eauto.
Qed.

Lemma well_started_grows (s s' : agent) (new : list log_entry) :
  logs s' = logs s ++ new -> well_started s -> well_started s'.
Proof.
  intros Hl (e0 & rest & sp & t & Hs & Hsp & Ht).
  exists e0, (rest ++ new), sp, t. rewrite Hl, Hs. auto.
Qed.

(** The search variant fits the loop of [direct_run], and gives it no
    final answer when the engine never words one. *)
Lemma ReactCodeSearchAgent_step_fruitless (cfg : Config) (search_tool : Tool)
    (is_mistral : bool) :
  never_final cfg -> fruitless (ReactCodeSearchAgent_step cfg search_tool is_mistral).
Proof.
  intros Hnever s Hs. destruct (well_started_memory s false is_mistral Hs) as [mem Hmem].
  unfold post.
  destruct (ReactCodeSearchAgent_step cfg search_tool is_mistral s) as [r s'] eqn:E.
  cbn [fst snd]. unfold ReactCodeSearchAgent_step in E. unfold bindM at 1 in E.
  rewrite begin_step_eq, Hmem in E.
  destruct (llm_engine cfg (List.length (llm_calls s)) mem step_stop_sequences)
    as [out|e] eqn:Hllm.
  - unfold bindM at 1 in E.
    destruct (split_search out) as [[rationale search_query]|] eqn:Hsplit.
    + unfold bindM at 1 in E.
      rewrite (update_last_snoc _ _ (logs s) _) in E by reflexivity.
      cbn [logs state llm_calls tool_calls yielded] in E. unfold bindM at 1 in E.
      rewrite (update_last_snoc _ _ (logs s) _) in E by reflexivity.
      cbn [logs state llm_calls tool_calls yielded] in E.
      unfold bindM at 1, catch, invoke in E.
      cbn [logs state llm_calls tool_calls yielded] in E.
      destruct (tool_call search_tool (Positional (VStr search_query))) as [res|e].
      * rewrite (update_last_snoc _ _ (logs s) _) in E by reflexivity.
        cbn [logs state llm_calls tool_calls yielded] in E. unfold bindM in E.
        rewrite (current_entry_snoc _ (logs s) _) in E by reflexivity.
        injection E as <- <-.
        eexists _, mem. do 4 (split; [reflexivity |]). left. eauto.
      * injection E as <- <-.
        eexists _, mem. do 4 (split; [reflexivity |]). right.
        eexists. repeat split; discriminate.
    + rewrite (Hnever _ _ _ Hllm Hsplit) in E.
      rewrite (update_last_snoc _ _ (logs s) _) in E by reflexivity.
      cbn [logs state llm_calls tool_calls yielded] in E. unfold bindM in E.
      rewrite (current_entry_snoc _ (logs s) _) in E by reflexivity.
      injection E as <- <-.
      eexists _, mem. do 4 (split; [reflexivity |]). left. eauto.
  - injection E as <- <-.
    eexists _, mem. do 4 (split; [reflexivity |]). right.
    eexists. repeat split; discriminate.
Qed.

(** So does the structured-call variant when its parser refuses every
    action: each of its steps raises an agent error. *)
Lemma ReactJsonAgent_step_fruitless (cfg : Config) :
  parser_always_fails cfg -> fruitless (ReactJsonAgent_step cfg).
Proof.
  intros Hfail s Hs. destruct (well_started_memory s false false Hs) as [mem Hmem].
  unfold post.
  destruct (ReactJsonAgent_step cfg s) as [r s'] eqn:E.
  cbn [fst snd]. unfold ReactJsonAgent_step in E. unfold bindM at 1 in E.
  rewrite begin_step_eq, Hmem in E.
  destruct (llm_engine cfg (List.length (llm_calls s)) mem step_stop_sequences)
    as [out|e] eqn:Hllm.
  - unfold bindM at 1, lift in E.
    destruct (extract_action out "Action:") as [ra|e] eqn:Hext.
    + unfold bindM at 1, lift in E. destruct (Hfail (snd ra)) as [e He].
      rewrite He in E. cbn [reraise] in E. injection E as <- <-.
      eexists _, mem. do 4 (split; [reflexivity |]). right.
      eexists. repeat split; discriminate.
    + injection E as <- <-.
      eexists _, mem. do 4 (split; [reflexivity |]). right. exists e.
      unfold extract_action in Hext.
      destruct (List.rev (split "Action:" out)) as [|a [|b l]];
        try discriminate; injection Hext as <-; repeat split; discriminate.
  - injection E as <- <-.
    eexists _, mem. do 4 (split; [reflexivity |]). right.
    eexists. repeat split; discriminate.
Qed.

Section Exhaustion.

Variable cfg : Config.
Variable step : M step_return.
Variable task : string.
Variable is_mistral : bool.

Hypothesis no_planning : planning_interval cfg = None.
Hypothesis step_fruitless : fruitless step.

(** An iteration of such a step leaves the final answer as it was and
    adds one regular entry and one call of the engine. *)
Lemma direct_iteration_fruitless (iteration : Z) (loc : run_locals) (s : agent) :
  well_started s ->
  exists loc' s' e msgs,
    direct_iteration cfg step task is_mistral iteration loc s = (Ok loc', s')
    /\ final_answer loc' = final_answer loc
    /\ logs s' = logs s ++ [e]
    /\ regular_entry e
    /\ llm_calls s' = llm_calls s ++ [(msgs, step_stop_sequences)].
Proof.
  intros Hs. pose proof (step_fruitless s Hs) as Hstep. unfold post in Hstep.
  unfold direct_iteration, maybe_plan. rewrite no_planning.
  unfold catch_agent, catch, bindM at 1, ret. unfold bindM at 1.
  destruct (step s) as [r s1]. cbn [fst snd] in Hstep.
  destruct Hstep as (e & msgs & Hl & Hc & Hfa & Herr & [(ob & sm & ->) | (x & -> & Hx & Hcls)]).
  - unfold bindM, lift, ret. cbn [unpack3 has_final_answer]. rewrite Hfa.
    eexists _, s1, e, msgs. split; [reflexivity |]. split; [reflexivity |].
    split; [exact Hl |]. split; [|exact Hc].
    split; [exact Hfa |]. intros x Hx. congruence.
  - rewrite Hx. unfold bindM, ret.
    rewrite (update_last_snoc _ _ (logs s) e Hl).
    eexists loc, _, (set_error x e), msgs. split; [reflexivity |].
    split; [reflexivity |]. split; [reflexivity |]. split; [|exact Hc].
    split; [exact Hfa |]. intros y Hy. injection Hy as <-. exact Hcls.
Qed.

(** The loop runs all its iterations. *)
Lemma direct_loop_fruitless (n : nat) : forall (iteration : Z) (loc : run_locals) (s : agent),
  well_started s -> is_None (final_answer loc) = true ->
  exists loc' s' new calls,
    direct_loop cfg step task is_mistral n iteration loc s
    = (Ok ((iteration + Z.of_nat n)%Z, loc'), s')
    /\ is_None (final_answer loc') = true
    /\ logs s' = logs s ++ new /\ List.length new = n /\ Forall regular_entry new
    /\ llm_calls s' = llm_calls s ++ calls /\ List.length calls = n
    /\ Forall (fun c => snd c = step_stop_sequences) calls.
Proof.
  induction n as [|n IH]; intros iteration loc s Hs Hnone.
  - exists loc, s, [], []. rewrite Z.add_0_r, !app_nil_r. cbn [direct_loop ret].
    repeat split; auto.
  - cbn [direct_loop]. rewrite Hnone. unfold bindM.
    destruct (direct_iteration_fruitless iteration loc s Hs)
      as (loc1 & s1 & e & msgs & -> & Hfa & Hl & He & Hc).
    assert (Hs1 : well_started s1) by exact (well_started_grows s s1 [e] Hl Hs).
    assert (Hn1 : is_None (final_answer loc1) = true) by now rewrite Hfa.
    destruct (IH (iteration + 1)%Z loc1 s1 Hs1 Hn1)
      as (loc' & s' & new & calls & -> & Hnone' & Hl' & Hlen & Hall & Hc' & Hclen & Hcall).
    exists loc', s', (e :: new), ((msgs, step_stop_sequences) :: calls).
    split; [do 3 f_equal; lia |]. split; [exact Hnone' |].
    split; [now rewrite Hl', Hl, <- app_assoc |].
    split; [cbn; now rewrite Hlen |]. split; [now constructor |].
    split; [now rewrite Hc', Hc, <- app_assoc |].
    split; [cbn; now rewrite Hclen |]. now constructor.
Qed.

(** A run of [direct_run] with such a step, for every budget [N] that is
    not negative: [N] regular entries, then the entry of the exhaustion
    error; [N] calls of the engine for the steps, then the one recovery
    call, whose outcome is the final answer of the run and of that last
    entry. *)
Lemma exhausted_run (s : agent) :
  (0 <= max_iterations cfg)%Z -> well_started s ->
  exists new calls memory obs sms,
    let prompt := recovery_prompt task is_mistral memory in
    let answer :=
      recovered_answer
        (llm_engine cfg (List.length (llm_calls s) + Z.to_nat (max_iterations cfg)) prompt None) in
    exists s2,
      direct_run cfg step task is_mistral s = (Ok (VStr answer, obs, sms), s2)
      /\ logs s2 = logs s ++ new ++ [set_final_answer (VStr answer) max_iterations_entry]
      /\ List.length new = Z.to_nat (max_iterations cfg)
      /\ Forall regular_entry new
      /\ llm_calls s2 = llm_calls s ++ calls ++ [(prompt, None)]
      /\ List.length calls = Z.to_nat (max_iterations cfg)
      /\ Forall (fun c => snd c = step_stop_sequences) calls.
Proof.
  intros Hmax Hs.
  destruct (direct_loop_fruitless (Z.to_nat (max_iterations cfg)) 0%Z (RunLocals VNone [] [])
              s Hs eq_refl)
    as (loc & s1 & new & calls & Hloop & Hnone & Hl & Hlen & Hall & Hc & Hclen & Hcall).
  assert (Hs1 : well_started (Agent (logs s1 ++ [max_iterations_entry]) (state s1)
                                (llm_calls s1) (tool_calls s1) (yielded s1))).
  { apply (well_started_grows s1 _ [max_iterations_entry]); [reflexivity |].
    exact (well_started_grows s s1 new Hl Hs). }
  destruct (well_started_memory _ false is_mistral Hs1) as [memory Hmem].
  cbn [logs] in Hmem.
  exists new, calls, memory, (step_observation_logs loc), (sm_logs loc).
  cbv zeta. eexists. split.
  - unfold direct_run, bindM at 1. rewrite Hloop. cbn [fst snd].
    rewrite Hnone, Z.add_0_l, Z2Nat.id, Z.eqb_refl by assumption. cbn [andb].
    rewrite (exhaustion_tail cfg task is_mistral s1 memory _ _ Hmem).
    rewrite Hc, length_app, Hclen. reflexivity.
  - cbn [logs llm_calls]. rewrite Hl, <- !app_assoc. repeat split; auto.
Qed.

End Exhaustion.

(** A run started by [run], with its log reset, starts the loop on a log
    of one entry, on which the memory builder can work. *)
Lemma start_run_well_started (cfg : Config) (task : string) (kwargs : list (string * value))
    (s : agent) :
  fst (start_run cfg task true kwargs s) = Ok tt ->
  well_started (snd (start_run cfg task true kwargs s))
  /\ List.length (logs (snd (start_run cfg task true kwargs s))) = 1.
Proof.
  unfold start_run, initialize_for_run, bindM, lift, set_logs.
  cbn [logs state llm_calls tool_calls yielded].
  destruct (authorized_imports cfg) as [imports|].
  - destruct (format_prompt_with_imports _ imports) as [sp|e]; cbn [fst snd]; [|discriminate].
    intros _. split; [|reflexivity]. do 4 eexists. cbn [logs]. repeat split; reflexivity.
  - cbn [fst snd]. intros _. split; [|reflexivity].
    do 4 eexists. cbn [logs]. repeat split; reflexivity.
Qed.

(** A run that resets the log, when the prompt is ready: the state is
    set to the keyword arguments and the log to its first entry, with
    the system prompt and the task. *)
Lemma start_run_ready (cfg : Config) (task : string) (kwargs : list (string * value))
    (s : agent) :
  prompt_ready cfg = true ->
  start_run cfg task true kwargs s
  = (Ok tt,
     Agent [LogEntry (Some (run_system_prompt cfg))
              (Some (if 0 <? List.length kwargs
                     then task +:+ nl
                            +:+ "You have been provided with these initial arguments: "
                            +:+ PyVal.repr (VDict kwargs) +:+ "."
                     else task))
              None None None None None None None None None None]
       (list_to_map kwargs) (llm_calls s) (tool_calls s) (yielded s)).
Proof.
  unfold prompt_ready, run_system_prompt, formatted_prompt, start_run, initialize_for_run,
    bindM, lift, set_logs, format_prompt_with_imports.
  cbn [logs state llm_calls tool_calls yielded].
  destruct (authorized_imports cfg) as [imports|]; [|reflexivity].
  intros ->. reflexivity.
Qed.

(** A run of [run] in direct mode on a fresh agent, with a step that
    fits the loop and gives no final answer: the log ends with [N + 2]
    entries, entry 0, [N] regular entries and the entry of the exhaustion
    error with the outcome of the one recovery call. *)
Lemma exhausted_fresh_run (cfg : Config) (step : M step_return) (task : string)
    (is_mistral : bool) (kwargs : list (string * value)) :
  planning_interval cfg = None -> prompt_ready cfg = true ->
  (0 <= max_iterations cfg)%Z -> fruitless step ->
  exists entry0 new calls prompt obs sms s2,
    let answer := recovered_answer
                    (llm_engine cfg (Z.to_nat (max_iterations cfg)) prompt None) in
    run cfg step task is_mistral false true kwargs new_agent
    = (Ok (Some (VStr answer, obs, sms)), s2)
    /\ logs s2 = entry0 :: new ++ [set_final_answer (VStr answer) max_iterations_entry]
    /\ List.length new = Z.to_nat (max_iterations cfg)
    /\ Forall regular_entry new
    /\ List.length (logs s2) = Z.to_nat (max_iterations cfg) + 2
    /\ llm_calls s2 = calls ++ [(prompt, None)]
    /\ List.length calls = Z.to_nat (max_iterations cfg)
    /\ Forall (fun c => snd c = step_stop_sequences) calls.
Proof.
  intros Hplan Hready Hmax Hstep.
  assert (Hstart : fst (start_run cfg task true kwargs new_agent) = Ok tt)
    by now rewrite (start_run_ready cfg task kwargs new_agent Hready).
  destruct (start_run_well_started cfg task kwargs new_agent Hstart) as [Hws Hlen0].
  assert (Hcalls0 : llm_calls (snd (start_run cfg task true kwargs new_agent)) = [])
    by now rewrite (start_run_ready cfg task kwargs new_agent Hready).
  destruct (exhausted_run cfg step task is_mistral Hplan Hstep _ Hmax Hws)
    as (new & calls & memory & obs & sms & s2 & Hrun & Hl & Hlen & Hall & Hc & Hclen & Hcall).
  rewrite Hcalls0 in Hrun, Hl, Hc. cbn [List.length Nat.add app] in Hrun, Hl, Hc.
  destruct (logs (snd (start_run cfg task true kwargs new_agent))) as [|entry0 [|x l]] eqn:E0;
    try discriminate.
  exists entry0, new, calls, (recovery_prompt task is_mistral memory), obs, sms, s2.
  cbv zeta. split; [|split; [exact Hl | split; [exact Hlen | split; [exact Hall |]]]].
  - unfold run, bindM at 1.
    destruct (start_run cfg task true kwargs new_agent) as [r0 s0]. cbn [fst snd] in *.
    subst r0. unfold bindM. rewrite Hrun. reflexivity.
  - split; [rewrite Hl; cbn [List.length app]; rewrite length_app, Hlen; cbn; lia |].
    split; [exact Hc | split; assumption].
Qed.

(** * Further properties of the engine *)

(** ** Splitting and joining *)

Lemma split_go_skip (sep : string) : forall s k,
  split_go sep k s = split_go sep 0 (drop k s).
Proof.
  induction s as [|c s IH]; intros k.
  - now destruct k.
  - destruct k as [|k]; [reflexivity |]. simpl. apply IH.
Qed.

Lemma length_pos (sep : string) : sep <> "" -> 0 < String.length sep.
Proof. destruct sep; [congruence | simpl; lia]. Qed.

(** [split] by the first occurrence. *)
Lemma split_eq (sep : string) : sep <> "" -> forall s,
  split sep s = match find sep s with
                | None => [s]
                | Some n => take n s :: split sep (drop (n + String.length sep) s)
                end.
Proof.
  intros Hsep s. pose proof (length_pos sep Hsep) as Hlen.
  induction s as [|c s IH].
  - rewrite find_empty by assumption. reflexivity.
  - rewrite find_cons. unfold split in *. simpl split_go.
    destruct (startswith sep (String c s)) eqn:E.
    + rewrite split_go_skip.
      replace (drop (0 + String.length sep) (String c s))
        with (drop (String.length sep - 1) s)
        by (destruct (String.length sep) as [|m]; [lia |];
            simpl; now rewrite Nat.sub_0_r).
      simpl take. now destruct (split_go sep 0 (drop (String.length sep - 1) s)).
    + destruct (find sep s) as [m|] eqn:F; simpl option_map.
      * destruct (split_go sep 0 s) as [f r]. simpl. now inversion IH.
      * destruct (split_go sep 0 s) as [f r]. now inversion IH.
Qed.

Lemma drop_length_le (n : nat) : forall s, String.length (drop n s) <= String.length s.
Proof.
  induction n as [|n IH]; intros [|c s]; simpl; try lia.
  specialize (IH s). lia.
Qed.

Lemma find_lt (sep : string) : sep <> "" -> forall s n,
  find sep s = Some n -> String.length (drop (n + String.length sep) s) < String.length s.
Proof.
  intros Hsep s n H. pose proof (length_pos sep Hsep).
  assert (Hs : s <> "") by (intros ->; rewrite find_empty in H; congruence).
  destruct s as [|c s]; [congruence |].
  replace (n + String.length sep) with (S (n + String.length sep - 1)) by lia.
  simpl. pose proof (drop_length_le (n + String.length sep - 1) s). lia.
Qed.

Lemma startswith_decompose (p : string) : forall s,
  startswith p s = true -> s = p +:+ drop (String.length p) s.
Proof.
  induction p as [|a p IH]; intros s H; [now destruct s |].
  destruct s as [|b s]; [discriminate |]. simpl in H.
  destruct (Ascii.eqb a b) eqn:E; [|discriminate].
  apply Ascii.eqb_eq in E. subst b. rewrite append_cons. simpl. f_equal. now apply IH.
Qed.

(** An occurrence cuts the text in three. *)
Lemma find_decompose (sep : string) : forall s n,
  find sep s = Some n ->
  s = take n s +:+ sep +:+ drop (n + String.length sep) s.
Proof.
  induction s as [|c s IH]; intros n H.
  - simpl in H. destruct (startswith sep "") eqn:E; [|discriminate].
    injection H as <-. destruct sep; [reflexivity | discriminate].
  - rewrite find_cons in H. destruct (startswith sep (String c s)) eqn:E.
    + injection H as <-. simpl take. rewrite append_nil_l. simpl Nat.add.
      now apply startswith_decompose.
    + destruct (find sep s) as [m|] eqn:F; [|discriminate].
      injection H as <-. simpl. rewrite append_cons. f_equal. now apply IH.
Qed.

(** Joining the fields with the separator gives the text back. *)
Lemma join_split (sep : string) : sep <> "" -> forall s, join sep (split sep s) = s.
Proof.
  intros Hsep s. remember (String.length s) as k eqn:Hk.
  revert s Hk. induction k as [k IH] using lt_wf_ind. intros s ->.
  rewrite split_eq by assumption. destruct (find sep s) as [n|] eqn:F; [|reflexivity].
  rewrite join_cons.
  pose proof (IH _ (find_lt sep Hsep s n F) _ eq_refl) as Hj.
  destruct (split sep (drop (n + String.length sep) s)) as [|y l] eqn:S.
  - unfold split in S. destruct (split_go sep 0 _). discriminate.
  - rewrite Hj. symmetry. now apply find_decompose.
Qed.

(** The separator occurs in no field. *)
Lemma split_fields (sep : string) : sep <> "" -> forall s,
  Forall (fun f => contains sep f = false) (split sep s).
Proof.
  intros Hsep s. remember (String.length s) as k eqn:Hk.
  revert s Hk. induction k as [k IH] using lt_wf_ind. intros s ->.
  rewrite split_eq by assumption. destruct (find sep s) as [n|] eqn:F.
  - constructor.
    + rewrite contains_find, (find_take_none sep Hsep s n F). reflexivity.
    + exact (IH _ (find_lt sep Hsep s n F) _ eq_refl).
  - constructor; [|constructor]. now rewrite contains_find, F.
Qed.

Lemma join_app (sep : string) (l1 : list string) (x : string) (l2 : list string) :
  join sep (l1 ++ x :: l2)
  = match l1 with
    | [] => join sep (x :: l2)
    | _ => join sep l1 +:+ sep +:+ join sep (x :: l2)
    end.
Proof.
  induction l1 as [|y l1 IH]; [reflexivity |].
  change ((y :: l1) ++ x :: l2) with (y :: (l1 ++ x :: l2)).
  rewrite join_cons, IH. destruct l1 as [|z l1].
  - reflexivity.
  - rewrite (join_cons sep y (z :: l1)). cbn [app]. now rewrite !append_assoc_s.
Qed.

(** ** Extracting the action *)

(** The last two fields of a split, when the separator occurs. *)
Lemma split_last_two (sep s : string) :
  sep <> "" -> contains sep s = true ->
  exists prefix r a front,
    List.rev (split sep s) = a :: r :: front
    /\ s = prefix +:+ r +:+ sep +:+ a
    /\ contains sep r = false
    /\ contains sep a = false
    /\ (prefix = "" \/ exists p, prefix = p +:+ sep).
Proof.
  intros Hsep Hc. rewrite contains_find in Hc.
  destruct (find sep s) as [n|] eqn:F; [|discriminate].
  pose proof (join_split sep Hsep s) as Hjoin.
  pose proof (split_fields sep Hsep s) as Hall.
  destruct (split_occurrence sep Hsep s n F) as (f & g & r & Hs).
  assert (Hrev : split sep s = List.rev (List.rev (split sep s)))
    by now rewrite rev_involutive.
  destruct (List.rev (split sep s)) as [|action [|rationale t]] eqn:R.
  - rewrite Hs in Hrev. discriminate.
  - rewrite Hs in Hrev. discriminate.
  - cbn [List.rev] in Hrev. rewrite <- app_assoc in Hrev. cbn [app] in Hrev.
    rewrite Hrev in Hjoin, Hall.
    apply Forall_app in Hall as [_ Hall].
    apply Forall_cons_iff in Hall as [Hr Hall].
    apply Forall_cons_iff in Hall as [Ha _].
    rewrite join_app in Hjoin. cbn [join] in Hjoin.
    destruct (List.rev t) as [|y l].
    + exists "", rationale, action, t. rewrite append_nil_l. auto 6.
    + exists (join sep (y :: l) +:+ sep), rationale, action, t.
      rewrite append_assoc_s. split; [reflexivity |]. split; [now symmetry |].
      split; [assumption | split; [assumption |]]. right. eauto.
Qed.

(** [extract_action], for a separator that is not empty.  When the
    separator does not occur in the output, the method raises a parsing
    error whose message holds the output.  When it occurs, the method
    returns the last two fields of the split: the output ends with the
    rationale, the separator and the action, in which the separator does
    not occur, and what stands before the rationale is empty or ends
    with the separator. *)
Theorem extract_action_cuts (llm_output split_token : string) :
  split_token <> "" ->
  (contains split_token llm_output = false ->
   exists msg, extract_action llm_output split_token = Raise (Exn AgentParsingError msg)
               /\ occurs_in llm_output msg)
  /\ (contains split_token llm_output = true ->
      exists prefix rationale action,
        extract_action llm_output split_token = Ok (rationale, action)
        /\ llm_output = prefix +:+ rationale +:+ split_token +:+ action
        /\ contains split_token rationale = false
        /\ contains split_token action = false
        /\ (prefix = "" \/ exists p, prefix = p +:+ split_token)).
Proof.
  intros Hsep. unfold extract_action. split; intros Hc.
  - rewrite contains_find in Hc.
    destruct (find split_token llm_output) eqn:F; [discriminate |].
    rewrite (split_no_occurrence _ _ F). cbn [List.rev app].
    eexists. split; [reflexivity |].
    do 6 apply occurs_in_app_r. apply occurs_in_app_l, occurs_in_refl.
  - destruct (split_last_two split_token llm_output Hsep Hc)
      as (prefix & r & a & front & Hrev & Hs & Hr & Ha & Hp).
    rewrite Hrev. exists prefix, r, a. auto 6.
Qed.

Lemma extract_action_cuts_witness :
  exists prefix rationale action,
    extract_action "Thought: a Action: b Thought: c Action: d" "Action:" = Ok (rationale, action)
    /\ "Thought: a Action: b Thought: c Action: d"
       = prefix +:+ rationale +:+ "Action:" +:+ action
    /\ contains "Action:" rationale = false
    /\ contains "Action:" action = false
    /\ (prefix = "" \/ exists p, prefix = p +:+ "Action:").
Proof.
  apply (proj2 (extract_action_cuts "Thought: a Action: b Thought: c Action: d" "Action:"
                  ltac:(discriminate))).
  vm_compute; reflexivity.
Defined.

(** ** The structured block between the outermost braces *)

Lemma rfind_none (sub : string) : forall s, find sub s = None -> rfind sub s = None.
Proof.
  induction s as [|c s IH]; intros H.
  - simpl in *. now destruct (startswith sub "").
  - rewrite find_cons in H. simpl rfind.
    destruct (startswith sub (String c s)); [discriminate |].
    destruct (find sub s); [discriminate |]. now rewrite IH.
Qed.

Lemma find_char_app (c : ascii) (rest : string) : forall pre,
  contains (String c "") pre = false ->
  find (String c "") (pre +:+ String c rest) = Some (String.length pre).
Proof.
  induction pre as [|x pre IH]; intros H.
  - rewrite append_nil_l, find_cons. simpl. now rewrite Ascii.eqb_refl.
  - rewrite contains_find, find_cons in H. rewrite append_cons, find_cons.
    simpl startswith in *. destruct (Ascii.eqb c x); [discriminate |].
    rewrite IH; [reflexivity |]. rewrite contains_find.
    now destruct (find (String c "") pre).
Qed.

Lemma rfind_char_app (c : ascii) (post : string) : forall a,
  contains (String c "") post = false ->
  rfind (String c "") (a +:+ String c post) = Some (String.length a).
Proof.
  intros a H. rewrite contains_find in H.
  induction a as [|x a IH].
  - rewrite append_nil_l. simpl rfind.
    rewrite rfind_none by now destruct (find (String c "") post).
    simpl. now rewrite Ascii.eqb_refl.
  - rewrite append_cons. simpl rfind. now rewrite IH.
Qed.

Lemma drop_app_length (a b : string) : drop (String.length a) (a +:+ b) = b.
Proof. induction a as [|c a IH]; [now destruct b | exact IH]. Qed.

Lemma length_append (a b : string) :
  String.length (a +:+ b) = String.length a + String.length b.
Proof. induction a as [|c a IH]; [reflexivity | simpl; now rewrite <- IH]. Qed.

(** The slice that starts after [pre] and spans the length of [m]. *)
Lemma slice_middle (pre m post : string) :
  slice (Z.of_nat (String.length pre))
    (Z.of_nat (String.length pre + String.length m)) (pre +:+ m +:+ post) = m.
Proof.
  unfold slice, slice_bound. rewrite !length_append.
  destruct (Z.ltb_spec (Z.of_nat (String.length pre)) 0); [lia |].
  destruct (Z.ltb_spec (Z.of_nat (String.length pre + String.length m)) 0); [lia |].
  rewrite !Z.min_r by lia. rewrite !Nat2Z.id.
  replace (String.length pre + String.length m - String.length pre)
    with (String.length m) by lia.
  rewrite drop_app_length. apply take_app_length.
Qed.

(** [parse_json_blob] reads the text from the first opening brace to the
    last closing brace.  A text without a closing brace is refused with
    the message of the failed index, whatever the decoder; the text
    before the first opening brace and the text after the last closing
    brace do not matter, neither to the value nor to the diagnostic. *)
Theorem parse_json_blob_outer_braces (json_loads : string -> json_result) :
  (forall blob,
     contains "}" blob = false ->
     parse_json_blob json_loads blob
     = Raise (Exn ValueError "Error in parsing the JSON blob: list index out of range"))
  /\ (forall pre mid post,
        contains "{" pre = false -> contains "}" post = false ->
        parse_json_blob json_loads (pre +:+ "{" +:+ mid +:+ "}" +:+ post)
        = parse_json_blob json_loads ("{" +:+ mid +:+ "}"))
  /\ (forall pre mid post v,
        contains "{" pre = false -> contains "}" post = false ->
        json_loads (replace ("\" +:+ dq) "'" ("{" +:+ mid +:+ "}")) = JOk v ->
        parse_json_blob json_loads (pre +:+ "{" +:+ mid +:+ "}" +:+ post) = Ok v).
Proof.
  assert (Hcut : forall pre mid post,
            contains "{" pre = false -> contains "}" post = false ->
            find "{" (pre +:+ "{" +:+ mid +:+ "}" +:+ post) = Some (String.length pre)
            /\ rfind "}" (pre +:+ "{" +:+ mid +:+ "}" +:+ post)
               = Some (String.length pre + String.length ("{" +:+ mid))
            /\ slice (Z.of_nat (String.length pre))
                 (Z.of_nat (String.length pre + String.length ("{" +:+ mid)) + 1)
                 (pre +:+ "{" +:+ mid +:+ "}" +:+ post)
               = "{" +:+ mid +:+ "}").
  { intros pre mid post Hpre Hpost. split; [|split].
    - exact (find_char_app "{" (mid +:+ "}" +:+ post) pre Hpre).
    - rewrite <- length_append.
      replace (pre +:+ "{" +:+ mid +:+ "}" +:+ post)
        with ((pre +:+ "{" +:+ mid) +:+ String "}" post)
        by now rewrite !append_assoc_s.
      exact (rfind_char_app "}" post _ Hpost).
    - replace (Z.of_nat (String.length pre + String.length ("{" +:+ mid)) + 1)%Z
        with (Z.of_nat (String.length pre + String.length ("{" +:+ mid +:+ "}")))
        by (rewrite !length_append; simpl String.length; lia).
      replace (pre +:+ "{" +:+ mid +:+ "}" +:+ post)
        with (pre +:+ ("{" +:+ mid +:+ "}") +:+ post)
        by now rewrite !append_assoc_s.
      apply slice_middle. }
  assert (Heq : forall pre mid post,
            contains "{" pre = false -> contains "}" post = false ->
            parse_json_blob json_loads (pre +:+ "{" +:+ mid +:+ "}" +:+ post)
            = parse_json_blob json_loads ("{" +:+ mid +:+ "}")).
  { intros pre mid post Hpre Hpost.
    destruct (Hcut pre mid post Hpre Hpost) as (F & R & S).
    destruct (Hcut "" mid "" eq_refl eq_refl) as (F0 & R0 & S0).
    rewrite !append_nil_l in F0, R0, S0. rewrite append_nil_r in F0, R0, S0.
    unfold parse_json_blob. rewrite F, R, S, F0, R0, S0. reflexivity. }
  split; [|split].
  - intros blob H. unfold parse_json_blob. rewrite contains_find in H.
    rewrite rfind_none by now destruct (find "}" blob). reflexivity.
  - exact Heq.
  - intros pre mid post v Hpre Hpost Hv. rewrite Heq by assumption.
    destruct (Hcut "" mid "" eq_refl eq_refl) as (F0 & R0 & S0).
    rewrite !append_nil_l in F0, R0, S0. rewrite append_nil_r in F0, R0, S0.
    unfold parse_json_blob. rewrite F0, R0, S0, Hv. reflexivity.
Qed.

(** ** Toolbox management *)

Lemma dict_get_set_eq {A} (k : string) (v : A) (d : list (string * A)) :
  PyVal.dict_get k (PyVal.dict_set k v d) = Some v.
Proof.
  induction d as [|[k' v'] d IH]; simpl.
  - now rewrite String.eqb_refl.
  - destruct (String.eqb k k') eqn:E; simpl; [now rewrite String.eqb_refl |].
    now rewrite E.
Qed.

Lemma dict_get_set_neq {A} (k n : string) (v : A) (d : list (string * A)) :
  n <> k -> PyVal.dict_get n (PyVal.dict_set k v d) = PyVal.dict_get n d.
Proof.
  intros Hn. apply String.eqb_neq in Hn.
  induction d as [|[k' v'] d IH]; simpl.
  - now rewrite Hn.
  - destruct (String.eqb k k') eqn:E; simpl.
    + apply String.eqb_eq in E. subst k'. now rewrite Hn.
    + now rewrite IH.
Qed.

Lemma dict_set_new {A} (k : string) (v : A) (d : list (string * A)) :
  PyVal.dict_get k d = None -> PyVal.dict_set k v d = d ++ [(k, v)].
Proof.
  induction d as [|[k' v'] d IH]; simpl; [reflexivity |].
  destruct (String.eqb k k'); [discriminate |]. intros H. now rewrite IH.
Qed.

Lemma dict_keys_set_old {A} (k : string) (v : A) (d : list (string * A)) :
  PyVal.dict_mem k d = true -> PyVal.dict_keys (PyVal.dict_set k v d) = PyVal.dict_keys d.
Proof.
  unfold PyVal.dict_mem, PyVal.dict_keys.
  induction d as [|[k' v'] d IH]; simpl; [discriminate |].
  destruct (String.eqb k k') eqn:E; simpl.
  - apply String.eqb_eq in E. now subst k'.
  - intros H. now rewrite IH.
Qed.

Lemma dict_del_new {A} (k : string) (v : A) (d : list (string * A)) :
  PyVal.dict_get k d = None -> dict_del k (d ++ [(k, v)]) = d.
Proof.
  induction d as [|[k' v'] d IH]; simpl.
  - now rewrite String.eqb_refl.
  - destruct (String.eqb k k'); [discriminate |]. intros H. now rewrite IH.
Qed.

Lemma dict_get_none_keys {A} (k : string) (d : list (string * A)) :
  PyVal.dict_get k d = None <-> ~ In k (PyVal.dict_keys d).
Proof.
  unfold PyVal.dict_keys. induction d as [|[k' v'] d IH]; simpl; [tauto |].
  destruct (String.eqb k k') eqn:E.
  - apply String.eqb_eq in E. subst k'. split; [discriminate | tauto].
  - apply String.eqb_neq in E. rewrite IH. split; [intros H [?|?]; congruence | tauto].
Qed.

Lemma dict_mem_false {A} (k : string) (d : list (string * A)) :
  PyVal.dict_mem k d = false <-> PyVal.dict_get k d = None.
Proof. unfold PyVal.dict_mem. destruct (PyVal.dict_get k d); split; congruence. Qed.

Lemma dict_keys_del {A} (k : string) (d : list (string * A)) :
  forall n, In n (PyVal.dict_keys (dict_del k d)) -> In n (PyVal.dict_keys d).
Proof.
  unfold PyVal.dict_keys. induction d as [|[k' v'] d IH]; simpl; [tauto |].
  intros n. destruct (String.eqb k k'); simpl; [tauto |]. intros [?|?]; auto.
Qed.

Lemma dict_del_nodup {A} (k : string) (d : list (string * A)) :
  List.NoDup (PyVal.dict_keys d) ->
  List.NoDup (PyVal.dict_keys (dict_del k d)) /\ PyVal.dict_get k (dict_del k d) = None.
Proof.
  unfold PyVal.dict_keys. induction d as [|[k' v'] d IH]; simpl; intros H.
  - split; [constructor | reflexivity].
  - apply List.NoDup_cons_iff in H as [Hk' Hd]. destruct (String.eqb k k') eqn:E.
    + apply String.eqb_eq in E. subst k'. split; [assumption |].
      now apply dict_get_none_keys.
    + destruct (IH Hd) as [IH1 IH2]. simpl. rewrite E. split; [|assumption].
      constructor; [|assumption]. intros Hin. apply Hk'.
      exact (dict_keys_del k d k' Hin).
Qed.

Lemma dict_set_ok (k : string) (tool : Tool) (tb : Toolbox) :
  k = tool_name tool -> toolbox_ok tb -> toolbox_ok (PyVal.dict_set k tool tb).
Proof.
  intros Hk [Hall Hnd]. destruct (PyVal.dict_get k tb) eqn:G.
  - split.
    + clear Hnd G. induction tb as [|[k' t'] tb IH]; simpl; [now constructor |].
      apply Forall_cons_iff in Hall as [H1 H2].
      destruct (String.eqb k k'); constructor; auto.
    + rewrite dict_keys_set_old; [assumption |]. unfold PyVal.dict_mem. now rewrite G.
  - rewrite dict_set_new by assumption. split.
    + apply Forall_app. split; [assumption |]. now constructor.
    + unfold PyVal.dict_keys. rewrite map_app. simpl.
      apply List.NoDup_app; [assumption | constructor; [tauto | constructor] |].
      intros x Hx [E|[]]. subst x. now apply (proj1 (dict_get_none_keys k tb)) in G.
Qed.

Lemma Toolbox_init_ok_from (tools : list Tool) : forall acc,
  toolbox_ok acc ->
  toolbox_ok (fold_left (fun d tool => PyVal.dict_set (tool_name tool) tool d) tools acc).
Proof.
  induction tools as [|t tools IH]; intros acc H; [assumption |].
  simpl. apply IH. now apply dict_set_ok.
Qed.

(** A tool that is added can be looked up and removed.  [add_tool] puts
    the tool last and leaves the other names as they were; removing it
    gives the toolbox back; adding it a second time is refused. *)
Theorem add_tool_remove_tool (tb tb' : Toolbox) (tool : Tool) :
  add_tool tb tool = Ok tb' ->
  PyVal.dict_get (tool_name tool) tb' = Some tool
  /\ PyVal.dict_keys tb' = PyVal.dict_keys tb ++ [tool_name tool]
  /\ (forall n, n <> tool_name tool -> PyVal.dict_get n tb' = PyVal.dict_get n tb)
  /\ remove_tool tb' (tool_name tool) = Ok tb
  /\ (exists msg, add_tool tb' tool = Raise (Exn KeyError msg)).
Proof.
  unfold add_tool, remove_tool.
  destruct (PyVal.dict_mem (tool_name tool) tb) eqn:M; [discriminate |].
  intros H. injection H as <-. apply dict_mem_false in M.
  split; [apply dict_get_set_eq |].
  split; [rewrite dict_set_new by assumption; unfold PyVal.dict_keys; now rewrite map_app |].
  split; [intros n Hn; now apply dict_get_set_neq |].
  unfold PyVal.dict_mem. rewrite dict_get_set_eq. cbn [negb].
  split; [|eexists; reflexivity].
  rewrite dict_set_new by assumption. now rewrite dict_del_new.
Qed.

Lemma add_tool_remove_tool_witness :
  PyVal.dict_get "search" [("search", ex_search_tool)] = Some ex_search_tool
  /\ PyVal.dict_keys [("search", ex_search_tool)] = [] ++ ["search"]
  /\ (forall n, n <> "search" ->
        PyVal.dict_get n [("search", ex_search_tool)] = PyVal.dict_get n ([] : Toolbox))
  /\ remove_tool [("search", ex_search_tool)] "search" = Ok []
  /\ (exists msg, add_tool [("search", ex_search_tool)] ex_search_tool
                  = Raise (Exn KeyError msg)).
Proof. exact (add_tool_remove_tool [] _ ex_search_tool eq_refl). Defined.

(** On every toolbox and tool exactly one of [add_tool] and
    [update_tool] goes through.  When the name is taken, [add_tool]
    raises a [KeyError] and [update_tool] puts the tool in the place of
    the old one: the names and their order stay, and so do the other
    tools.  When the name is free, [update_tool] raises a [KeyError] and
    [add_tool] goes through. *)
Theorem update_tool_or_add_tool (tb : Toolbox) (tool : Tool) :
  (PyVal.dict_mem (tool_name tool) tb = true
   /\ (exists msg, add_tool tb tool = Raise (Exn KeyError msg))
   /\ exists tb', update_tool tb tool = Ok tb'
                  /\ PyVal.dict_keys tb' = PyVal.dict_keys tb
                  /\ PyVal.dict_get (tool_name tool) tb' = Some tool
                  /\ forall n, n <> tool_name tool ->
                               PyVal.dict_get n tb' = PyVal.dict_get n tb)
  \/ (PyVal.dict_mem (tool_name tool) tb = false
      /\ (exists tb', add_tool tb tool = Ok tb')
      /\ exists msg, update_tool tb tool = Raise (Exn KeyError msg)).
Proof.
  unfold add_tool, update_tool.
  destruct (PyVal.dict_mem (tool_name tool) tb) eqn:M; cbn [negb]; [left | right].
  - split; [reflexivity |]. split; [eexists; reflexivity |].
    eexists. split; [reflexivity |].
    split; [now apply dict_keys_set_old |].
    split; [apply dict_get_set_eq |]. intros n Hn. now apply dict_get_set_neq.
  - split; [reflexivity |]. split; eexists; reflexivity.
Qed.

(** The toolbox keeps its shape under every operation: each key is the
    name of the tool stored under it and no name occurs twice, from the
    constructor on; after [remove_tool] the name is gone. *)
Theorem toolbox_ok_kept :
  (forall tools, toolbox_ok (Toolbox_init tools))
  /\ (forall tb tool tb', toolbox_ok tb -> add_tool tb tool = Ok tb' -> toolbox_ok tb')
  /\ (forall tb tool tb', toolbox_ok tb -> update_tool tb tool = Ok tb' -> toolbox_ok tb')
  /\ (forall tb name tb',
        toolbox_ok tb -> remove_tool tb name = Ok tb' ->
        toolbox_ok tb' /\ PyVal.dict_get name tb' = None)
  /\ (forall tb, toolbox_ok (clear_toolbox tb)).
Proof.
  split; [|split; [|split; [|split]]].
  - intros tools. apply Toolbox_init_ok_from. split; constructor.
  - intros tb tool tb' Hok. unfold add_tool.
    destruct (PyVal.dict_mem (tool_name tool) tb); [discriminate |].
    intros H. injection H as <-. now apply dict_set_ok.
  - intros tb tool tb' Hok. unfold update_tool.
    destruct (PyVal.dict_mem (tool_name tool) tb); [|discriminate].
    intros H. injection H as <-. now apply dict_set_ok.
  - intros tb name tb' [Hall Hnd]. unfold remove_tool.
    destruct (PyVal.dict_mem name tb); [|discriminate].
    intros H. injection H as <-. destruct (dict_del_nodup name tb Hnd) as [H1 H2].
    split; [split; [|assumption] | assumption].
    clear Hnd H1 H2. induction tb as [|[k' t'] tb IH]; simpl; [constructor |].
    apply Forall_cons_iff in Hall as [Ha Hb].
    destruct (String.eqb name k'); [assumption |]. constructor; auto.
  - intros tb. split; constructor.
Qed.

Lemma dict_mem_set {A} (k n : string) (v : A) (d : list (string * A)) :
  PyVal.dict_mem n (PyVal.dict_set k v d) = PyVal.dict_mem n d || String.eqb k n.
Proof.
  unfold PyVal.dict_mem. destruct (String.eqb k n) eqn:E.
  - apply String.eqb_eq in E. subst n. rewrite dict_get_set_eq. now rewrite orb_true_r.
  - apply String.eqb_neq in E. rewrite dict_get_set_neq by congruence. now rewrite orb_false_r.
Qed.

Lemma Toolbox_init_mem (n : string) (tools : list Tool) : forall acc,
  PyVal.dict_mem n (fold_left (fun d tool => PyVal.dict_set (tool_name tool) tool d) tools acc)
  = PyVal.dict_mem n acc || existsb (fun t => String.eqb (tool_name t) n) tools.
Proof.
  induction tools as [|t tools IH]; intros acc; simpl; [now rewrite orb_false_r |].
  now rewrite IH, dict_mem_set, orb_assoc.
Qed.

Lemma find_snoc {A} (f : A -> bool) (l : list A) (a : A) :
  List.find f (l ++ [a])
  = match List.find f l with
    | Some x => Some x
    | None => if f a then Some a else None
    end.
Proof.
  induction l as [|b l IH]; cbn [List.find app]; [reflexivity |].
  destruct (f b); [reflexivity | exact IH].
Qed.

(** Under a name the constructor keeps the last listed tool that bears
    it. *)
Lemma Toolbox_init_get (n : string) (tools : list Tool) : forall acc,
  PyVal.dict_get n (fold_left (fun d tool => PyVal.dict_set (tool_name tool) tool d) tools acc)
  = match List.find (fun t => String.eqb (tool_name t) n) (List.rev tools) with
    | Some t => Some t
    | None => PyVal.dict_get n acc
    end.
Proof.
  induction tools as [|t tools IH]; intros acc; [reflexivity |].
  cbn [fold_left List.rev]. rewrite IH, find_snoc.
  destruct (List.find _ (List.rev tools)); [reflexivity |].
  destruct (String.eqb (tool_name t) n) eqn:E.
  - apply String.eqb_eq in E. subst n. apply dict_get_set_eq.
  - apply String.eqb_neq in E. apply dict_get_set_neq. congruence.
Qed.

(** Tools of distinct names are kept in the order of the list. *)
Lemma Toolbox_init_distinct (tools : list Tool) : forall acc,
  List.NoDup (PyVal.dict_keys acc ++ map tool_name tools) ->
  fold_left (fun d tool => PyVal.dict_set (tool_name tool) tool d) tools acc
  = acc ++ map (fun t => (tool_name t, t)) tools.
Proof.
  induction tools as [|t tools IH]; intros acc Hnd; cbn [fold_left map];
    [now rewrite app_nil_r |].
  assert (Hnew : PyVal.dict_get (tool_name t) acc = None).
  { apply dict_get_none_keys. intros Hin.
    apply List.NoDup_remove_2 in Hnd. apply Hnd, in_or_app. now left. }
  rewrite (dict_set_new _ _ _ Hnew), IH.
  - rewrite <- app_assoc. reflexivity.
  - unfold PyVal.dict_keys in *. rewrite map_app, <- app_assoc. exact Hnd.
Qed.

(** The toolbox of a new agent built from a list of tools, without the
    base tools.  [Agent.__init__] refuses, with the [KeyError] of
    [add_tool], a list one of whose tools bears the name of the
    final-answer tool.  Otherwise the toolbox has the final-answer tool
    under its name, as its last key, and under every other name the
    last tool of the list that bears it, if there is one: of two listed
    tools of one name the later replaces the earlier.  When the names of
    the list are distinct the toolbox is the list in its order,
    followed by the final-answer tool. *)
Theorem Agent_toolbox_final_answer (tools : list Tool) (FinalAnswerTool : Tool) :
  if existsb (fun t => String.eqb (tool_name t) (tool_name FinalAnswerTool)) tools
  then Agent_toolbox tools FinalAnswerTool
       = Raise (Exn KeyError
                  (PyVal.repr_str ("Error: tool '" +:+ tool_name FinalAnswerTool
                                     +:+ "' already exists in the toolbox.")))
  else exists tb,
         Agent_toolbox tools FinalAnswerTool = Ok tb
         /\ toolbox_ok tb
         /\ PyVal.dict_get (tool_name FinalAnswerTool) tb = Some FinalAnswerTool
         /\ (forall n, n <> tool_name FinalAnswerTool ->
                       PyVal.dict_get n tb
                       = List.find (fun t => String.eqb (tool_name t) n) (List.rev tools))
         /\ PyVal.dict_keys tb
            = PyVal.dict_keys (Toolbox_init tools) ++ [tool_name FinalAnswerTool]
         /\ (List.NoDup (map tool_name tools) ->
             tb = map (fun t => (tool_name t, t)) tools
                    ++ [(tool_name FinalAnswerTool, FinalAnswerTool)]).
Proof.
  unfold Agent_toolbox, add_tool, Toolbox_init.
  rewrite Toolbox_init_mem. cbn [PyVal.dict_mem PyVal.dict_get orb].
  destruct (existsb _ tools) eqn:E; [reflexivity |].
  eexists. split; [reflexivity |].
  assert (Hnone : PyVal.dict_get (tool_name FinalAnswerTool)
                    (fold_left (fun d tool => PyVal.dict_set (tool_name tool) tool d) tools [])
                  = None).
  { apply dict_mem_false. rewrite Toolbox_init_mem. exact E. }
  split; [apply dict_set_ok; [reflexivity |]; apply Toolbox_init_ok_from; split; constructor |].
  split; [apply dict_get_set_eq |]. split; [|split].
  - intros n Hn. rewrite dict_get_set_neq by exact Hn. rewrite Toolbox_init_get.
    destruct (List.find _ (List.rev tools)); reflexivity.
  - rewrite dict_set_new by assumption. unfold PyVal.dict_keys. now rewrite map_app.
  - intros Hnd. rewrite dict_set_new by assumption.
    rewrite (Toolbox_init_distinct tools []) by exact Hnd. reflexivity.
Qed.

(** ** Filling the prompt *)

Lemma replace_go_skip (old new : string) : forall s k,
  replace_go old new k s = replace_go old new 0 (drop k s).
Proof.
  induction s as [|c s IH]; intros k.
  - now destruct k.
  - destruct k as [|k]; [reflexivity |]. simpl. apply IH.
Qed.

(** Nothing to replace: the text stays. *)
Lemma replace_no_occurrence (old new : string) : forall s,
  find old s = None -> replace old new s = s.
Proof.
  unfold replace. induction s as [|c s IH]; intros H; [reflexivity |].
  rewrite find_cons in H. simpl.
  destruct (startswith old (String c s)); [discriminate |].
  destruct (find old s); [discriminate |]. now rewrite IH.
Qed.

(** A text without the first character of a pattern has no occurrence of
    the pattern. *)
Lemma find_none_first_char (c : ascii) (p : string) : forall s,
  contains (String c "") s = false -> find (String c p) s = None.
Proof.
  induction s as [|x s IH]; intros H; [reflexivity |].
  rewrite contains_find, find_cons in H. rewrite find_cons.
  simpl startswith in *. destruct (Ascii.eqb c x); [discriminate |].
  rewrite IH; [reflexivity |]. rewrite contains_find.
  now destruct (find (String c "") s).
Qed.

Lemma contains_char_app (c : ascii) (a b : string) :
  contains (String c "") (a +:+ b) = contains (String c "") a || contains (String c "") b.
Proof.
  induction a as [|x a IH]; [reflexivity |].
  rewrite append_cons, !contains_find, !find_cons. simpl startswith.
  destruct (Ascii.eqb c x); [reflexivity |].
  rewrite !contains_find in IH.
  destruct (find (String c "") (a +:+ b)), (find (String c "") a); simpl in *; congruence.
Qed.

Lemma find_after_no_char (c : ascii) (p : string) (a s : string) :
  contains (String c "") a = false ->
  find (String c p) (a +:+ s)
  = option_map (Nat.add (String.length a)) (find (String c p) s).
Proof.
  induction a as [|x a IH]; intros H.
  - rewrite append_nil_l. now destruct (find (String c p) s).
  - rewrite contains_find, find_cons in H. simpl startswith in H.
    rewrite append_cons, find_cons. simpl startswith.
    destruct (Ascii.eqb c x); [discriminate |].
    rewrite IH by (rewrite contains_find; now destruct (find (String c "") a)).
    now destruct (find (String c p) s).
Qed.

(** The first occurrence of a pattern, after a text without its first
    character, is replaced. *)
Lemma replace_first (c : ascii) (p new b : string) : forall a,
  contains (String c "") a = false ->
  replace (String c p) new (a +:+ String c p +:+ b)
  = a +:+ new +:+ replace (String c p) new b.
Proof.
  unfold replace. induction a as [|x a IH]; intros H.
  - rewrite !append_nil_l. rewrite append_cons. cbn [replace_go].
    change (String c (p +:+ b)) with (String c p +:+ b).
    rewrite startswith_app. rewrite replace_go_skip.
    replace (String.length (String c p) - 1) with (String.length p) by (simpl; lia).
    now rewrite drop_app_length.
  - rewrite contains_find, find_cons in H. simpl startswith in H.
    rewrite !append_cons. cbn [replace_go]. simpl startswith.
    destruct (Ascii.eqb c x) eqn:E; [discriminate |].
    change (String c (p +:+ b)) with (String c p +:+ b).
    rewrite IH; [reflexivity |]. rewrite contains_find.
    now destruct (find (String c "") a).
Qed.

Lemma replace_if_contains (old new p : string) :
  (if contains old p then replace old new p else p) = replace old new p.
Proof.
  destruct (contains old p) eqn:C; [reflexivity |].
  rewrite contains_find in C. symmetry. apply replace_no_occurrence.
  now destruct (find old p).
Qed.

(** [format_prompt_with_tools].  A template without the two tags comes
    back unchanged.  In a template in which the tag of the descriptions
    is the only text with an opening angle bracket, the tag gives way to
    the descriptions of the tools, and the result goes through the
    replacement of the tag of the names: a description that holds that
    tag has it replaced, and nothing else changes when the descriptions
    hold no opening angle bracket.  In a template in which the tag of
    the names is the only text with an opening angle bracket, the tag
    gives way to the quoted names of the toolbox, separated by commas,
    whatever the names.  With both tags, the descriptions first, each
    gives way to its text when the descriptions hold no opening angle
    bracket. *)
Theorem format_prompt_with_tools_placeholders (tb : Toolbox) (template : string) :
  (forall prompt_template,
     contains "<<tool_descriptions>>" prompt_template = false ->
     contains "<<tool_names>>" prompt_template = false ->
     format_prompt_with_tools tb prompt_template template = prompt_template)
  /\ (forall a b,
        contains "<" a = false -> contains "<" b = false ->
        format_prompt_with_tools tb (a +:+ "<<tool_descriptions>>" +:+ b) template
        = replace "<<tool_names>>" (tool_names_text tb)
            (a +:+ show_tool_descriptions tb template +:+ b)
        /\ (contains "<" (show_tool_descriptions tb template) = false ->
            format_prompt_with_tools tb (a +:+ "<<tool_descriptions>>" +:+ b) template
            = a +:+ show_tool_descriptions tb template +:+ b))
  /\ (forall a b,
        contains "<" a = false -> contains "<" b = false ->
        format_prompt_with_tools tb (a +:+ "<<tool_names>>" +:+ b) template
        = a +:+ tool_names_text tb +:+ b)
  /\ (forall a b c,
        contains "<" a = false -> contains "<" b = false -> contains "<" c = false ->
        contains "<" (show_tool_descriptions tb template) = false ->
        format_prompt_with_tools tb
          (a +:+ "<<tool_descriptions>>" +:+ b +:+ "<<tool_names>>" +:+ c) template
        = a +:+ show_tool_descriptions tb template +:+ b +:+ tool_names_text tb +:+ c).
Proof.
  unfold format_prompt_with_tools, tool_names_text.
  assert (Hnames : forall a b,
            contains "<" a = false -> contains "<" b = false ->
            find "<<tool_descriptions>>" (a +:+ "<<tool_names>>" +:+ b) = None).
  { intros a b Ha Hb.
    rewrite (find_after_no_char "<" "<tool_descriptions>>" a _ Ha).
    repeat rewrite append_cons. rewrite append_nil_l. simpl.
    now rewrite (find_none_first_char "<" "<tool_descriptions>>" b Hb). }
  assert (Hput : forall a b new,
            contains "<" a = false -> contains "<" b = false ->
            replace "<<tool_names>>" new (a +:+ "<<tool_names>>" +:+ b) = a +:+ new +:+ b).
  { intros a b new Ha Hb. rewrite (replace_first "<" "<tool_names>>" _ b a Ha).
    now rewrite (replace_no_occurrence _ _ b) by now apply find_none_first_char. }
  split; [|split; [|split]].
  - intros p Hd Hn. rewrite contains_find in Hd.
    rewrite replace_no_occurrence by now destruct (find "<<tool_descriptions>>" p).
    now rewrite Hn.
  - intros a b Ha Hb.
    rewrite (replace_first "<" "<tool_descriptions>>" _ b a Ha).
    rewrite (replace_no_occurrence _ _ b) by now apply find_none_first_char.
    rewrite replace_if_contains. split; [reflexivity |].
    intros Hd. apply replace_no_occurrence, find_none_first_char.
    now rewrite !contains_char_app, Ha, Hb, Hd.
  - intros a b Ha Hb.
    rewrite (replace_no_occurrence _ _ _ (Hnames a b Ha Hb)).
    rewrite replace_if_contains. now apply Hput.
  - intros a b c Ha Hb Hc Hd.
    rewrite (replace_first "<" "<tool_descriptions>>" _ _ a Ha).
    rewrite (replace_no_occurrence _ _ _ (Hnames b c Hb Hc)).
    rewrite replace_if_contains.
    rewrite <- !append_assoc_s.
    rewrite (append_assoc_s _ "<<tool_names>>" c).
    rewrite Hput; [| now rewrite !contains_char_app, Ha, Hb, Hd | exact Hc].
    now rewrite !append_assoc_s.
Qed.

(** ** Starting a run *)

(** [initialize_for_run].  When the variant has no authorized imports,
    or the prompt with the tags of the tools filled has the tag of the
    imports, it returns: the log is one entry, whatever it held before,
    with the keys [system_prompt] and [task], the system prompt being
    that prompt with the tag of the imports replaced; the memory built
    from it is the system prompt followed by the task.  Otherwise it
    raises an [AgentError] and the log is as it was.  The state and the
    records of calls are untouched in both cases. *)
Theorem initialize_for_run_resets (cfg : Config) (task : string) (s : agent) :
  post (initialize_for_run cfg task) s
    (fun r s' =>
       state s' = state s /\ llm_calls s' = llm_calls s /\ tool_calls s' = tool_calls s
       /\ if prompt_ready cfg
          then r = Ok tt
               /\ (exists entry0,
                     logs s' = [entry0]
                     /\ e_system_prompt entry0 = Some (run_system_prompt cfg)
                     /\ e_task entry0 = Some task
                     /\ entry_keys entry0 = ["system_prompt"; "task"])
               /\ write_inner_memory_from_logs (logs s') false false
                  = Ok [Message SYSTEM (run_system_prompt cfg);
                        Message USER ("Task: " +:+ task)]
          else r = Raise (Exn AgentError
                            "Tag '<<authorized_imports>>' should be provided in the prompt.")
               /\ logs s' = logs s
               /\ authorized_imports cfg <> None
               /\ contains "<<authorized_imports>>" (formatted_prompt cfg) = false).
Proof.
  unfold post, initialize_for_run, bindM, lift, set_logs, format_prompt_with_imports,
    prompt_ready, run_system_prompt.
  fold (formatted_prompt cfg).
  destruct (authorized_imports cfg) as [imports|].
  - destruct (contains "<<authorized_imports>>" (formatted_prompt cfg)) eqn:C;
      cbn [negb fst snd logs state llm_calls tool_calls].
    + repeat split. eexists. repeat split.
    + repeat split. discriminate.
  - cbn [fst snd logs state llm_calls tool_calls]. repeat split. eexists. repeat split.
Qed.

(** ** The memory follows the log *)

Lemma steps_messages_app (summary_mode : bool) (l1 l2 : list log_entry) : forall i,
  steps_messages summary_mode i (l1 ++ l2)
  = steps_messages summary_mode i l1
      ++ steps_messages summary_mode (i + List.length l1) l2.
Proof.
  induction l1 as [|e l1 IH]; intros i; simpl.
  - now rewrite Nat.add_0_r.
  - rewrite IH, <- app_assoc.
    now replace (S i + List.length l1) with (i + S (List.length l1)) by lia.
Qed.

Lemma memory_snoc (lg : list log_entry) (e : log_entry)
    (summary_mode is_mistral : bool) (memory : list message) :
  write_inner_memory_from_logs lg summary_mode is_mistral = Ok memory ->
  write_inner_memory_from_logs (lg ++ [e]) summary_mode is_mistral
  = Ok (memory ++ step_messages summary_mode (List.length lg - 1) e).
Proof.
  intros H. unfold write_inner_memory_from_logs in *.
  destruct lg as [|e0 rest]; [discriminate |]. cbn [app].
  destruct (e_system_prompt e0); [|discriminate].
  destruct (e_task e0); [|discriminate].
  injection H as <-. rewrite steps_messages_app. cbn [steps_messages].
  replace (List.length (e0 :: rest) - 1) with (0 + List.length rest) by (simpl; lia).
  now rewrite app_nil_r, app_assoc.
Qed.

(** Appending an entry to the log appends its messages to the memory:
    the messages of the entries before it stay as they are.  The entry
    that comes [k]-th after entry 0 is numbered [k - 1] in the memory;
    when it has an error, the memory ends with the tool response that
    reports this error under that number. *)
Theorem memory_grows_with_log (lg : list log_entry) (e : log_entry)
    (summary_mode is_mistral : bool) (memory : list message) :
  write_inner_memory_from_logs lg summary_mode is_mistral = Ok memory ->
  write_inner_memory_from_logs (lg ++ [e]) summary_mode is_mistral
  = Ok (memory ++ step_messages summary_mode (List.length lg - 1) e)
  /\ (forall err,
        e_error e = Some err ->
        exists front,
          step_messages summary_mode (List.length lg - 1) e
          = front ++ [Message TOOL_RESPONSE
                        ("[OUTPUT OF STEP " +:+ PyVal.repr_int (Z.of_nat (List.length lg - 1))
                           +:+ "] Error: " +:+ exn_msg err +:+ retry_guidance)]).
Proof.
  intros H. split; [now apply memory_snoc |].
  intros err He. unfold step_messages. rewrite He.
  eexists. rewrite !app_assoc. reflexivity.
Qed.

Lemma memory_grows_with_log_witness :
  write_inner_memory_from_logs ([ex_entry0; empty_entry] ++ [ex_entry_both]) false false
  = Ok ([Message SYSTEM "You are an agent. <<tool_descriptions>>";
         Message USER "Task: What is 2+2?"]
          ++ step_messages false (List.length [ex_entry0; empty_entry] - 1) ex_entry_both)
  /\ (forall err,
        e_error ex_entry_both = Some err ->
        exists front,
          step_messages false (List.length [ex_entry0; empty_entry] - 1) ex_entry_both
          = front ++ [Message TOOL_RESPONSE
                        ("[OUTPUT OF STEP "
                           +:+ PyVal.repr_int (Z.of_nat (List.length [ex_entry0; empty_entry] - 1))
                           +:+ "] Error: " +:+ exn_msg err +:+ retry_guidance)]).
Proof. exact (memory_grows_with_log [ex_entry0; empty_entry] ex_entry_both false false _ eq_refl). Defined.

(** ** Succinct logs *)

Lemma filter_key_if {A} (f : string -> bool) (k : string) (o : option A) :
  List.filter f (key_if k o) = if f k then key_if k o else [].
Proof. destruct o; simpl; [|now destruct (f k)]. now destruct (f k). Qed.

Lemma step_messages_succinct (summary_mode : bool) (i : nat) (e : log_entry) :
  step_messages summary_mode i (without_agent_memory e) = step_messages summary_mode i e.
Proof. reflexivity. Qed.

(** [get_succinct_logs] gives as many entries as the log has; each has
    the keys of the log's entry but [agent_memory], in the same order;
    applying it twice changes nothing more; and the memory built from
    the succinct log is the one built from the log. *)
Theorem get_succinct_logs_keeps (lg : list log_entry) :
  List.length (get_succinct_logs lg) = List.length lg
  /\ map entry_keys (get_succinct_logs lg)
     = map (fun e => List.filter (fun k => negb (String.eqb k "agent_memory")) (entry_keys e)) lg
  /\ get_succinct_logs (get_succinct_logs lg) = get_succinct_logs lg
  /\ (forall summary_mode is_mistral,
        write_inner_memory_from_logs (get_succinct_logs lg) summary_mode is_mistral
        = write_inner_memory_from_logs lg summary_mode is_mistral).
Proof.
  unfold get_succinct_logs. split; [apply length_map |]. split; [|split].
  - rewrite map_map. apply map_ext. intros e. unfold entry_keys.
    rewrite !List.filter_app, !filter_key_if. reflexivity.
  - rewrite map_map. apply map_ext. now intros [].
  - intros summary_mode is_mistral. unfold write_inner_memory_from_logs.
    destruct lg as [|e0 rest]; [reflexivity |]. cbn [map].
    cbn [without_agent_memory e_system_prompt e_task].
    destruct (e_system_prompt e0); [|reflexivity].
    destruct (e_task e0); [|reflexivity].
    do 2 f_equal. generalize 0.
    induction rest as [|e rest IH]; intros i; [reflexivity |].
    cbn [map steps_messages]. now rewrite step_messages_succinct, IH.
Qed.

(** ** What the steps hand to the loops *)

Lemma post_bind_raise {A B} (m : M A) (k : A -> M B) (s : agent)
    (Q : res B -> agent -> Prop) :
  (forall e s', Q (Raise e) s') ->
  (forall a s', post (k a) s' Q) ->
  post (bindM m k) s Q.
Proof.
  intros Hr Hk. unfold post, bindM in *. destruct (m s) as [[a|e] s']; [apply Hk | apply Hr].
Qed.

Lemma ReactCodeAgent_step_returns_pair (cfg : Config)
    (python_evaluator : string -> gmap string value -> res value * gmap string value)
    (is_mistral : bool) (s : agent) :
  post (ReactCodeAgent_step cfg python_evaluator is_mistral) s (fun r _ => returns_tuple 2 r).
Proof.
  unfold ReactCodeAgent_step.
  repeat (apply post_bind_raise; [intros; exact I | intros]).
  reflexivity.
Qed.

Lemma ReactCodeSearchAgent_step_returns_triple (cfg : Config) (search_tool : Tool)
    (is_mistral : bool) (s : agent) :
  post (ReactCodeSearchAgent_step cfg search_tool is_mistral) s
    (fun r _ => returns_tuple 3 r).
Proof.
  unfold ReactCodeSearchAgent_step.
  repeat (apply post_bind_raise; [intros; exact I | intros]).
  reflexivity.
Qed.

(** Which step fits which loop.  The step of the code variant returns a
    pair: the loop of streaming mode unpacks it, the loop of direct mode
    raises a [ValueError] on it.  The step of the search variant returns
    a triple: the loop of direct mode unpacks it, the loop of streaming
    mode raises a [ValueError] on it. *)
Theorem step_return_arity :
  (forall cfg python_evaluator is_mistral s,
     match fst (ReactCodeAgent_step cfg python_evaluator is_mistral s) with
     | Ok r =>
         (exists step_logs ob, unpack2 r = Ok (inl step_logs, ob))
         /\ unpack3 r
            = Raise (Exn ValueError "not enough values to unpack (expected 3, got 2)")
     | Raise _ => True
     end)
  /\ (forall cfg search_tool is_mistral s,
        match fst (ReactCodeSearchAgent_step cfg search_tool is_mistral s) with
        | Ok r =>
            (exists step_logs ob sm, unpack3 r = Ok (inl step_logs, ob, sm))
            /\ unpack2 r = Raise (Exn ValueError "too many values to unpack (expected 2)")
        | Raise _ => True
        end).
Proof.
  split.
  - intros cfg ev im s. pose proof (ReactCodeAgent_step_returns_pair cfg ev im s) as H.
    unfold post in H. destruct (fst (ReactCodeAgent_step cfg ev im s)) as [[e|e rest]|e];
      [destruct H | | exact I].
    destruct rest as [|ob [|x l]]; try discriminate H.
    split; [eauto | vm_compute; reflexivity].
  - intros cfg tool im s.
    pose proof (ReactCodeSearchAgent_step_returns_triple cfg tool im s) as H.
    unfold post in H. destruct (fst (ReactCodeSearchAgent_step cfg tool im s)) as [[e|e rest]|e];
      [destruct H | | exact I].
    destruct rest as [|ob [|sm [|x l]]]; try discriminate H.
    split; [eauto | vm_compute; reflexivity].
Qed.

(** ** One step of each variant *)

Lemma last_field_cuts (sep s : string) :
  sep <> "" -> contains sep s = true ->
  exists pre, s = pre +:+ sep +:+ last_field sep s
              /\ contains sep (last_field sep s) = false.
Proof.
  intros Hsep Hc.
  destruct (split_last_two sep s Hsep Hc) as (prefix & r & a & front & Hrev & Hs & _ & Ha & _).
  unfold last_field. rewrite Hrev. cbn [hd].
  exists (prefix +:+ r). split; [now rewrite append_assoc_s | assumption].
Qed.

Lemma first_field_clean (sep s : string) :
  sep <> "" -> contains sep (first_field sep s) = false.
Proof.
  intros Hsep. pose proof (split_fields sep Hsep s) as H. unfold first_field.
  destruct (split sep s) as [|f l]; [now destruct sep |].
  now apply Forall_cons_iff in H as [H _].
Qed.

Lemma extract_action_split (out tok r t : string) :
  tok <> "" -> extract_action out tok = Ok (r, t) ->
  contains tok out = true /\ exists front, List.rev (split tok out) = t :: r :: front.
Proof.
  intros Htok. unfold extract_action. rewrite contains_find.
  destruct (find tok out) eqn:F.
  - destruct (List.rev (split tok out)) as [|a [|b l]]; try discriminate.
    intros H. injection H as <- <-. eauto.
  - rewrite (split_no_occurrence _ _ F). discriminate.
Qed.

Lemma startswith_take_eqb (p : string) : forall s,
  String.eqb (take (String.length p) s) p = startswith p s.
Proof.
  induction p as [|a p IH]; intros s; [now destruct s |].
  destruct s as [|b s]; [reflexivity |]. simpl.
  rewrite (Ascii.eqb_sym b a). destruct (Ascii.eqb a b); [apply IH | reflexivity].
Qed.

Lemma existsb_pointwise {A} (f g : A -> bool) (l : list A) :
  (forall x, f x = g x) -> existsb f l = existsb g l.
Proof. intros H. induction l as [|x l IH]; [reflexivity |]. simpl. now rewrite H, IH. Qed.

(** A step of the structured-call variant that calls a tool with a
    mapping of arguments.  The tool is called once, with the mapping in
    which the names of state variables have given way to their values,
    and the entry's [tool_call] shows that same mapping, not the one the
    parser returned.  A text result is recorded, stripped, as the
    observation; any other result is stored in the state under the name
    of its kind, in the place of what that name held, and the
    observation only says so.  What the tool raises leaves the step as
    an execution error, the entry being without observation. *)
Theorem json_step_runs_tool (cfg : Config) (s : agent) (agent_memory : list message)
    (llm_output rationale action name : string) (kw : list (string * value)) (tool : Tool) :
  write_inner_memory_from_logs (logs s) false false = Ok agent_memory ->
  llm_engine cfg (List.length (llm_calls s)) agent_memory step_stop_sequences = Ok llm_output ->
  extract_action llm_output "Action:" = Ok (rationale, action) ->
  tool_parser cfg action = Ok (VStr name, VDict kw) ->
  String.eqb name "final_answer" = false ->
  PyVal.dict_get name (toolbox cfg) = Some tool ->
  let kw' := substitute_state (state s) kw in
  let parsed :=
    set_tool_call (VStr name, VDict kw')
      (set_rationale rationale
         (set_llm_output llm_output (set_agent_memory agent_memory empty_entry))) in
  let calls := llm_calls s ++ [(agent_memory, step_stop_sequences)] in
  let tools := tool_calls s ++ [(tool_name tool, Keywords kw')] in
  ReactJsonAgent_step cfg s
  = match tool_call tool (Keywords kw') with
    | Raise e =>
        (Raise (execution_error e tool),
         Agent (logs s ++ [parsed]) (state s) calls tools (yielded s))
    | Ok (VObj AgentText text) =>
        let entry := set_observation (VStr (strip text)) parsed in
        (Ok (RetDict entry), Agent (logs s ++ [entry]) (state s) calls tools (yielded s))
    | Ok observation =>
        let stored := observation_name observation in
        let entry :=
          set_observation (VStr ("Stored '" +:+ stored +:+ "' in memory.")) parsed in
        (Ok (RetDict entry),
         Agent (logs s ++ [entry]) (<[stored := observation]> (state s)) calls tools (yielded s))
    end.
Proof.
  intros Hmem Hllm Hext Hparse Hname Htool kw' parsed calls tools.
  unfold ReactJsonAgent_step. unfold bindM at 1. rewrite begin_step_eq, Hmem, Hllm.
  unfold bindM at 1, lift. rewrite Hext. cbn [fst snd].
  unfold bindM at 1, lift, reraise. rewrite Hparse. cbn [fst snd PyVal.as_str].
  unfold bindM at 1.
  rewrite (update_last_snoc _ _ (logs s) _) by reflexivity.
  cbn [logs state llm_calls tool_calls yielded].
  unfold bindM at 1.
  rewrite (update_last_snoc _ _ (logs s) _) by reflexivity.
  cbn [logs state llm_calls tool_calls yielded].
  rewrite Hname.
  unfold bindM at 1, execute_tool_call. cbn [PyVal.as_str]. rewrite Htool.
  unfold catch. unfold bindM at 1, get_state. cbn [logs state llm_calls tool_calls yielded].
  unfold bindM at 1.
  rewrite (update_last_snoc _ _ (logs s) _) by reflexivity.
  cbn [logs state llm_calls tool_calls yielded].
  unfold invoke. cbn [logs state llm_calls tool_calls yielded].
  fold kw'. fold parsed. fold calls. fold tools.
  destruct (tool_call tool (Keywords kw')) as [observation|e]; [|reflexivity].
  assert (Hstore :
    forall info st,
      (update_last (set_observation (VStr info)) ;;;
       current_step_logs <~ current_entry ;; ret (RetDict current_step_logs))
        (Agent (logs s ++ [parsed]) st calls tools (yielded s))
      = (Ok (RetDict (set_observation (VStr info) parsed)),
         Agent (logs s ++ [set_observation (VStr info) parsed]) st calls tools (yielded s))).
  { intros info st. unfold bindM at 1.
    rewrite (update_last_snoc _ _ (logs s) parsed) by reflexivity.
    cbn [logs state llm_calls tool_calls yielded].
    unfold bindM. rewrite (current_entry_snoc _ (logs s) _) by reflexivity.
    reflexivity. }
  destruct observation as [| | | | | |c text];
    try (unfold bindM at 1; unfold bindM at 1, state_set;
         cbn [logs state llm_calls tool_calls yielded]; unfold ret at 1; apply Hstore).
  destruct c;
    try (unfold bindM at 1; unfold bindM at 1, state_set;
         cbn [logs state llm_calls tool_calls yielded]; unfold ret at 1; apply Hstore).
Qed.

Lemma json_step_runs_tool_witness :
  exists entry s',
    ReactJsonAgent_step ex_echo_config ex_final_agent = (Ok (RetDict entry), s')
    /\ e_tool_call entry = Some (VStr "echo", VDict [("x", ex_image)])
    /\ e_observation entry = Some (VStr "Stored 'image.png' in memory.")
    /\ tool_calls s' = [("echo", Keywords [("x", ex_image)])]
    /\ state s' !! "image.png" = Some ex_image.
Proof.
  pose proof (json_step_runs_tool ex_echo_config ex_final_agent
                [Message SYSTEM "You are an agent. <<tool_descriptions>>";
                 Message USER "Task: What is 2+2?"]
                ex_echo_output ("Thought: show it" +:+ nl)
                (nl +:+ "{" +:+ quoted "action" +:+ ": " +:+ quoted "echo" +:+ ", "
                    +:+ quoted "action_input" +:+ ": {" +:+ quoted "x" +:+ ": "
                    +:+ quoted "image.png" +:+ "}}")
                "echo" [("x", VStr "image.png")] ex_echo_tool
                ltac:(vm_compute; reflexivity) ltac:(vm_compute; reflexivity)
                ltac:(vm_compute; reflexivity) ltac:(vm_compute; reflexivity)
                ltac:(vm_compute; reflexivity) ltac:(vm_compute; reflexivity)) as H.
  cbv zeta in H.
  change (substitute_state (state ex_final_agent) [("x", VStr "image.png")])
    with [("x", ex_image)] in H.
  cbn [tool_call ex_echo_tool observation_name ex_image] in H.
  do 2 eexists. split; [exact H |]. repeat split.
Defined.

(** A step of the code variant.  The code is the fenced block of the
    text after the last [Code:], or of the whole output when that marker
    is missing.  When the evaluator returns and has set [print_outputs],
    the printed text is the observation and the step returns it with the
    entry; the value of the evaluation is recorded as the final answer
    exactly when some line of the code starts, in its first column, with
    [final_answer].  When the evaluator raises, or leaves no
    [print_outputs], the step raises an execution error and the entry
    has no observation; the state is the one the evaluator left. *)
Theorem code_step_records (cfg : Config)
    (python_evaluator : string -> gmap string value -> res value * gmap string value)
    (is_mistral : bool) (s : agent) (agent_memory : list message)
    (llm_output code_action : string) (outcome : res value) (st' : gmap string value) :
  write_inner_memory_from_logs (logs s) false is_mistral = Ok agent_memory ->
  llm_engine cfg (List.length (llm_calls s)) agent_memory step_stop_sequences = Ok llm_output ->
  let ra := match extract_action llm_output "Code:" with
            | Ok ra => ra
            | Raise _ => (llm_output, llm_output)
            end in
  parse_code_blob (snd ra) = Ok code_action ->
  python_evaluator code_action (state s) = (outcome, st') ->
  let parsed :=
    set_tool_call (VStr "code interpreter", VStr code_action)
      (set_rationale (fst ra)
         (set_llm_output llm_output (set_agent_memory agent_memory empty_entry))) in
  let calls := llm_calls s ++ [(agent_memory, step_stop_sequences)] in
  ReactCodeAgent_step cfg python_evaluator is_mistral s
  = match outcome, st' !! "print_outputs" with
    | Ok result, Some information =>
        let entry :=
          if existsb (startswith "final_answer") (split nl code_action)
          then set_final_answer result (set_observation information parsed)
          else set_observation information parsed in
        (Ok (RetTuple entry [information]),
         Agent (logs s ++ [entry]) st' calls (tool_calls s) (yielded s))
    | Ok _, None =>
        (Raise (code_execution_error (Exn KeyError "'print_outputs'")),
         Agent (logs s ++ [parsed]) st' calls (tool_calls s) (yielded s))
    | Raise e, _ =>
        (Raise (code_execution_error e),
         Agent (logs s ++ [parsed]) st' calls (tool_calls s) (yielded s))
    end.
Proof.
  intros Hmem Hllm ra Hparse Heval parsed calls.
  unfold ReactCodeAgent_step. unfold bindM at 1. rewrite begin_step_eq, Hmem, Hllm.
  fold ra. unfold bindM at 1, lift, reraise. rewrite Hparse.
  unfold bindM at 1.
  rewrite (update_last_snoc _ _ (logs s) _) by reflexivity.
  cbn [logs state llm_calls tool_calls yielded].
  unfold bindM at 1.
  rewrite (update_last_snoc _ _ (logs s) _) by reflexivity.
  cbn [logs state llm_calls tool_calls yielded].
  fold parsed. fold calls.
  unfold bindM at 1. unfold catch. unfold bindM at 1, run_evaluator.
  cbn [logs state llm_calls tool_calls yielded]. rewrite Heval.
  destruct outcome as [result|e]; [|reflexivity].
  unfold bindM at 1, get_state. cbn [logs state llm_calls tool_calls yielded].
  unfold bindM at 1, lift.
  destruct (st' !! "print_outputs") as [information|]; [|reflexivity].
  unfold bindM at 1.
  rewrite (update_last_snoc _ _ (logs s) _) by reflexivity.
  cbn [logs state llm_calls tool_calls yielded]. unfold ret at 1.
  replace (existsb (fun line => String.eqb (take 12 line) "final_answer") (split nl code_action))
    with (existsb (startswith "final_answer") (split nl code_action))
    by (apply existsb_pointwise; intros l; symmetry;
        exact (startswith_take_eqb "final_answer" l)).
  destruct (existsb (startswith "final_answer") (split nl code_action)).
  - unfold bindM at 1.
    rewrite (update_last_snoc _ _ (logs s) _) by reflexivity.
    cbn [logs state llm_calls tool_calls yielded].
    unfold bindM. rewrite (current_entry_snoc _ (logs s) _) by reflexivity.
    reflexivity.
  - unfold bindM at 1, ret at 1.
    unfold bindM. rewrite (current_entry_snoc _ (logs s) _) by reflexivity.
    reflexivity.
Qed.

Lemma code_step_records_witness :
  exists entry s',
    ReactCodeAgent_step ex_code_config ex_evaluator false ex_final_agent
    = (Ok (RetTuple entry [VStr ""]), s')
    /\ e_tool_call entry = Some (VStr "code interpreter", VStr "final_answer(2 + 2)")
    /\ e_final_answer entry = Some (VInt 4).
Proof.
  pose proof (code_step_records ex_code_config ex_evaluator false ex_final_agent
                [Message SYSTEM "You are an agent. <<tool_descriptions>>";
                 Message USER "Task: What is 2+2?"]
                ex_code_output "final_answer(2 + 2)" (Ok (VInt 4))
                (<["print_outputs" := VStr ""]> ex_state)
                ltac:(vm_compute; reflexivity) ltac:(vm_compute; reflexivity)
                ltac:(vm_compute; reflexivity) ltac:(reflexivity)) as H.
  cbv zeta in H.
  rewrite (lookup_insert_eq ex_state "print_outputs" (VStr "")) in H.
  change (existsb (startswith "final_answer") (split nl "final_answer(2 + 2)"))
    with true in H.
  cbv iota in H.
  do 2 eexists. split; [exact H |]. split; reflexivity.
Defined.

Lemma contains_take (sep : string) : forall s n,
  contains sep s = false -> contains sep (take n s) = false.
Proof.
  intros s n. rewrite !contains_find. revert n.
  induction s as [|c s IH]; intros n H.
  - now destruct n.
  - assert (Hsep : sep <> "") by (intros ->; discriminate H).
    destruct n as [|n]; [simpl take; now rewrite find_empty |].
    rewrite find_cons in H. simpl take. rewrite find_cons.
    destruct (startswith sep (String c s)) eqn:E; [discriminate |].
    destruct (startswith sep (String c (take n s))) eqn:E'.
    + apply (startswith_take sep (S n) (String c s)) in E'. congruence.
    + specialize (IH n). destruct (find sep s); [discriminate |].
      specialize (IH eq_refl). now destruct (find sep (take n s)).
Qed.

Lemma first_field_keeps_clean (sep sep' s : string) :
  sep <> "" -> contains sep' s = false -> contains sep' (first_field sep s) = false.
Proof.
  intros Hsep H. unfold first_field.
  destruct (find sep s) as [n|] eqn:F.
  - rewrite (split_first_field sep Hsep s n F). now apply contains_take.
  - now rewrite (split_no_occurrence sep s F).
Qed.

(** A step of the search variant on an output with the marker
    [Search:].  The query is the text after the last [Search:], up to the
    first [Observation:]; the search tool is called once, on that query;
    its result is the observation, returned with the entry and the
    summarization.  No final answer is recorded, whether or not the
    output words one.  What the tool raises leaves the step as a parsing
    error [Error in searching: ...]. *)
Theorem search_step_with_query (cfg : Config) (search_tool : Tool) (is_mistral : bool)
    (s : agent) (agent_memory : list message) (llm_output rationale tail : string) :
  write_inner_memory_from_logs (logs s) false is_mistral = Ok agent_memory ->
  llm_engine cfg (List.length (llm_calls s)) agent_memory step_stop_sequences = Ok llm_output ->
  extract_action llm_output "Search:" = Ok (rationale, tail) ->
  let search_query := first_field "Observation:" tail in
  let summarization := last_field "Summarization" (first_field "Thought:" rationale) in
  let searching :=
    set_summarization summarization
      (set_rationale (last_field "Thought:" rationale)
         (set_llm_output llm_output (set_agent_memory agent_memory empty_entry))) in
  let calls := llm_calls s ++ [(agent_memory, step_stop_sequences)] in
  let tools := tool_calls s ++ [(tool_name search_tool, Positional (VStr search_query))] in
  ReactCodeSearchAgent_step cfg search_tool is_mistral s
  = match tool_call search_tool (Positional (VStr search_query)) with
    | Ok search_res =>
        let entry := set_observation search_res searching in
        (Ok (RetTuple entry [search_res; VStr summarization]),
         Agent (logs s ++ [entry]) (state s) calls tools (yielded s))
    | Raise e =>
        (Raise (Exn AgentParsingError ("Error in searching: " +:+ exn_msg e +:+ ".")),
         Agent (logs s ++ [searching]) (state s) calls tools (yielded s))
    end
  /\ e_final_answer searching = None
  /\ contains "Search:" search_query = false
  /\ contains "Observation:" search_query = false.
Proof.
  intros Hmem Hllm Hext search_query summarization searching calls tools.
  destruct (extract_action_split llm_output "Search:" rationale tail ltac:(discriminate) Hext)
    as (Hc & front & Hrev).
  split; [|split; [reflexivity | split]].
  - unfold ReactCodeSearchAgent_step. unfold bindM at 1. rewrite begin_step_eq, Hmem, Hllm.
    unfold split_search. rewrite Hc, Hrev.
    unfold bindM at 1. unfold bindM at 1.
    rewrite (update_last_snoc _ _ (logs s) _) by reflexivity.
    cbn [logs state llm_calls tool_calls yielded].
    unfold bindM at 1.
    rewrite (update_last_snoc _ _ (logs s) _) by reflexivity.
    cbn [logs state llm_calls tool_calls yielded].
    unfold bindM at 1, catch, invoke. cbn [logs state llm_calls tool_calls yielded].
    fold search_query. fold summarization. fold searching. fold calls. fold tools.
    destruct (tool_call search_tool (Positional (VStr search_query))) as [search_res|e];
      [|reflexivity].
    rewrite (update_last_snoc _ _ (logs s) _) by reflexivity.
    cbn [logs state llm_calls tool_calls yielded].
    unfold bindM. rewrite (current_entry_snoc _ (logs s) _) by reflexivity.
    reflexivity.
  - apply first_field_keeps_clean; [discriminate |].
    destruct (split_last_two "Search:" llm_output ltac:(discriminate) Hc)
      as (prefix & r & a & front' & Hrev' & _ & _ & Ha & _).
    rewrite Hrev in Hrev'. now injection Hrev' as -> _.
  - apply first_field_clean. discriminate.
Qed.

Lemma search_step_with_query_witness :
  exists entry s',
    ReactCodeSearchAgent_step ex_searching_config ex_search_tool false ex_final_agent
    = (Ok (RetTuple entry [VObj AgentText " 4 "; VStr ": none "]), s')
    /\ tool_calls s' = [("search", Positional (VStr " 2+2 "))]
    /\ e_final_answer entry = None.
Proof.
  pose proof (proj1 (search_step_with_query ex_searching_config ex_search_tool false
                ex_final_agent
                [Message SYSTEM "You are an agent. <<tool_descriptions>>";
                 Message USER "Task: What is 2+2?"]
                ex_search_output "Summarization: none Thought: look it up "
                " 2+2 Observation: made up"
                ltac:(vm_compute; reflexivity) ltac:(vm_compute; reflexivity)
                ltac:(vm_compute; reflexivity))) as H.
  cbv zeta in H.
  change (first_field "Observation:" " 2+2 Observation: made up") with " 2+2 " in H.
  change (last_field "Summarization"
            (first_field "Thought:" "Summarization: none Thought: look it up "))
    with ": none " in H.
  cbn [tool_call ex_search_tool tool_name] in H.
  do 2 eexists. split; [exact H |]. split; reflexivity.
Defined.

Lemma search_step_no_query_eq (cfg : Config) (search_tool : Tool) (is_mistral : bool)
    (s : agent) (agent_memory : list message) (llm_output : string) :
  write_inner_memory_from_logs (logs s) false is_mistral = Ok agent_memory ->
  llm_engine cfg (List.length (llm_calls s)) agent_memory step_stop_sequences = Ok llm_output ->
  contains "Search:" llm_output = false ->
  let started := set_llm_output llm_output (set_agent_memory agent_memory empty_entry) in
  let entry :=
    if contains "Final Answer:" llm_output
    then set_final_answer (VStr (last_field "Final Answer:" llm_output)) started
    else set_rationale llm_output started in
  ReactCodeSearchAgent_step cfg search_tool is_mistral s
  = (Ok (RetTuple entry [VStr ""; VStr ""]),
     Agent (logs s ++ [entry]) (state s)
       (llm_calls s ++ [(agent_memory, step_stop_sequences)]) (tool_calls s) (yielded s)).
Proof.
  intros Hmem Hllm Hs started entry.
  unfold ReactCodeSearchAgent_step. unfold bindM at 1. rewrite begin_step_eq, Hmem, Hllm.
  unfold split_search. rewrite Hs.
  unfold bindM at 1. unfold entry.
  destruct (contains "Final Answer:" llm_output).
  - rewrite (update_last_snoc _ _ (logs s) _) by reflexivity.
    cbn [logs state llm_calls tool_calls yielded].
    unfold bindM. rewrite (current_entry_snoc _ (logs s) _) by reflexivity.
    reflexivity.
  - rewrite (update_last_snoc _ _ (logs s) _) by reflexivity.
    cbn [logs state llm_calls tool_calls yielded].
    unfold bindM. rewrite (current_entry_snoc _ (logs s) _) by reflexivity.
    reflexivity.
Qed.

(** A step of the search variant on an output without the marker
    [Search:].  It calls no tool and raises nothing.  When the output
    holds [Final Answer:], the text after the last such marker, in which
    the marker does not occur, is the final answer; otherwise the whole
    output is recorded as the rationale, and the step returns as if
    nothing were wrong.  The observation and the summarization it returns
    are empty. *)
Theorem search_step_without_query (cfg : Config) (search_tool : Tool) (is_mistral : bool)
    (s : agent) (agent_memory : list message) (llm_output : string) :
  write_inner_memory_from_logs (logs s) false is_mistral = Ok agent_memory ->
  llm_engine cfg (List.length (llm_calls s)) agent_memory step_stop_sequences = Ok llm_output ->
  contains "Search:" llm_output = false ->
  let started := set_llm_output llm_output (set_agent_memory agent_memory empty_entry) in
  let entry :=
    if contains "Final Answer:" llm_output
    then set_final_answer (VStr (last_field "Final Answer:" llm_output)) started
    else set_rationale llm_output started in
  ReactCodeSearchAgent_step cfg search_tool is_mistral s
  = (Ok (RetTuple entry [VStr ""; VStr ""]),
     Agent (logs s ++ [entry]) (state s)
       (llm_calls s ++ [(agent_memory, step_stop_sequences)]) (tool_calls s) (yielded s))
  /\ (contains "Final Answer:" llm_output = true ->
      exists pre,
        llm_output = pre +:+ "Final Answer:" +:+ last_field "Final Answer:" llm_output
        /\ contains "Final Answer:" (last_field "Final Answer:" llm_output) = false).
Proof.
  intros Hmem Hllm Hs started entry. split.
  - exact (search_step_no_query_eq cfg search_tool is_mistral s agent_memory llm_output
             Hmem Hllm Hs).
  - intros Hf. apply last_field_cuts; [discriminate | assumption].
Qed.

Lemma search_step_without_query_witness :
  exists entry s',
    ReactCodeSearchAgent_step ex_answer_config ex_search_tool false ex_final_agent
    = (Ok (RetTuple entry [VStr ""; VStr ""]), s')
    /\ e_final_answer entry = Some (VStr " 4")
    /\ tool_calls s' = [].
Proof.
  pose proof (proj1 (search_step_without_query ex_answer_config ex_search_tool false
                ex_final_agent
                [Message SYSTEM "You are an agent. <<tool_descriptions>>";
                 Message USER "Task: What is 2+2?"]
                ex_answer_output
                ltac:(vm_compute; reflexivity) ltac:(vm_compute; reflexivity)
                ltac:(vm_compute; reflexivity))) as H.
  cbv zeta in H.
  change (contains "Final Answer:" ex_answer_output) with true in H. cbv iota in H.
  change (last_field "Final Answer:" ex_answer_output) with " 4" in H.
  do 2 eexists. split; [exact H |]. split; reflexivity.
Defined.

(** ** A failure of the engine inside a step *)

(** When the engine fails in a step, the step of every variant raises a
    generation error and leaves an entry that holds the memory only.
    The loop of direct mode writes the error into that entry, whose keys
    are then [agent_memory] and [error], keeps its local variables, and
    goes on: the failure costs one iteration and one call. *)
Theorem engine_failure_costs_one_iteration (cfg : Config) (search_tool : Tool)
    (python_evaluator : string -> gmap string value -> res value * gmap string value)
    (task : string) (agent_is_mistral is_mistral : bool) (s : agent)
    (agent_memory : list message) (e : exn) (iteration : Z) (loc : run_locals) :
  planning_interval cfg = None ->
  write_inner_memory_from_logs (logs s) false agent_is_mistral = Ok agent_memory ->
  llm_engine cfg (List.length (llm_calls s)) agent_memory step_stop_sequences = Raise e ->
  let started := set_agent_memory agent_memory empty_entry in
  let calls := llm_calls s ++ [(agent_memory, step_stop_sequences)] in
  let failed := Agent (logs s ++ [started]) (state s) calls (tool_calls s) (yielded s) in
  let error := generation_error e in
  ReactCodeSearchAgent_step cfg search_tool agent_is_mistral s = (Raise error, failed)
  /\ ReactCodeAgent_step cfg python_evaluator agent_is_mistral s = (Raise error, failed)
  /\ (agent_is_mistral = false -> ReactJsonAgent_step cfg s = (Raise error, failed))
  /\ direct_iteration cfg (ReactCodeSearchAgent_step cfg search_tool agent_is_mistral) task
       is_mistral iteration loc s
     = (Ok loc,
        Agent (logs s ++ [set_error error started]) (state s) calls (tool_calls s) (yielded s))
  /\ entry_keys (set_error error started) = ["agent_memory"; "error"].
Proof.
  intros Hplan Hmem Hllm started calls failed error.
  assert (H1 : ReactCodeSearchAgent_step cfg search_tool agent_is_mistral s = (Raise error, failed)).
  { unfold ReactCodeSearchAgent_step. unfold bindM at 1. now rewrite begin_step_eq, Hmem, Hllm. }
  split; [exact H1 |]. split; [|split; [|split; [|reflexivity]]].
  - unfold ReactCodeAgent_step. unfold bindM at 1. now rewrite begin_step_eq, Hmem, Hllm.
  - intros ->. unfold ReactJsonAgent_step. unfold bindM at 1.
    now rewrite begin_step_eq, Hmem, Hllm.
  - unfold direct_iteration, catch_agent, catch. unfold bindM at 1, maybe_plan.
    rewrite Hplan. unfold ret at 1. unfold bindM at 1. rewrite H1.
    change (is_agent_error error) with true. cbv iota.
    unfold bindM. unfold failed.
    rewrite (update_last_snoc _ _ (logs s) started) by reflexivity.
    reflexivity.
Qed.

Lemma engine_failure_costs_one_iteration_witness :
  direct_iteration ex_down_config
    (ReactCodeSearchAgent_step ex_down_config ex_search_tool false) "What is 2+2?" false
    0%Z (RunLocals VNone [] []) ex_final_agent
  = (Ok (RunLocals VNone [] []),
     Agent ([ex_entry0]
              ++ [set_error (generation_error (Exn OtherException "connection lost"))
                    (set_agent_memory
                       [Message SYSTEM "You are an agent. <<tool_descriptions>>";
                        Message USER "Task: What is 2+2?"] empty_entry)])
       ex_state
       ([] ++ [([Message SYSTEM "You are an agent. <<tool_descriptions>>";
                 Message USER "Task: What is 2+2?"], step_stop_sequences)])
       [] []).
Proof.
  exact (proj1 (proj2 (proj2 (proj2
           (engine_failure_costs_one_iteration ex_down_config ex_search_tool ex_evaluator
              "What is 2+2?" false false ex_final_agent
              [Message SYSTEM "You are an agent. <<tool_descriptions>>";
               Message USER "Task: What is 2+2?"]
              (Exn OtherException "connection lost") 0%Z (RunLocals VNone [] [])
              eq_refl eq_refl eq_refl))))).
Defined.

(** ** The loops *)

(** The budget at its edges, whatever the step.  With a negative budget
    neither loop runs and no recovery is tried: [direct_run] returns
    [None] and two empty lists and leaves the agent as it was, and
    [stream_run] yields only that final pair.  With a budget of zero
    [direct_run] goes straight to the entry of the exhaustion error and
    the recovery call. *)
Theorem run_budget_edges (cfg : Config) (step : M step_return) (task : string)
    (is_mistral : bool) (s : agent) :
  ((max_iterations cfg < 0)%Z ->
   direct_run cfg step task is_mistral s = (Ok (VNone, [], []), s)
   /\ stream_run cfg step task is_mistral s
      = (Ok tt, Agent (logs s) (state s) (llm_calls s) (tool_calls s)
                  (yielded s ++ [YFinal VNone []])))
  /\ (max_iterations cfg = 0%Z ->
      forall memory,
        write_inner_memory_from_logs (logs s ++ [max_iterations_entry]) false is_mistral
        = Ok memory ->
        let prompt := recovery_prompt task is_mistral memory in
        let answer :=
          recovered_answer (llm_engine cfg (List.length (llm_calls s)) prompt None) in
        direct_run cfg step task is_mistral s
        = (Ok (VStr answer, [], []),
           Agent (logs s ++ [set_final_answer (VStr answer) max_iterations_entry])
             (state s) (llm_calls s ++ [(prompt, None)]) (tool_calls s) (yielded s))).
Proof.
  split.
  - intros Hneg. unfold direct_run, stream_run.
    replace (Z.to_nat (max_iterations cfg)) with 0 by lia.
    cbn [direct_loop stream_loop]. unfold bindM at 1, ret at 1. cbn [fst snd is_None final_answer andb].
    replace (0 =? max_iterations cfg)%Z with false by (symmetry; apply Z.eqb_neq; lia).
    split; [destruct s; reflexivity |].
    unfold bindM at 1, ret at 1. cbn [fst snd is_None final_answer andb].
    replace (0 =? max_iterations cfg)%Z with false by (symmetry; apply Z.eqb_neq; lia).
    reflexivity.
  - intros Hzero memory Hmem prompt answer. unfold direct_run.
    rewrite Hzero. cbn [Z.to_nat direct_loop]. unfold bindM at 1, ret at 1.
    cbn [fst snd is_None final_answer andb Z.eqb step_observation_logs sm_logs].
    exact (exhaustion_tail cfg task is_mistral s memory [] [] Hmem).
Qed.

(** The step of the search variant hands back, with the entry it
    appended, the observation and the summarization that entry
    records. *)
Lemma ReactCodeSearchAgent_step_records (cfg : Config) (search_tool : Tool)
    (is_mistral : bool) :
  step_records (ReactCodeSearchAgent_step cfg search_tool is_mistral).
Proof.
  intros s. unfold ReactCodeSearchAgent_step.
  apply post_bind, post_begin_step.
  - intros e He H. congruence.
  - intros out s1 H1 _.
    assert (Hend : forall s2, last_entry (logs s) no_error s2 ->
              post (current_step_logs <~ current_entry ;;
                    ret (RetTuple current_step_logs
                           [observation_or_empty current_step_logs;
                            match e_summarization current_step_logs with
                            | Some sm => VStr sm
                            | None => VStr ""
                            end])) s2 (recorded_post (logs s))).
    { intros s2 (e & Hl & He). unfold post, bindM.
      rewrite (current_entry_snoc s2 (logs s) e Hl). cbn [ret fst snd recorded_post].
      exists e. repeat split; assumption. }
    assert (Hopen : forall s2, last_entry (logs s) open_entry s2 ->
                               last_entry (logs s) no_error s2).
    { intros s2 (e & Hl & He & _). exists e. split; assumption. }
    apply post_bind.
    destruct (split_search out) as [[rationale search_query]|].
    + apply post_bind.
      eapply post_update_last with (P' := open_entry); [exact H1 | keep_entry |].
      intros s2 H2. apply post_bind.
      eapply post_update_last with (P' := open_entry); [exact H2 | keep_entry |].
      intros s3 H3. apply post_bind, post_catch.
      apply post_same_logs; [apply invoke_logs |].
      intros [v|e] s4 Hl.
      * eapply post_update_last with (P := open_entry) (P' := open_entry);
          [exact (last_entry_same_logs _ _ _ _ Hl H3) | keep_entry |].
        intros s5 H5. apply Hend, Hopen, H5.
      * apply post_raise. intros _. now apply (last_entry_same_logs _ _ s3 s4).
    + destruct (contains "Final Answer:" out).
      * eapply post_update_last with (P' := no_error);
          [exact H1 | intros e [He _]; exact He |].
        intros s2 H2. apply Hend, H2.
      * eapply post_update_last with (P' := open_entry); [exact H1 | keep_entry |].
        intros s2 H2. apply Hend, Hopen, H2.
  - intros e s' H _. exact H.
Qed.

Section Lists.

Variable cfg : Config.
Variable step : M step_return.
Variable task : string.
Variable is_mistral : bool.

Hypothesis Hstep : step_records step.
Hypothesis Hplan : planning_interval cfg = None.

Lemma direct_iteration_lists (iteration : Z) (loc loc' : run_locals) (s s' : agent) :
  direct_iteration cfg step task is_mistral iteration loc s = (Ok loc', s') ->
  exists e,
    logs s' = logs s ++ [e]
    /\ step_observation_logs loc'
       = step_observation_logs loc ++ map observation_or_empty (List.filter returned [e])
    /\ sm_logs loc'
       = sm_logs loc ++ map summarization_or_empty (List.filter returned [e]).
Proof.
  unfold direct_iteration, catch_agent, catch, maybe_plan. rewrite Hplan.
  unfold bindM at 1, ret at 1. unfold bindM at 1.
  pose proof (Hstep s) as H. unfold post in H.
  destruct (step s) as [[r|x] s1]; cbn [fst snd recorded_post] in H.
  - destruct H as (e & Hl & He & ->). unfold bindM at 1, lift. cbn [unpack3].
    assert (Hret : List.filter returned [e] = [e]).
    { cbn [List.filter]. unfold returned. now rewrite He. }
    destruct (has_final_answer (inl e)) eqn:F.
    + unfold bindM, lift. cbn [get_final_answer]. cbn [has_final_answer] in F.
      destruct (e_final_answer e); [|discriminate F].
      unfold ret. intros E. injection E as <- <-. exists e. rewrite Hret. auto.
    + unfold ret. intros E. injection E as <- <-. exists e. rewrite Hret. auto.
  - destruct (is_agent_error x); [|discriminate].
    destruct (H eq_refl) as (e & Hl & He & _). unfold bindM.
    rewrite (update_last_snoc _ s1 (logs s) e Hl). unfold ret.
    intros E. injection E as <- <-. exists (set_error x e). cbn [logs].
    split; [reflexivity |]. cbn [List.filter returned e_error set_error map].
    now rewrite !app_nil_r.
Qed.

Lemma direct_loop_lists (n : nat) : forall (iteration : Z) (loc loc' : run_locals)
    (iteration' : Z) (s s' : agent),
  direct_loop cfg step task is_mistral n iteration loc s = (Ok (iteration', loc'), s') ->
  exists new,
    logs s' = logs s ++ new
    /\ List.length new <= n
    /\ step_observation_logs loc'
       = step_observation_logs loc ++ map observation_or_empty (List.filter returned new)
    /\ sm_logs loc'
       = sm_logs loc ++ map summarization_or_empty (List.filter returned new).
Proof.
  induction n as [|n IH]; intros iteration loc loc' iteration' s s' H.
  - cbn [direct_loop] in H. unfold ret in H. injection H as _ <- <-.
    exists []. cbn. rewrite !app_nil_r. auto.
  - cbn [direct_loop] in H. destruct (is_None (final_answer loc)).
    + unfold bindM in H.
      destruct (direct_iteration cfg step task is_mistral iteration loc s) as [[loc1|e] s1] eqn:E;
        [|discriminate].
      destruct (IH _ _ _ _ _ _ H) as (new & Hl & Hn & Ho & Hs).
      destruct (direct_iteration_lists _ _ _ _ _ E) as (e & Hl1 & Ho1 & Hs1).
      exists (e :: new). rewrite Hl, Hl1, Ho, Ho1, Hs, Hs1, <- !app_assoc.
      change (e :: new) with ([e] ++ new). rewrite List.filter_app, !map_app.
      repeat split; simpl; auto. lia.
    + unfold ret in H. injection H as _ <- <-. exists []. cbn. rewrite !app_nil_r.
      repeat split; auto. lia.
Qed.


End Lists.


(** A run of the search variant, in direct mode on a fresh agent whose
    prompt has the tag of the authorized imports, without planning,
    whose model words a final answer at once: the run ends after one
    step and one call of the engine, with the text after
    [Final Answer:] as its answer, a log of two entries and no
    search. *)
Theorem search_run_answers_at_once (cfg : Config) (search_tool : Tool) (task : string)
    (agent_is_mistral is_mistral : bool) (kwargs : list (string * value))
    (llm_output : string) :
  planning_interval cfg = None -> prompt_ready cfg = true ->
  (1 <= max_iterations cfg)%Z ->
  (forall msgs, llm_engine cfg 0 msgs step_stop_sequences = Ok llm_output) ->
  contains "Search:" llm_output = false ->
  contains "Final Answer:" llm_output = true ->
  exists s',
    run cfg (ReactCodeSearchAgent_step cfg search_tool agent_is_mistral) task is_mistral
      false true kwargs new_agent
    = (Ok (Some (VStr (last_field "Final Answer:" llm_output), [VStr ""], [VStr ""])), s')
    /\ List.length (logs s') = 2
    /\ List.length (llm_calls s') = 1
    /\ tool_calls s' = [].
Proof.
  intros Hplan Hready Hmax Hllm Hs Hf.
  unfold run. unfold bindM at 1.
  assert (Hstart : fst (start_run cfg task true kwargs new_agent) = Ok tt)
    by now rewrite (start_run_ready cfg task kwargs new_agent Hready).
  destruct (start_run_well_started cfg task kwargs new_agent Hstart) as [Hws Hlen0].
  assert (Hcalls0 : llm_calls (snd (start_run cfg task true kwargs new_agent)) = []
                    /\ tool_calls (snd (start_run cfg task true kwargs new_agent)) = [])
    by now rewrite (start_run_ready cfg task kwargs new_agent Hready).
  destruct Hcalls0 as [Hcalls0 Htools0].
  destruct (start_run cfg task true kwargs new_agent) as [r0 s0]. cbn [fst snd] in *. subst r0.
  destruct (well_started_memory s0 false agent_is_mistral Hws) as [memory Hmem].
  pose proof (search_step_no_query_eq cfg search_tool agent_is_mistral s0 memory llm_output
                Hmem ltac:(rewrite Hcalls0; apply Hllm) Hs) as Hstep.
  cbv zeta in Hstep. rewrite Hf in Hstep.
  eexists. split.
  - unfold bindM at 1, direct_run. unfold bindM at 1.
    destruct (Z.to_nat (max_iterations cfg)) as [|k] eqn:K; [lia |].
    cbn [direct_loop is_None final_answer]. unfold bindM at 1.
    unfold direct_iteration, catch_agent, catch. unfold bindM at 1, maybe_plan.
    rewrite Hplan. unfold ret at 1. unfold bindM at 1. rewrite Hstep.
    unfold bindM at 1, lift. cbn [unpack3 has_final_answer e_final_answer set_final_answer].
    unfold bindM at 1, lift. cbn [get_final_answer e_final_answer set_final_answer].
    unfold ret at 1.
    cbn [final_answer step_observation_logs sm_logs app].
    replace (direct_loop cfg (ReactCodeSearchAgent_step cfg search_tool agent_is_mistral) task
               is_mistral k (0 + 1)%Z
               (RunLocals (VStr (last_field "Final Answer:" llm_output)) [VStr ""] [VStr ""]))
      with (@ret (Z * run_locals)
              ((0 + 1)%Z,
               RunLocals (VStr (last_field "Final Answer:" llm_output)) [VStr ""] [VStr ""]))
      by now destruct k.
    unfold ret at 1. cbn [fst snd final_answer is_None andb step_observation_logs sm_logs].
    unfold ret. reflexivity.
  - cbn [logs llm_calls tool_calls]. rewrite length_app, Hlen0, Hcalls0, Htools0.
    repeat split.
Qed.

Lemma search_run_answers_at_once_witness :
  exists s',
    run ex_answering_config
      (ReactCodeSearchAgent_step ex_answering_config ex_search_tool false)
      "What is 2+2?" false false true [] new_agent
    = (Ok (Some (VStr (last_field "Final Answer:" ex_answer_output), [VStr ""], [VStr ""])), s')
    /\ List.length (logs s') = 2
    /\ List.length (llm_calls s') = 1
    /\ tool_calls s' = [].
Proof.
  apply (search_run_answers_at_once ex_answering_config ex_search_tool "What is 2+2?"
           false false [] ex_answer_output).
  - reflexivity.
  - reflexivity.
  - vm_compute. discriminate.
  - intros msgs. reflexivity.
  - vm_compute. reflexivity.
  - vm_compute. reflexivity.
Defined.

(** A run that does not reset the log.  [run] appends an entry whose
    only key is [task], holding the task as given, and sets the state to
    the keyword arguments; in the memory the entry shows as one more
    user message, [New task:] and the task.  On an agent that has never
    run, the log then starts with that entry, which has no system prompt:
    the first step of the search variant fails in the memory builder with
    a [KeyError], which is no agent error and ends the run. *)
Theorem run_without_reset (cfg : Config) (task : string) (kwargs : list (string * value))
    (s : agent) :
  let s' := snd (start_run cfg task false kwargs s) in
  fst (start_run cfg task false kwargs s) = Ok tt
  /\ (exists entry, logs s' = logs s ++ [entry] /\ entry_keys entry = ["task"]
                    /\ e_task entry = Some task)
  /\ state s' = list_to_map kwargs
  /\ (forall summary_mode is_mistral memory,
        write_inner_memory_from_logs (logs s) summary_mode is_mistral = Ok memory ->
        write_inner_memory_from_logs (logs s') summary_mode is_mistral
        = Ok (memory ++ [Message USER ("New task:" +:+ nl +:+ task)]))
  /\ (planning_interval cfg = None -> (1 <= max_iterations cfg)%Z ->
      forall search_tool agent_is_mistral is_mistral,
        fst (run cfg (ReactCodeSearchAgent_step cfg search_tool agent_is_mistral) task
               is_mistral false false kwargs new_agent)
        = Raise (Exn KeyError "'system_prompt'")).
Proof.
  cbv zeta. unfold start_run, bindM, append_log. cbn [fst snd logs state].
  split; [reflexivity |]. split; [eexists; repeat split |]. split; [reflexivity |]. split.
  - intros summary_mode is_mistral memory H.
    rewrite (memory_snoc _ _ _ _ _ H). reflexivity.
  - intros Hplan Hmax search_tool aim im.
    unfold run. unfold bindM at 1. unfold start_run, bindM at 1, append_log.
    cbn [fst snd logs state llm_calls tool_calls yielded new_agent app].
    unfold bindM at 1, direct_run. unfold bindM at 1.
    destruct (Z.to_nat (max_iterations cfg)) as [|k] eqn:K; [lia |].
    cbn [direct_loop is_None final_answer]. unfold bindM at 1.
    unfold direct_iteration, catch_agent, catch. unfold bindM at 1, maybe_plan.
    rewrite Hplan. unfold ret at 1. unfold bindM at 1.
    unfold ReactCodeSearchAgent_step. unfold bindM at 1. rewrite begin_step_eq.
    reflexivity.
Qed.

(** ** The recovery call and the planner *)

Lemma provide_final_answer_eq (cfg : Config) (task : string) (is_mistral : bool)
    (s : agent) (memory : list message) :
  write_inner_memory_from_logs (logs s) false is_mistral = Ok memory ->
  provide_final_answer cfg task is_mistral s
  = (Ok (recovered_answer
           (llm_engine cfg (List.length (llm_calls s))
              (recovery_prompt task is_mistral memory) None)),
     Agent (logs s) (state s)
       (llm_calls s ++ [(recovery_prompt task is_mistral memory, None)])
       (tool_calls s) (yielded s)).
Proof.
  intros Hmem. unfold provide_final_answer. unfold bindM at 1, get_logs.
  unfold bindM at 1, lift. rewrite Hmem. unfold catch, call_llm.
  fold (recovery_prompt task is_mistral memory).
  now destruct (llm_engine cfg (List.length (llm_calls s))
                  (recovery_prompt task is_mistral memory) None).
Qed.

(** [provide_final_answer] on a log from which the memory can be built:
    it never raises, calls the engine once without stop sequences, and
    leaves the log and the state as they are.  Its prompt is the memory
    with the first message, the agent's system prompt, replaced by the
    message that the agent got stuck, and the request for an answer
    added at the end: one message more than the memory, with that
    replacement as its only system message, and with no system message
    at all for a model without system role. *)
Theorem provide_final_answer_prompt (cfg : Config) (task : string) (is_mistral : bool)
    (s : agent) (memory : list message) :
  write_inner_memory_from_logs (logs s) false is_mistral = Ok memory ->
  let prompt := recovery_prompt task is_mistral memory in
  provide_final_answer cfg task is_mistral s
  = (Ok (recovered_answer (llm_engine cfg (List.length (llm_calls s)) prompt None)),
     Agent (logs s) (state s) (llm_calls s ++ [(prompt, None)]) (tool_calls s) (yielded s))
  /\ List.length prompt = List.length memory + 1
  /\ Forall (fun m => role m = SYSTEM -> content m = stuck_msg) prompt
  /\ List.length (List.filter is_system prompt) = (if is_mistral then 0 else 1).
Proof.
  intros Hmem prompt. split; [|split].
  - now apply provide_final_answer_eq.
  - unfold prompt, recovery_prompt. unfold write_inner_memory_from_logs in Hmem.
    destruct (logs s) as [|e0 rest]; [discriminate |].
    destruct (e_system_prompt e0); [|discriminate].
    destruct (e_task e0); [|discriminate].
    injection Hmem as <-. cbn [app tl List.length]. rewrite !length_app. simpl. lia.
  - unfold write_inner_memory_from_logs in Hmem.
    destruct (logs s) as [|e0 rest]; [discriminate |].
    destruct (e_system_prompt e0) as [sp|]; [|discriminate].
    destruct (e_task e0) as [t|]; [|discriminate].
    injection Hmem as Hm.
    assert (Hsteps : Forall (fun m => is_system m = false) (steps_messages false 0 rest)).
    { apply List.Forall_forall. intros m Hin.
      pose proof (steps_messages_not_system false rest 0) as H.
      destruct (is_system m) eqn:E; [|reflexivity].
      assert (In m (List.filter is_system (steps_messages false 0 rest)))
        by (apply (proj2 (filter_In is_system m _)); split; assumption).
      rewrite H in *. contradiction. }
    assert (Hp : prompt = Message (if negb is_mistral then SYSTEM else USER) stuck_msg
                          :: Message USER ("Task: " +:+ t)
                          :: steps_messages false 0 rest
                             ++ [Message USER
                                   ("Based on the above, please provide an answer to the following user request:"
                                      +:+ nl +:+ task)]).
    { unfold prompt, recovery_prompt. rewrite <- Hm. reflexivity. }
    clearbody prompt. subst prompt. split.
    + constructor; [reflexivity |]. constructor; [discriminate |].
      apply Forall_app. split.
      * eapply List.Forall_impl; [|exact Hsteps]. intros m Hm' Hr.
        unfold is_system in Hm'. rewrite Hr in Hm'. discriminate.
      * constructor; [discriminate | constructor].
    + cbn [List.filter]. rewrite List.filter_app.
      replace (List.filter is_system (steps_messages false 0 rest)) with (@nil message)
        by (symmetry; apply (steps_messages_not_system false rest 0)).
      now destruct is_mistral.
Qed.

Lemma provide_final_answer_prompt_witness :
  provide_final_answer ex_down_config "What is 2+2?" false ex_final_agent
  = (Ok "Error in generating final llm output: connection lost.",
     Agent [ex_entry0] ex_state
       ([] ++ [(recovery_prompt "What is 2+2?" false
                  [Message SYSTEM "You are an agent. <<tool_descriptions>>";
                   Message USER "Task: What is 2+2?"], None)]) [] []).
Proof.
  exact (proj1 (provide_final_answer_prompt ex_down_config "What is 2+2?" false
                  ex_final_agent
                  [Message SYSTEM "You are an agent. <<tool_descriptions>>";
                   Message USER "Task: What is 2+2?"] eq_refl)).
Defined.

(** [planning_step] touches neither the state nor the record of tool
    calls.  When it returns it has called the engine twice, the second
    time with the stop sequence [<end_plan>], and has appended one entry,
    whose keys are [plan] and [facts].  When it raises it has appended
    nothing, and the exception is the one of the engine, or, in an
    update, the one of the memory builder: the planner wraps neither. *)
Theorem planning_step_outcomes (cfg : Config) (task : string) (is_first_step : bool)
    (iteration : Z) (is_mistral : bool) (s : agent) :
  post (planning_step cfg task is_first_step iteration is_mistral) s
    (fun r s' =>
       state s' = state s /\ tool_calls s' = tool_calls s
       /\ match r with
          | Ok _ =>
              (exists entry, logs s' = logs s ++ [entry] /\ entry_keys entry = ["plan"; "facts"])
              /\ exists facts_prompt plan_prompt,
                   llm_calls s'
                   = llm_calls s ++ [(facts_prompt, None); (plan_prompt, Some ["<end_plan>"])]
          | Raise e =>
              logs s' = logs s
              /\ ((exists n msgs stop, llm_engine cfg n msgs stop = Raise e)
                  \/ (is_first_step = false
                      /\ write_inner_memory_from_logs (logs s) false is_mistral = Raise e))
          end).
Proof.
  unfold planning_step, post, bindM, call_llm, get_logs, lift, append_log.
  destruct is_first_step; cbn [logs state llm_calls tool_calls yielded fst snd].
  - destruct (llm_engine cfg _ _ None) as [facts|e] eqn:E1;
      cbn [logs state llm_calls tool_calls yielded fst snd]; [|now eauto 10].
    destruct (llm_engine cfg _ _ (Some ["<end_plan>"])) as [plan|e] eqn:E2;
      cbn [logs state llm_calls tool_calls yielded fst snd]; [|now eauto 10].
    repeat split; [eexists; split; reflexivity |].
    do 2 eexists. rewrite <- app_assoc. reflexivity.
  - destruct (write_inner_memory_from_logs (logs s) false is_mistral) as [mem|e] eqn:E0;
      cbn [logs state llm_calls tool_calls yielded fst snd]; [|now auto 10].
    destruct (llm_engine cfg _ _ None) as [facts|e] eqn:E1;
      cbn [logs state llm_calls tool_calls yielded fst snd]; [|now eauto 10].
    destruct (llm_engine cfg _ _ (Some ["<end_plan>"])) as [plan|e] eqn:E2;
      cbn [logs state llm_calls tool_calls yielded fst snd]; [|now eauto 10].
    repeat split; [eexists; split; reflexivity |].
    do 2 eexists. rewrite <- app_assoc. reflexivity.
Qed.

(** ** The one-shot code agent *)

(** [CodeAgent.run].  When the prompt is not ready, it raises the error
    of the missing tag before any call.  Otherwise it leaves a log of
    one entry, with the system prompt and the task, and calls the
    engine once, on the system prompt and the task with the keyword
    arguments, with the stop sequence [<end_action>]; a failure of that
    call is the only other exception that leaves it.  When the
    generated code is asked for, the output of the engine is returned
    and nothing is evaluated.  Otherwise the code is the fenced block
    of the text after the last [Code:], or of the whole output without
    the marker: code that cannot be parsed comes back as a text, with
    the state still the keyword arguments; code that parses is
    evaluated once on the keyword arguments, the state is the one the
    evaluator leaves, and what comes back is the value of the
    evaluator, or a text when the evaluation fails or the state has no
    [print_outputs]. *)
Theorem CodeAgent_run_outcomes (cfg : Config)
    (python_evaluator : string -> gmap string value -> res value * gmap string value)
    (task : string) (return_generated_code is_mistral : bool)
    (kwargs : list (string * value)) (s : agent) :
  post (CodeAgent_run cfg python_evaluator task return_generated_code is_mistral kwargs) s
    (fun r s' =>
       if prompt_ready cfg then
         (exists entry0,
            logs s' = [entry0]
            /\ e_system_prompt entry0 = Some (run_system_prompt cfg)
            /\ e_task entry0 = Some (task_with_arguments task kwargs))
         /\ llm_calls s'
            = llm_calls s ++ [(CodeAgent_prompt cfg is_mistral task kwargs,
                               Some ["<end_action>"])]
         /\ match llm_engine cfg (List.length (llm_calls s))
                    (CodeAgent_prompt cfg is_mistral task kwargs) (Some ["<end_action>"]) with
            | Raise e => r = Raise e /\ state s' = list_to_map kwargs
            | Ok llm_output =>
                if return_generated_code
                then r = Ok (VStr llm_output) /\ state s' = list_to_map kwargs
                else
                  match parse_code_blob (code_action_of llm_output) with
                  | Raise e =>
                      r = Ok (VStr ("Error in code parsing: " +:+ exn_msg e
                                      +:+ ". Be sure to provide correct code"))
                      /\ state s' = list_to_map kwargs
                  | Ok code =>
                      state s' = snd (python_evaluator code (list_to_map kwargs))
                      /\ r = Ok match fst (python_evaluator code (list_to_map kwargs)) with
                                | Ok output =>
                                    match state s' !! "print_outputs" with
                                    | Some _ => output
                                    | None =>
                                        execution_error_text
                                          (Exn KeyError (PyVal.repr_str "print_outputs"))
                                    end
                                | Raise e => execution_error_text e
                                end
                  end
            end
       else
         r = Raise (Exn AgentError
                      "Tag '<<authorized_imports>>' should be provided in the prompt.")
         /\ logs s' = logs s /\ llm_calls s' = llm_calls s
         /\ state s' = list_to_map kwargs).
Proof.
  unfold post.
  remember (CodeAgent_run cfg python_evaluator task return_generated_code is_mistral kwargs s)
    as out eqn:Hout.
  symmetry in Hout. unfold CodeAgent_run in Hout.
  fold (task_with_arguments task kwargs) in Hout.
  unfold bindM at 1 in Hout. unfold bindM at 1 in Hout.
  unfold initialize_for_run in Hout. fold (formatted_prompt cfg) in Hout.
  unfold bindM at 1, lift, format_prompt_with_imports in Hout.
  unfold prompt_ready, CodeAgent_prompt, run_system_prompt.
  assert (Hgo : forall sp,
    let s0 := Agent [LogEntry (Some sp) (Some (task_with_arguments task kwargs))
                       None None None None None None None None None None]
                (list_to_map kwargs) (llm_calls s) (tool_calls s) (yielded s) in
    let prompt := [Message (if negb is_mistral then SYSTEM else USER) sp;
                   Message USER ("Task: " +:+ task_with_arguments task kwargs)] in
    forall out : res value * agent,
      (system_prompt <~ self_system_prompt ;;
           llm_output <~ call_llm (llm_engine cfg)
                           [Message (if negb is_mistral then SYSTEM else USER) system_prompt;
                            Message USER ("Task: " +:+ task_with_arguments task kwargs)]
                           (Some ["<end_action>"]) ;;
           if return_generated_code then ret (VStr llm_output)
           else
             match parse_code_blob (code_action_of llm_output) with
             | Raise e =>
                 ret (VStr ("Error in code parsing: " +:+ exn_msg e
                              +:+ ". Be sure to provide correct code"))
             | Ok code_action =>
                 catch
                   (output <~ run_evaluator python_evaluator code_action ;;
                    st <~ get_state ;;
                    lift (match st !! "print_outputs" with
                          | Some _ => Ok tt
                          | None => key_error "print_outputs"
                          end) ;;;
                    ret output)
                   (fun e => ret (execution_error_text e))
             end) s0 = out ->
      (exists entry0,
          logs (snd out) = [entry0]
          /\ e_system_prompt entry0 = Some sp
          /\ e_task entry0 = Some (task_with_arguments task kwargs))
      /\ llm_calls (snd out) = llm_calls s ++ [(prompt, Some ["<end_action>"])]
      /\ match llm_engine cfg (List.length (llm_calls s)) prompt (Some ["<end_action>"]) with
         | Raise e => fst out = Raise e /\ state (snd out) = list_to_map kwargs
         | Ok llm_output =>
             if return_generated_code
             then fst out = Ok (VStr llm_output) /\ state (snd out) = list_to_map kwargs
             else
               match parse_code_blob (code_action_of llm_output) with
               | Raise e =>
                   fst out = Ok (VStr ("Error in code parsing: " +:+ exn_msg e
                                            +:+ ". Be sure to provide correct code"))
                   /\ state (snd out) = list_to_map kwargs
               | Ok code =>
                   state (snd out) = snd (python_evaluator code (list_to_map kwargs))
                   /\ fst out
                      = Ok match fst (python_evaluator code (list_to_map kwargs)) with
                           | Ok output =>
                               match state (snd out) !! "print_outputs" with
                               | Some _ => output
                               | None =>
                                   execution_error_text
                                     (Exn KeyError (PyVal.repr_str "print_outputs"))
                               end
                           | Raise e => execution_error_text e
                           end
               end
         end).
  { clear out Hout. intros sp s0 prompt out Hm. subst s0.
    unfold bindM at 1, self_system_prompt in Hm. cbn [logs e_system_prompt] in Hm.
    unfold bindM at 1, call_llm in Hm. cbn [logs state llm_calls tool_calls yielded] in Hm.
    fold prompt in Hm.
    assert (Hentry : exists entry0,
              [LogEntry (Some sp) (Some (task_with_arguments task kwargs))
                 None None None None None None None None None None] = [entry0]
              /\ e_system_prompt entry0 = Some sp
              /\ e_task entry0 = Some (task_with_arguments task kwargs)).
    { eexists. split; [reflexivity | split; reflexivity]. }
    destruct (llm_engine cfg (List.length (llm_calls s)) prompt (Some ["<end_action>"]))
      as [llm_output|e].
    - destruct return_generated_code.
      + subst out. cbn [ret fst snd logs state llm_calls].
        split; [exact Hentry | split; [reflexivity | split; reflexivity]].
      + destruct (parse_code_blob (code_action_of llm_output)) as [code|e].
        * unfold catch, bindM, run_evaluator, get_state, lift, ret, key_error in Hm.
          cbn [logs state llm_calls tool_calls yielded] in Hm.
          destruct (python_evaluator code (list_to_map kwargs)) as [[output|e] st'];
            cbn [fst snd logs state llm_calls tool_calls yielded] in *.
          -- destruct (st' !! "print_outputs") eqn:Pr; subst out;
               cbn [fst snd logs state llm_calls tool_calls yielded]; rewrite ?Pr;
               (split; [exact Hentry | split; [reflexivity | split; reflexivity]]).
          -- subst out. cbn [fst snd logs state llm_calls tool_calls yielded].
             split; [exact Hentry | split; [reflexivity | split; reflexivity]].
        * subst out. cbn [ret fst snd logs state llm_calls].
          split; [exact Hentry | split; [reflexivity | split; reflexivity]].
    - subst out. cbn [fst snd logs state llm_calls].
      split; [exact Hentry | split; [reflexivity | split; reflexivity]]. }
  destruct (authorized_imports cfg) as [imports|].
  - destruct (contains "<<authorized_imports>>" (formatted_prompt cfg)); cbn [negb] in Hout.
    + unfold bindM at 1, set_logs in Hout.
      cbn [logs state llm_calls tool_calls yielded] in Hout.
      exact (Hgo _ out Hout).
    + subst out. cbn [fst snd logs state llm_calls]. repeat split.
  - unfold bindM at 1, set_logs in Hout.
    cbn [logs state llm_calls tool_calls yielded] in Hout.
    exact (Hgo _ out Hout).
Qed.

(** ** What a streaming run yields *)

Lemma yield_last_snoc (s : agent) (front : list log_entry) (e : log_entry) :
  logs s = front ++ [e] ->
  yield_last s
  = (Ok tt, Agent (logs s) (state s) (llm_calls s) (tool_calls s) (yielded s ++ [YEntry e])).
Proof. intros H. unfold yield_last. now rewrite H, rev_snoc. Qed.

Lemma post_finally {A} (m : M A) (f : M unit) (s : agent) (Q : res A -> agent -> Prop) :
  post m s (fun r s1 =>
              post f s1 (fun rf s2 => Q (match rf with Ok _ => r | Raise e' => Raise e' end) s2)) ->
  post (finally m f) s Q.
Proof.
  unfold post, finally. destruct (m s) as [[a|e] s1]; cbn [fst snd];
    destruct (f s1) as [[u|e'] s2]; cbn [fst snd]; auto.
Qed.

Lemma post_catch_agent {A} (m : M A) (h : exn -> M A) (s : agent)
    (Q : res A -> agent -> Prop) :
  post m s (fun r s1 => match r with
                        | Ok a => Q (Ok a) s1
                        | Raise e => post (if is_agent_error e then h e else raise e) s1 Q
                        end) ->
  post (catch_agent m h) s Q.
Proof.
  unfold post, catch_agent, catch. destruct (m s) as [[a|e] s1]; cbn [fst snd]; auto.
Qed.

Lemma post_update_last_kept (f : log_entry -> log_entry) (s s1 : agent)
    (P P' : log_entry -> Prop) (Q : res unit -> agent -> Prop) :
  entry_kept P s s1 -> (forall e, P e -> P' (f e)) ->
  (forall s2, entry_kept P' s s2 -> state s2 = state s1 -> Q (Ok tt) s2) ->
  post (update_last f) s1 Q.
Proof.
  intros [Hy (e & Hl & He)] Hf HQ. unfold post. rewrite (update_last_snoc f s1 (logs s) e Hl).
  apply HQ; [|reflexivity]. split; [exact Hy |]. exists (f e). split; [reflexivity | auto].
Qed.

Lemma post_begin_step_kept (cfg : Config) (is_mistral : bool) (s : agent)
    (Q : res string -> agent -> Prop) :
  well_started s ->
  (forall out s1, entry_kept open_entry s s1 -> Q (Ok out) s1) ->
  (forall e s1, entry_kept open_entry s s1 -> Q (Raise (generation_error e)) s1) ->
  post (begin_step cfg is_mistral) s Q.
Proof.
  intros Hs Hok Hgen. destruct (well_started_memory s false is_mistral Hs) as [memory Hmem].
  unfold post. rewrite begin_step_eq, Hmem.
  destruct (llm_engine cfg (List.length (llm_calls s)) memory step_stop_sequences);
    [apply Hok | apply Hgen];
    (split; [reflexivity | eexists; split; [reflexivity | split; reflexivity]]).
Qed.

Lemma kept_weaken (P P' : log_entry -> Prop) (s s1 : agent) :
  (forall e, P e -> P' e) -> entry_kept P s s1 -> entry_kept P' s s1.
Proof. intros H [Hy (e & Hl & He)]. split; [exact Hy |]. exists e. auto. Qed.

Lemma kept_raise (s s1 : agent) (x : exn) :
  entry_kept open_entry s s1 -> streamed_post s (Raise x) s1.
Proof. intros [Hy (e & Hl & He)]. split; [exact Hy |]. exists e. auto. Qed.

(** The step of the code variant fits [stream_run]. *)
Lemma ReactCodeAgent_step_streams (cfg : Config)
    (python_evaluator : string -> gmap string value -> res value * gmap string value)
    (is_mistral : bool) :
  step_streams (ReactCodeAgent_step cfg python_evaluator is_mistral).
Proof.
  intros s Hs. unfold ReactCodeAgent_step.
  apply post_bind, post_begin_step_kept; [assumption | |].
  2:{ intros e s1 H1. now apply kept_raise. }
  intros llm_output s1 H1.
  apply post_bind, post_lift.
  destruct (reraise (parse_code_blob _) _) as [code_action|x]; [|now apply kept_raise].
  apply post_bind.
  apply (post_update_last_kept _ s s1 open_entry open_entry); [assumption | keep_entry |].
  intros s2 H2 _. apply post_bind.
  apply (post_update_last_kept _ s s2 open_entry open_entry); [assumption | keep_entry |].
  intros s3 H3 _.
  assert (Hend : forall s6, entry_kept no_error s s6 ->
            post (current_step_logs <~ current_entry ;;
                  ret (RetTuple current_step_logs [observation_or_empty current_step_logs]))
              s6 (streamed_post s)).
  { intros s6 [Hy (e & Hl & He)]. unfold post, bindM.
    rewrite (current_entry_snoc s6 (logs s) e Hl). cbn [ret fst snd].
    split; [exact Hy |]. exists e. repeat split; assumption. }
  assert (Hrest : forall result s5, entry_kept open_entry s s5 ->
            post ((if existsb (fun line => String.eqb (take 12 line) "final_answer")
                        (split nl code_action)
                   then update_last (set_final_answer result) else ret tt) ;;;
                  current_step_logs <~ current_entry ;;
                  ret (RetTuple current_step_logs [observation_or_empty current_step_logs]))
              s5 (streamed_post s)).
  { intros result s5 H5. apply post_bind. destruct (existsb _ _).
    - apply (post_update_last_kept _ s s5 open_entry no_error);
        [assumption | intros e [He _]; exact He |].
      intros s6 H6 _. now apply Hend.
    - apply post_ret, Hend. revert H5. apply kept_weaken. intros e [He _]. exact He. }
  apply post_bind, post_catch, post_bind.
  unfold post at 1, run_evaluator.
  destruct (python_evaluator code_action (state s3)) as [[result|x] st']; cbn [fst snd].
  - assert (H4 : entry_kept open_entry s
                   (Agent (logs s3) st' (llm_calls s3) (tool_calls s3) (yielded s3)))
      by exact H3.
    apply post_bind, post_get_state. apply post_bind, post_lift.
    cbn [state]. destruct (st' !! "print_outputs") as [information|].
    + apply post_bind.
      apply (post_update_last_kept _ s _ open_entry open_entry _ H4); [keep_entry |].
      intros s5 H5 _. apply post_ret. now apply Hrest.
    + apply post_raise. now apply kept_raise.
  - apply post_raise. apply kept_raise. exact H3.
Qed.

Section Stream.

Variable cfg : Config.
Variable step : M step_return.
Variable task : string.
Variable is_mistral : bool.

Hypothesis Hstep : step_streams step.

Lemma stream_iteration_yields (loc : run_locals) (s : agent) :
  well_started s ->
  post (stream_iteration step loc) s (streamed_iteration loc s).
Proof.
  intros Hs. unfold stream_iteration. apply post_finally.
  assert (Hyield : forall r s1 e,
            logs s1 = logs s ++ [e] -> yielded s1 = yielded s ->
            match r with
            | Ok loc' =>
                streamed_entry e
                /\ step_observation_logs loc'
                   = step_observation_logs loc
                       ++ map observation_or_empty (List.filter returned [e])
                /\ (final_answer loc' = final_answer loc
                    \/ e_final_answer e = Some (final_answer loc'))
            | Raise x => is_agent_error x = false
            end ->
            post yield_last s1
              (fun rf s2 =>
                 streamed_iteration loc s
                   (match rf with Ok _ => r | Raise e' => Raise e' end) s2)).
  { intros r s1 e Hl Hy H. unfold post. rewrite (yield_last_snoc s1 (logs s) e Hl).
    cbn [fst snd]. exists e. cbn [logs yielded]. rewrite Hy. auto. }
  apply post_catch_agent, post_bind.
  eapply post_weaken; [exact (Hstep s Hs) |].
  intros [r|x] s1 (Hy & e & Hl & H).
  - destruct H as [He ->]. apply post_bind, post_lift. cbn [unpack2].
    assert (Hret : List.filter returned [e] = [e]).
    { cbn [List.filter]. unfold returned. now rewrite He. }
    assert (Hentry : streamed_entry e).
    { intros x Hx. rewrite He in Hx. discriminate Hx. }
    cbn [has_final_answer]. destruct (e_final_answer e) as [fa|] eqn:F.
    + apply post_bind, post_lift. cbn [get_final_answer]. rewrite F.
      apply post_ret, (Hyield _ s1 e Hl Hy). rewrite Hret, F.
      cbn [final_answer step_observation_logs map]. auto.
    + apply post_ret, (Hyield _ s1 e Hl Hy). rewrite Hret.
      cbn [final_answer step_observation_logs map]. auto.
  - destruct (is_agent_error x) eqn:Ex.
    + destruct (H eq_refl) as [He Hf]. apply post_bind. unfold post at 1.
      rewrite (update_last_snoc _ s1 (logs s) e Hl). cbn [fst snd].
      apply post_ret, (Hyield _ _ (set_error x e)); [reflexivity | exact Hy |].
      split; [|split; [|now left]].
      * intros x' Hx'. cbn [e_error set_error] in Hx'. injection Hx' as <-.
        split; [exact Ex | exact Hf].
      * cbn [List.filter returned e_error set_error map]. now rewrite app_nil_r.
    + apply post_raise, (Hyield _ s1 e Hl Hy). exact Ex.
Qed.

Lemma stream_loop_done (n : nat) (iteration : Z) (loc : run_locals) (s : agent) :
  is_None (final_answer loc) = false ->
  stream_loop step n iteration loc s = (Ok (iteration, loc), s).
Proof. intros H. destruct n; cbn [stream_loop]; [|rewrite H]; reflexivity. Qed.

Lemma stream_loop_yields (n : nat) : forall (iteration : Z) (loc : run_locals) (s : agent),
  well_started s -> is_None (final_answer loc) = true ->
  post (stream_loop step n iteration loc) s
    (fun r s' =>
       exists steps,
         logs s' = logs s ++ steps
         /\ yielded s' = yielded s ++ map YEntry steps
         /\ List.length steps <= n
         /\ match r with
            | Ok (iteration', loc') =>
                iteration' = (iteration + Z.of_nat (List.length steps))%Z
                /\ Forall streamed_entry steps
                /\ step_observation_logs loc'
                   = step_observation_logs loc
                       ++ map observation_or_empty (List.filter returned steps)
                /\ (is_None (final_answer loc') = true -> List.length steps = n)
                /\ (is_None (final_answer loc') = false ->
                    exists front e, steps = front ++ [e]
                                    /\ e_final_answer e = Some (final_answer loc'))
            | Raise x => is_agent_error x = false /\ steps <> []
            end).
Proof.
  induction n as [|n IH]; intros iteration loc s Hs Hnone.
  - apply post_ret. exists []. cbn [List.length map List.filter].
    rewrite !app_nil_r, Z.add_0_r. repeat split; auto. intros H. congruence.
  - cbn [stream_loop]. rewrite Hnone. apply post_bind.
    eapply post_weaken; [exact (stream_iteration_yields loc s Hs) |].
    intros [loc1|x] s1 (e & He & Hy & H).
    2:{ exists [e]. cbn [List.length map].
        split; [exact He | split; [exact Hy | split; [lia | split; [exact H | discriminate]]]]. }
    destruct H as (Hentry & Hobs & Hfa).
    assert (Hs1 : well_started s1) by exact (well_started_grows s s1 [e] He Hs).
    destruct (is_None (final_answer loc1)) eqn:N1.
    + eapply post_weaken; [exact (IH (iteration + 1)%Z loc1 s1 Hs1 N1) |].
      intros r' s2 (steps & Hl & Hyl & Hlen & H'). exists (e :: steps).
      rewrite Hl, Hyl, He, Hy, <- !app_assoc. cbn [List.length map app].
      split; [reflexivity | split; [reflexivity | split; [lia |]]].
      destruct r' as [[iteration' loc']|x].
      * destruct H' as (-> & Hall & Hobs' & H1 & H2).
        split; [lia |]. split; [constructor; assumption |].
        split.
        { rewrite Hobs', Hobs, <- app_assoc, <- map_app.
          change (e :: steps) with ([e] ++ steps). now rewrite List.filter_app. }
        split.
        { intros H. rewrite (H1 H). reflexivity. }
        { intros H. destruct (H2 H) as (front & e' & -> & He'). exists (e :: front), e'. auto. }
      * destruct H' as [Hx _]. split; [exact Hx | discriminate].
    + unfold post. rewrite (stream_loop_done n _ loc1 s1 N1). cbn [fst snd].
      exists [e]. cbn [List.length map].
      split; [exact He | split; [exact Hy | split; [lia |]]].
      split; [lia |]. split; [constructor; [exact Hentry | constructor] |].
      split; [exact Hobs |].
      split; [intros H; congruence |].
      intros _. exists [], e. split; [reflexivity |].
      destruct Hfa as [Hfa | Hfa]; [|exact Hfa]. rewrite Hfa in N1. congruence.
Qed.


End Stream.


(** A run of the search variant, in direct mode on a fresh agent whose
    prompt has the tag of the authorized imports, without planning,
    whose model never words a final answer, for every budget [N] that is
    not negative: the run makes [N] steps and then the recovery call, [N + 1]
    calls of the engine in all; its log ends with [N + 2] entries, entry
    0, one entry for each step and the entry of the exhaustion error,
    which holds the outcome of the recovery call as the final answer of
    the run. *)
Theorem search_run_exhausts (cfg : Config) (search_tool : Tool) (task : string)
    (agent_is_mistral is_mistral : bool) (kwargs : list (string * value)) :
  planning_interval cfg = None -> prompt_ready cfg = true ->
  (0 <= max_iterations cfg)%Z -> never_final cfg ->
  exists entry0 new prompt obs sms s2,
    let answer := recovered_answer
                    (llm_engine cfg (Z.to_nat (max_iterations cfg)) prompt None) in
    run cfg (ReactCodeSearchAgent_step cfg search_tool agent_is_mistral) task is_mistral
      false true kwargs new_agent
    = (Ok (Some (VStr answer, obs, sms)), s2)
    /\ logs s2 = entry0 :: new ++ [set_final_answer (VStr answer) max_iterations_entry]
    /\ List.length new = Z.to_nat (max_iterations cfg)
    /\ Forall regular_entry new
    /\ List.length (logs s2) = Z.to_nat (max_iterations cfg) + 2
    /\ List.length (llm_calls s2) = Z.to_nat (max_iterations cfg) + 1.
Proof.
  intros Hplan Hready Hmax Hnever.
  destruct (exhausted_fresh_run cfg
              (ReactCodeSearchAgent_step cfg search_tool agent_is_mistral) task is_mistral
              kwargs Hplan Hready Hmax
              (ReactCodeSearchAgent_step_fruitless cfg search_tool agent_is_mistral Hnever))
    as (entry0 & new & calls & prompt & obs & sms & s2 & Hrun & Hl & Hlen & Hall & Hlogs
        & Hc & Hclen & _).
  exists entry0, new, prompt, obs, sms, s2. cbv zeta in *.
  repeat split; try assumption.
  rewrite Hc, length_app, Hclen. reflexivity.
Qed.

Lemma search_run_exhausts_witness :
  exists entry0 new prompt obs sms s2,
    let answer := recovered_answer
                    (llm_engine ex_exhausting_config
                       (Z.to_nat (max_iterations ex_exhausting_config)) prompt None) in
    run ex_exhausting_config
      (ReactCodeSearchAgent_step ex_exhausting_config ex_search_tool false) "What is 2+2?"
      false false true [] new_agent
    = (Ok (Some (VStr answer, obs, sms)), s2)
    /\ logs s2 = entry0 :: new ++ [set_final_answer (VStr answer) max_iterations_entry]
    /\ List.length new = Z.to_nat (max_iterations ex_exhausting_config)
    /\ Forall regular_entry new
    /\ List.length (logs s2) = Z.to_nat (max_iterations ex_exhausting_config) + 2
    /\ List.length (llm_calls s2) = Z.to_nat (max_iterations ex_exhausting_config) + 1.
Proof.
  apply (search_run_exhausts ex_exhausting_config ex_search_tool "What is 2+2?" false false []).
  - reflexivity.
  - reflexivity.
  - vm_compute. discriminate.
  - intros n msgs out H Hs. destruct n as [|[|n]].
    + injection H as <-. vm_compute in Hs. discriminate Hs.
    + injection H as <-. vm_compute in Hs. discriminate Hs.
    + cbn in H. destruct n; discriminate H.
Defined.


(** ** The search tool *)

Lemma take_length_le (n : nat) : forall s, String.length (take n s) <= n.
Proof.
  induction n as [|n IH]; intros [|c s]; simpl; try lia. specialize (IH s). lia.
Qed.

Lemma slice_to_length (limit : Z) (s : string) :
  (0 <= limit)%Z -> (Z.of_nat (String.length (slice 0 limit s)) <= limit)%Z.
Proof.
  intros H. unfold slice, slice_bound. cbn [Z.ltb Z.compare].
  destruct (Z.ltb_spec limit 0); [lia |].
  pose proof (take_length_le
                (Z.to_nat (Z.min (Z.of_nat (String.length s)) limit)
                 - Z.to_nat (Z.min (Z.of_nat (String.length s)) 0))
                (drop (Z.to_nat (Z.min (Z.of_nat (String.length s)) 0)) s)).
  lia.
Qed.

Lemma list_slice_to_length {A} (limit : Z) (l : list A) :
  (0 <= limit)%Z -> (Z.of_nat (List.length (Tavily.list_slice_to limit l)) <= limit)%Z.
Proof.
  intros H. unfold Tavily.list_slice_to, slice_bound.
  destruct (Z.ltb_spec limit 0); [lia |].
  rewrite length_firstn. lia.
Qed.

Lemma len_nonneg (v : value) (n : Z) : Tavily.len v = Tavily.Done n -> (0 <= n)%Z.
Proof.
  destruct v as [| | |s|l|d|[] s]; cbn [Tavily.len]; intros H;
    try discriminate H; injection H as <-; lia.
Qed.

Lemma len_failure (v : value) (f : Tavily.failure) :
  Tavily.len v = Tavily.Failed f -> exists m, f = Tavily.TypeErr m.
Proof.
  destruct v as [| | |s|l|d|[] s]; cbn [Tavily.len]; intros H;
    try discriminate H; injection H as <-; eauto.
Qed.

Lemma slice_to_failure (limit : Z) (v : value) (f : Tavily.failure) :
  Tavily.slice_to limit v = Tavily.Failed f -> exists m, f = Tavily.TypeErr m.
Proof.
  destruct v as [| | |s|l|d|[] s]; cbn [Tavily.slice_to]; intros H;
    try discriminate H; injection H as <-; eauto.
Qed.

Lemma slice_to_within (limit : Z) (v v' : value) :
  (0 <= limit)%Z -> Tavily.slice_to limit v = Tavily.Done v' ->
  exists n, Tavily.len v' = Tavily.Done n /\ (n <= limit)%Z.
Proof.
  intros Hl.
  destruct v as [| | |s|l|d|[] s]; cbn [Tavily.slice_to]; intros H;
    try discriminate H; injection H as <-; cbn [Tavily.len]; eexists; split;
    try reflexivity; auto using slice_to_length, list_slice_to_length.
Qed.

Lemma truncated_within (limit : Z) (text v : value) :
  Tavily.truncated limit text = Tavily.Done v ->
  exists n, Tavily.len v = Tavily.Done n /\ (n <= limit)%Z.
Proof.
  unfold Tavily.truncated, Tavily.then_.
  destruct (Tavily.len text) as [n|f]; [|discriminate].
  destruct (if (n >? limit)%Z then Tavily.slice_to limit text else Tavily.Done text)
    as [text'|f]; [|discriminate].
  destruct (Tavily.len text') as [n'|f] eqn:L'; [|discriminate].
  destruct (Z.leb_spec n' limit); [|discriminate].
  intros H'. injection H' as <-. eauto.
Qed.

Lemma truncated_no_assertion (limit : Z) (text : value) :
  (0 <= limit)%Z -> Tavily.truncated limit text <> Tavily.Failed Tavily.AssertionErr.
Proof.
  intros Hl. unfold Tavily.truncated, Tavily.then_.
  destruct (Tavily.len text) as [n|f] eqn:L.
  2:{ apply len_failure in L as [m ->]. discriminate. }
  destruct (Z.gtb_spec n limit) as [Hgt|Hle].
  - destruct (Tavily.slice_to limit text) as [text'|f] eqn:S.
    + destruct (slice_to_within _ _ _ Hl S) as (n' & -> & Hn').
      destruct (Z.leb_spec n' limit); [discriminate | lia].
    + apply slice_to_failure in S as [m ->]. discriminate.
  - rewrite L. destruct (Z.leb_spec n limit); [discriminate | lia].
Qed.

Lemma url_is_pdf_failure (r : Tavily.result) (f : Tavily.failure) :
  Tavily.url_is_pdf r = Tavily.Failed f -> f <> Tavily.AssertionErr.
Proof.
  unfold Tavily.url_is_pdf, Tavily.item, Tavily.then_.
  destruct (PyVal.dict_get "url" r) as [u|]; [destruct (PyVal.as_str u)|];
    intros H; try discriminate H; injection H as <-; discriminate.
Qed.

Lemma url_is_pdf_item (r : Tavily.result) (b : bool) :
  Tavily.url_is_pdf r = Tavily.Done b ->
  exists u s, Tavily.item "url" r = Tavily.Done u /\ PyVal.as_str u = Some s
              /\ b = Tavily.endswith ".pdf" s.
Proof.
  unfold Tavily.url_is_pdf, Tavily.item, Tavily.then_.
  destruct (PyVal.dict_get "url" r) as [u|]; [destruct (PyVal.as_str u) as [s|] eqn:E|];
    intros H; try discriminate H; injection H as <-; eauto.
Qed.

(** [clean_results]: when it returns, its items are, in order, those of
    the results that are not PDFs, with the title and the url of the
    result; each item has the keys [title], [url] and then
    [raw_content] or [content], a text whose length is within the
    limit, and a url that does not end with [.pdf]; under a negative
    limit a returned list is empty, every result having been a PDF.
    When it fails under a limit that is not negative, the failure is
    never the one of the [assert]: the cut before it always
    suffices. *)
Theorem clean_results_bounds (limit : Z) (rs : list Tavily.result) :
  match Tavily.clean_results limit rs with
  | Tavily.Done l =>
      Forall (fun it => Tavily.within limit it /\ Tavily.cleaned_keys it
                        /\ Tavily.url_is_pdf it = Tavily.Done false) l
      /\ map (Tavily.item "url") l = map (Tavily.item "url") (List.filter Tavily.kept rs)
      /\ map (Tavily.item "title") l = map (Tavily.item "title") (List.filter Tavily.kept rs)
      /\ ((limit < 0)%Z -> l = [])
  | Tavily.Failed f => (0 <= limit)%Z -> f <> Tavily.AssertionErr
  end.
Proof.
  induction rs as [|r rs IH]; cbn [Tavily.clean_results].
  { repeat split; auto. }
  unfold Tavily.then_ at 1. cbn [List.filter].
  assert (K : Tavily.kept r = match Tavily.url_is_pdf r with
                              | Tavily.Done pdf => negb pdf
                              | Tavily.Failed _ => false
                              end) by reflexivity.
  destruct (Tavily.url_is_pdf r) as [[|]|f] eqn:U; cbn [negb] in K; try rewrite K;
    [exact IH | | intros _; exact (url_is_pdf_failure _ _ U)]. destruct (url_is_pdf_item _ _ U) as (u & s & Hu & Hs & Hpdf).
  unfold Tavily.then_ at 1.
  destruct (Tavily.item "raw_content" r) as [raw|f] eqn:R.
  2:{ intros _. unfold Tavily.item in R. destruct (PyVal.dict_get "raw_content" r);
      [discriminate R | injection R as <-; discriminate]. }
  assert (Hitem : forall k f, Tavily.item k r = Tavily.Failed f -> f <> Tavily.AssertionErr).
  { intros k f. unfold Tavily.item. destruct (PyVal.dict_get k r); intros H;
      [discriminate H | injection H as <-; discriminate]. }
  rewrite Hu.
  assert (Hpdf' : forall k v t,
             Tavily.url_is_pdf [("title", t); ("url", u); (k, v)] = Tavily.Done false).
  { intros k v t. unfold Tavily.url_is_pdf, Tavily.item, Tavily.then_.
    cbn [PyVal.dict_get String.eqb Ascii.eqb Bool.eqb]. rewrite Hs, <- Hpdf. reflexivity. }
  destruct (negb (is_None raw)).
  - unfold Tavily.then_ at 2.
    destruct (Tavily.truncated limit raw) as [raw'|f] eqn:T.
    2:{ cbn [Tavily.then_]. intros Hl E. subst f. exact (truncated_no_assertion _ _ Hl T). }
    unfold Tavily.then_ at 2.
    destruct (Tavily.item "title" r) as [t|f] eqn:Ti.
    2:{ cbn [Tavily.then_]. intros _. exact (Hitem _ _ Ti). }
    cbn [Tavily.then_].
    destruct (Tavily.clean_results limit rs) as [l|f]; [|exact IH].
    destruct IH as (IH1 & IH2 & IH3 & IH4).
    destruct (truncated_within _ _ _ T) as (n & Hn & Hle).
    split; [|split; [|split]].
    + constructor; [|exact IH1]. split; [|split; [left; reflexivity | apply Hpdf']].
      exists raw', n. auto.
    + cbn [map]. rewrite IH2. f_equal. rewrite Hu. reflexivity.
    + cbn [map]. rewrite IH3. f_equal. rewrite Ti. reflexivity.
    + intros Hneg. pose proof (len_nonneg _ _ Hn). lia.
  - unfold Tavily.then_ at 2.
    destruct (Tavily.item "content" r) as [c|f] eqn:C.
    2:{ cbn [Tavily.then_]. intros _. exact (Hitem _ _ C). }
    unfold Tavily.then_ at 2.
    destruct (Tavily.truncated limit c) as [c'|f] eqn:T.
    2:{ cbn [Tavily.then_]. intros Hl E. subst f. exact (truncated_no_assertion _ _ Hl T). }
    unfold Tavily.then_ at 2.
    destruct (Tavily.item "title" r) as [t|f] eqn:Ti.
    2:{ cbn [Tavily.then_]. intros _. exact (Hitem _ _ Ti). }
    cbn [Tavily.then_].
    destruct (Tavily.clean_results limit rs) as [l|f]; [|exact IH].
    destruct IH as (IH1 & IH2 & IH3 & IH4).
    destruct (truncated_within _ _ _ T) as (n & Hn & Hle).
    split; [|split; [|split]].
    + constructor; [|exact IH1]. split; [|split; [right; reflexivity | apply Hpdf']].
      exists c', n. auto.
    + cbn [map]. rewrite IH2. f_equal. rewrite Hu. reflexivity.
    + cbn [map]. rewrite IH3. f_equal. rewrite Ti. reflexivity.
    + intros Hneg. pose proof (len_nonneg _ _ Hn). lia.
Qed.

(** [clean_results_content_only] follows [clean_results]: when
    [clean_results] returns a list, [clean_results_content_only]
    returns the texts of its items, each under its key; when
    [clean_results] fails, either it is for a missing [title], which
    the other method does not read, or the other method fails in the
    same way. *)
Theorem clean_results_content_only_projects (limit : Z) (rs : list Tavily.result) :
  match Tavily.clean_results limit rs with
  | Tavily.Done l =>
      Tavily.clean_results_content_only limit rs = Tavily.Done (map Tavily.content_only l)
  | Tavily.Failed f =>
      f = Tavily.KeyErr "title" \/ Tavily.clean_results_content_only limit rs = Tavily.Failed f
  end.
Proof.
  induction rs as [|r rs IH];
    cbn [Tavily.clean_results Tavily.clean_results_content_only]; [reflexivity|].
  destruct (Tavily.url_is_pdf r) as [[|]|f] eqn:U; cbn [Tavily.then_];
    [exact IH | | right; reflexivity].
  destruct (url_is_pdf_item _ _ U) as (u & s & Hu & _). rewrite Hu.
  destruct (Tavily.item "raw_content" r) as [raw|f]; cbn [Tavily.then_];
    [|right; reflexivity].
  assert (Hrest : forall it,
    match Tavily.then_ (Tavily.clean_results limit rs)
            (fun l => Tavily.Done (it :: l)) with
    | Tavily.Done l =>
        Tavily.then_ (Tavily.clean_results_content_only limit rs)
          (fun l' => Tavily.Done (Tavily.content_only it :: l'))
        = Tavily.Done (map Tavily.content_only l)
    | Tavily.Failed f =>
        f = Tavily.KeyErr "title"
        \/ Tavily.then_ (Tavily.clean_results_content_only limit rs)
             (fun l' => Tavily.Done (Tavily.content_only it :: l')) = Tavily.Failed f
    end).
  { intros it. destruct (Tavily.clean_results limit rs) as [l|f]; cbn [Tavily.then_].
    - rewrite IH. reflexivity.
    - destruct IH as [->| ->]; [left | right]; reflexivity. }
  assert (Htitle : forall f, Tavily.item "title" r = Tavily.Failed f -> f = Tavily.KeyErr "title").
  { intros f. unfold Tavily.item. destruct (PyVal.dict_get "title" r); intros H;
      [discriminate H | injection H as <-; reflexivity]. }
  destruct (negb (is_None raw)).
  - destruct (Tavily.truncated limit raw) as [raw'|f]; cbn [Tavily.then_];
      [|right; reflexivity].
    destruct (Tavily.item "title" r) as [t|f] eqn:Ti; cbn [Tavily.then_];
      [|left; exact (Htitle _ eq_refl)].
    exact (Hrest [("title", t); ("url", u); ("raw_content", raw')]).
  - destruct (Tavily.item "content" r) as [c|f]; cbn [Tavily.then_];
      [|right; reflexivity].
    destruct (Tavily.truncated limit c) as [c'|f]; cbn [Tavily.then_];
      [|right; reflexivity].
    destruct (Tavily.item "title" r) as [t|f] eqn:Ti; cbn [Tavily.then_];
      [|left; exact (Htitle _ eq_refl)].
    exact (Hrest [("title", t); ("url", u); ("content", c')]).
Qed.

Lemma truncate_item_within (max_length : Z) (it : Tavily.result) :
  Tavily.content_within max_length it -> Tavily.truncate_item max_length it = Tavily.Done it.
Proof.
  unfold Tavily.truncate_item, Tavily.content_within. intros H.
  destruct (PyVal.dict_get "content" it) as [c|]; [|reflexivity].
  destruct (H c eq_refl) as (n & -> & Hle). cbn [Tavily.then_].
  destruct (Z.gtb_spec n max_length); [lia | reflexivity].
Qed.

Lemma truncate_item_spec (max_length : Z) (it : Tavily.result) :
  match Tavily.truncate_item max_length it with
  | Tavily.Done it' =>
      (map fst it' = map fst it
       /\ forall k, k <> "content" -> PyVal.dict_get k it' = PyVal.dict_get k it)
      /\ ((0 <= max_length)%Z -> Tavily.content_within max_length it')
  | Tavily.Failed f => exists m, f = Tavily.TypeErr m
  end.
Proof.
  unfold Tavily.truncate_item.
  destruct (PyVal.dict_get "content" it) as [c|] eqn:C.
  2:{ split; [split; reflexivity |]. intros _ v H. rewrite C in H. discriminate H. }
  destruct (Tavily.len c) as [n|f] eqn:L; cbn [Tavily.then_];
    [|exact (len_failure _ _ L)].
  destruct (Z.gtb_spec n max_length) as [Hgt|Hle].
  - destruct (Tavily.slice_to max_length c) as [c'|f] eqn:S; cbn [Tavily.then_];
      [|exact (slice_to_failure _ _ _ S)].
    split; [split|].
    + apply dict_keys_set_old. unfold PyVal.dict_mem. rewrite C. reflexivity.
    + intros k Hk. apply dict_get_set_neq. exact Hk.
    + intros Hm v. rewrite dict_get_set_eq. intros H. injection H as <-.
      exact (slice_to_within _ _ _ Hm S).
  - split; [split; reflexivity |]. intros _ v H. rewrite C in H. injection H as <-. eauto.
Qed.

Lemma truncate_context_within (max_length : Z) (data : list Tavily.result) :
  Forall (Tavily.content_within max_length) data ->
  Tavily.truncate_context data max_length = Tavily.Done data.
Proof.
  induction 1 as [|it data Hit _ IH]; cbn [Tavily.truncate_context]; [reflexivity |].
  rewrite (truncate_item_within _ _ Hit). cbn [Tavily.then_]. rewrite IH. reflexivity.
Qed.

(** [truncate_context]: when it returns, there is one item for each
    item given, with the same keys in the same order and the same value
    under every key but [content]; for a maximum that is not negative
    every [content] left has a length within the maximum; it fails only
    with a [TypeError], of a [content] without length or that cannot be
    sliced.  A list whose [content]s are all within the maximum is
    returned as it is. *)
Theorem truncate_context_bounds (data : list Tavily.result) (max_length : Z) :
  match Tavily.truncate_context data max_length with
  | Tavily.Done l =>
      Forall2 (fun it it' =>
                 map fst it' = map fst it
                 /\ forall k, k <> "content" -> PyVal.dict_get k it' = PyVal.dict_get k it)
              data l
      /\ ((0 <= max_length)%Z -> Forall (Tavily.content_within max_length) l)
  | Tavily.Failed f => exists m, f = Tavily.TypeErr m
  end
  /\ (Forall (Tavily.content_within max_length) data ->
      Tavily.truncate_context data max_length = Tavily.Done data).
Proof.
  split; [|apply truncate_context_within].
  induction data as [|it data IH]; cbn [Tavily.truncate_context].
  { split; [constructor | intros _; constructor]. }
  pose proof (truncate_item_spec max_length it) as Hit.
  destruct (Tavily.truncate_item max_length it) as [it'|f]; cbn [Tavily.then_];
    [|exact Hit].
  destruct (Tavily.truncate_context data max_length) as [l|f]; cbn [Tavily.then_];
    [|exact IH].
  destruct Hit as (H1 & H2). destruct IH as (I1 & I2).
  split; [constructor; assumption |].
  intros Hm. constructor; auto.
Qed.

Lemma content_only_within (limit : Z) (rs : list Tavily.result) :
  forall l, Tavily.clean_results_content_only limit rs = Tavily.Done l ->
            Forall (Tavily.content_within limit) l.
Proof.
  induction rs as [|r rs IH]; cbn [Tavily.clean_results_content_only]; intros l.
  { intros H. injection H as <-. constructor. }
  destruct (Tavily.url_is_pdf r) as [[|]|f]; cbn [Tavily.then_];
    [exact (IH l) | | discriminate].
  destruct (Tavily.item "raw_content" r) as [raw|f]; cbn [Tavily.then_]; [|discriminate].
  destruct (negb (is_None raw)).
  - destruct (Tavily.truncated limit raw) as [raw'|f]; cbn [Tavily.then_]; [|discriminate].
    destruct (Tavily.clean_results_content_only limit rs) as [l'|f];
      cbn [Tavily.then_]; [|discriminate].
    intros H. injection H as <-. constructor; [|exact (IH l' eq_refl)].
    intros v H. discriminate H.
  - destruct (Tavily.item "content" r) as [c|f]; cbn [Tavily.then_]; [|discriminate].
    destruct (Tavily.truncated limit c) as [c'|f] eqn:T; cbn [Tavily.then_]; [|discriminate].
    destruct (Tavily.clean_results_content_only limit rs) as [l'|f];
      cbn [Tavily.then_]; [|discriminate].
    intros H. injection H as <-. constructor; [|exact (IH l' eq_refl)].
    intros v H. cbn in H. injection H as <-. exact (truncated_within _ _ _ T).
Qed.

Lemma content_within_le (a b : Z) (it : Tavily.result) :
  (a <= b)%Z -> Tavily.content_within a it -> Tavily.content_within b it.
Proof.
  intros Hab H v Hv. destruct (H v Hv) as (n & Hn & Hle). exists n. split; [exact Hn | lia].
Qed.

Lemma length_repeat_string (c : ascii) (n : nat) :
  String.length (string_of_list_ascii (repeat c n)) = n.
Proof. induction n as [|n IH]; simpl; [reflexivity | now rewrite IH]. Qed.

Lemma ljust_long (w : nat) (c : ascii) (s : string) :
  w <= String.length s -> Tavily.ljust w c s = s.
Proof.
  intros H. unfold Tavily.ljust. replace (w - String.length s) with 0 by lia.
  apply append_nil_r.
Qed.

Lemma ljust_length (w : nat) (c : ascii) (s : string) :
  w <= String.length (Tavily.ljust w c s).
Proof.
  unfold Tavily.ljust. rewrite length_append, length_repeat_string. lia.
Qed.

(** [forward]: the search is made for the query padded with question
    marks to five characters (the two paddings with spaces that follow
    change nothing), for five results at depth [basic]; a query of five
    characters or more goes unchanged.  A failure of the wrapper, of
    the call, a response without [results] or a failure of the cleaning
    comes back as the [repr] of the exception; otherwise what comes
    back is the list [clean_results_content_only] built under the
    limit of 800: the cut at 5000 that follows never changes it. *)
Theorem forward_outcomes (new_wrapper : Tavily.outcome unit)
    (post_search : string -> Z -> string -> Tavily.outcome (option (list Tavily.result)))
    (query : string) :
  Tavily.forward new_wrapper post_search query =
    match new_wrapper with
    | Tavily.Failed e => VStr (Tavily.repr_failure e)
    | Tavily.Done _ =>
        match post_search (Tavily.ljust 5 "?" query) 5%Z "basic" with
        | Tavily.Failed e => VStr (Tavily.repr_failure e)
        | Tavily.Done None => VStr "KeyError('results')"
        | Tavily.Done (Some rs) =>
            match Tavily.clean_results_content_only 800 rs with
            | Tavily.Done l => VList (map VDict l)
            | Tavily.Failed e => VStr (Tavily.repr_failure e)
            end
        end
    end
  /\ 5 <= String.length (Tavily.ljust 5 "?" query)
  /\ (5 <= String.length query -> Tavily.ljust 5 "?" query = query).
Proof.
  split; [|split; [apply ljust_length | apply ljust_long]].
  unfold Tavily.forward. destruct new_wrapper as [[]|e]; cbn [Tavily.then_]; [|reflexivity].
  unfold Tavily.results_content_only, Tavily.raw_results. cbv zeta.
  rewrite !(ljust_long 5 " ") by apply ljust_length.
  change Tavily.max_results with 5%Z. change Tavily.search_depth with "basic".
  destruct (post_search (Tavily.ljust 5 "?" query) 5%Z "basic") as [[rs|]|e];
    cbn [Tavily.then_ Tavily.results_of]; [| reflexivity | reflexivity].
  change Tavily.default_context_str_limit with 800%Z.
  destruct (Tavily.clean_results_content_only 800 rs) as [l|e] eqn:E;
    cbn [Tavily.then_]; [|reflexivity].
  rewrite truncate_context_within; [reflexivity |].
  eapply List.Forall_impl; [|exact (content_only_within _ _ _ E)].
  intros it. apply content_within_le. unfold Tavily.context_str_limit. lia.
Qed.
